(** * plist: Apple XML property lists to and from Python values

    A shallow embedding of the package's [__init__.py] (serializer,
    deserializer, pretty-printer) and [iso8601.py] (date parser), with the
    properties of its specification stated and settled against it.

    Conventions of the embedding.
    - A Python [str] is a Rocq [string] whose characters are the code points
      below 256; [bytes] is [list byte].
    - A raised exception is a value of [PyExc]; a computation that may raise
      returns a [result].
    - [xml.etree.ElementTree] (the builder and the reader), [base64],
      [int], [float], [repr], [str], [re] and [datetime] belong to the host
      language: they are embedded from their documented behaviour, next to
      the code that calls them. *)

From Stdlib Require Import ZArith NArith List String Ascii Bool Lia.
From Stdlib Require Import Sorting.Sorted Sorting.Permutation.
From Stdlib Require Import Init.Byte Strings.Byte.
From Stdlib Require Import Floats.SpecFloat.
Import ListNotations.

Local Open Scope string_scope.
Local Open Scope Z_scope.

#[local] Set Warnings "-register-all".

(** ** Characters and strings *)

Definition chr (n : Z) : ascii := ascii_of_N (Z.to_N n).
Definition ord (c : ascii) : Z := Z.of_N (N_of_ascii c).

Definition str1 (c : ascii) : string := String c EmptyString.

Definition NL : string := str1 (chr 10).
Definition TAB : string := str1 (chr 9).
Definition DQUOTE : string := str1 (chr 34).

(** [s * n] on strings. *)
Fixpoint str_repeat (s : string) (n : nat) : string :=
  match n with
  | O => EmptyString
  | S n' => s ++ str_repeat s n'
  end.

(** [''.join(l)]. *)
Definition join (l : list string) : string :=
  fold_right append EmptyString l.

(** Truth value of a [str] or [None]: false for [None] and for the empty
    string. *)
Definition truthy (t : option string) : bool :=
  match t with
  | None => false
  | Some EmptyString => false
  | Some _ => true
  end.

(** [str.isspace] on one character, which is also what [\s] matches in a
    [str] pattern. *)
Definition isspace (c : ascii) : bool :=
  let n := ord c in
  ((9 <=? n) && (n <=? 13)) || ((28 <=? n) && (n <=? 32))
  || (n =? 133) || (n =? 160).

(** The whitespace [int] and [float] allow around a number: the C
    whitespace, and the other blanks beyond ASCII. *)
Definition isspace_number (c : ascii) : bool :=
  let n := ord c in
  ((9 <=? n) && (n <=? 13)) || (n =? 32) || (n =? 133) || (n =? 160).

Definition isdigit (c : ascii) : bool :=
  let n := ord c in (48 <=? n) && (n <=? 57).

Definition digit_value (c : ascii) : Z := ord c - 48.

Definition digit_char (d : Z) : ascii := chr (48 + d).

Fixpoint all_chars (p : ascii -> bool) (s : string) : bool :=
  match s with
  | EmptyString => true
  | String c r => p c && all_chars p r
  end.

Fixpoint drop_while (p : ascii -> bool) (s : string) : string :=
  match s with
  | EmptyString => EmptyString
  | String c r => if p c then drop_while p r else s
  end.

Fixpoint take_while (p : ascii -> bool) (s : string) : string :=
  match s with
  | EmptyString => EmptyString
  | String c r => if p c then String c (take_while p r) else EmptyString
  end.

(** ** Exceptions *)

(** The exception classes the program can raise, each with the fixed part
    of its message. *)
Inductive PyExc : Type :=
| TypeError (msg : string)
| ValueError (msg : string)
| IndexError (msg : string)
| KeyError (msg : string)
| AttributeError (msg : string)
| AssertionError (msg : string)
| OverflowError (msg : string)
| ParseError (msg : string)
| binascii_Error (msg : string).

Inductive result (A : Type) : Type :=
| Ok (a : A)
| Raise (e : PyExc).

Arguments Ok {A} a.
Arguments Raise {A} e.

Definition rbind {A B} (r : result A) (k : A -> result B) : result B :=
  match r with
  | Ok a => k a
  | Raise e => Raise e
  end.

Definition is_ok {A} (r : result A) : bool :=
  match r with Ok _ => true | Raise _ => false end.

Declare Scope result_scope.
Delimit Scope result_scope with result.
Notation "'let?' x ':=' r 'in' k" := (rbind r (fun x => k))
  (at level 10, x pattern, r at level 100, k at level 200) : result_scope.
Local Open Scope result_scope.

(** ** Element trees *)

(** An [xml.etree.ElementTree.Element]: tag ([None] for a bare text node),
    attributes in order, text, children.  The [tail] of an element is left
    out: no function of the program reads or writes it. *)
Inductive Element : Type :=
| Elem (tag : option string) (attrib : list (string * string))
       (text : option string) (children : list Element).

Definition tag_of (e : Element) : option string :=
  let 'Elem t _ _ _ := e in t.
Definition attrib_of (e : Element) : list (string * string) :=
  let 'Elem _ a _ _ := e in a.
Definition text_of (e : Element) : option string :=
  let 'Elem _ _ x _ := e in x.
Definition children_of (e : Element) : list Element :=
  let 'Elem _ _ _ c := e in c.

Definition set_text (x : string) (e : Element) : Element :=
  let 'Elem t a _ c := e in Elem t a (Some x) c.
Definition append_child (child : Element) (e : Element) : Element :=
  let 'Elem t a x c := e in Elem t a x (c ++ [child]).

Definition opt_str_eqb (a b : option string) : bool :=
  match a, b with
  | None, None => true
  | Some x, Some y => String.eqb x y
  | _, _ => false
  end.

(** ** TreeBuilder *)

Module TreeBuilder.

(** What [_last] and [_tail] say together: nothing built yet, [_last] is
    the innermost open element (pending data becomes its text), or [_last]
    is an element already ended (pending data becomes its tail). *)
Inductive last_state := LastNone | LastOpen | LastEnded.

(** [_elem] is the stack of open elements, innermost first.  Python
    appends an element to its parent in [start] and goes on mutating it
    through the alias; the tree is only read once the element is ended, so
    here the finished element joins its parent in [end]. *)
Record t : Type := mk {
  _data : list string;
  _elem : list Element;
  _last : last_state;
  _root : option Element
}.

Definition init : t := mk [] [] LastNone None.

Definition _flush (b : t) : t :=
  match _data b with
  | [] => b
  | _ :: _ =>
      let text := join (_data b) in
      match _last b, _elem b with
      | LastOpen, top :: rest =>
          mk [] (set_text text top :: rest) (_last b) (_root b)
      | _, _ => mk [] (_elem b) (_last b) (_root b)
      end
  end.

Definition data (s : string) (b : t) : t :=
  mk (_data b ++ [s]) (_elem b) (_last b) (_root b).

Definition start (tag : option string) (attrs : list (string * string))
    (b : t) : t :=
  let b := _flush b in
  mk (_data b) (Elem tag attrs None [] :: _elem b) LastOpen (_root b).

Definition end_ (tag : option string) (b : t) : result (Element * t) :=
  let b := _flush b in
  match _elem b with
  | [] => Raise (IndexError "pop from empty list")
  | e :: rest =>
      if opt_str_eqb (tag_of e) tag then
        match rest with
        | parent :: rest' =>
            Ok (e, mk (_data b) (append_child e parent :: rest') LastEnded
                      (_root b))
        | [] =>
            Ok (e, mk (_data b) [] LastEnded
                      (match _root b with None => Some e | r => r end))
        end
      else Raise (AssertionError "end tag mismatch")
  end.

Definition close (b : t) : result Element :=
  match _elem b with
  | _ :: _ => Raise (AssertionError "missing end tags")
  | [] =>
      match _root b with
      | None => Raise (AssertionError "missing toplevel element")
      | Some r => Ok r
      end
  end.

End TreeBuilder.

(** The builder monad: a method of [PListBuilder] takes the builder state
    and returns a value and the new state, or raises. *)
Definition Build (A : Type) : Type :=
  TreeBuilder.t -> result (A * TreeBuilder.t).

Definition bret {A} (a : A) : Build A := fun b => Ok (a, b).

Definition bbind {A B} (m : Build A) (k : A -> Build B) : Build B :=
  fun b => match m b with
           | Ok (a, b') => k a b'
           | Raise e => Raise e
           end.

Definition braise {A} (e : PyExc) : Build A := fun _ => Raise e.

Definition bstart (tag : option string) (attrs : list (string * string))
  : Build unit := fun b => Ok (tt, TreeBuilder.start tag attrs b).

Definition bdata (s : string) : Build unit :=
  fun b => Ok (tt, TreeBuilder.data s b).

Definition bend (tag : option string) : Build Element := TreeBuilder.end_ tag.

Declare Scope build_scope.
Delimit Scope build_scope with build.
Notation "x <- m ;; k" := (bbind m (fun x => k))
  (at level 61, m at next level, right associativity) : build_scope.
Notation "m ;; k" := (bbind m (fun _ => k))
  (at level 61, right associativity) : build_scope.
Local Open Scope build_scope.

(** ** bytes and the base64 module *)

Definition byte_val (b : byte) : Z := Z.of_N (Byte.to_N b).

Definition byte_of_Z (n : Z) : byte :=
  match Byte.of_N (Z.to_N (n mod 256)) with
  | Some b => b
  | None => x00
  end.

Definition byte_of_ascii (c : ascii) : byte := byte_of_Z (ord c).

(** [str.encode()]: UTF-8; a code point from 128 to 255 takes two bytes. *)
Fixpoint str_encode (s : string) : list byte :=
  match s with
  | EmptyString => []
  | String c r =>
      let n := ord c in
      if n <? 128 then byte_of_Z n :: str_encode r
      else byte_of_Z (192 + n / 64) :: byte_of_Z (128 + n mod 64)
             :: str_encode r
  end.

(** [bytes.decode()]: UTF-8 back to the code points below 256. *)
Fixpoint bytes_decode (b : list byte) : result string :=
  match b with
  | [] => Ok EmptyString
  | x :: r =>
      let n := byte_val x in
      if n <? 128 then
        let? s := bytes_decode r in Ok (String (chr n) s)
      else
        match r with
        | y :: r' =>
            let m := byte_val y in
            if ((n =? 194) || (n =? 195)) && (128 <=? m) && (m <? 192) then
              let? s := bytes_decode r' in
              Ok (String (chr ((n - 192) * 64 + (m - 128))) s)
            else Raise (ValueError "UnicodeDecodeError")
        | [] => Raise (ValueError "UnicodeDecodeError")
        end
  end.

Module binascii.

Definition table_b2a_base64 : string :=
  "ABCDEFGHIJKLMNOPQRSTUVWXYZabcdefghijklmnopqrstuvwxyz0123456789+/".

Definition BASE64_PAD : byte := byte_of_Z 61.

Definition b2a_char (n : Z) : byte :=
  match String.get (Z.to_nat n) table_b2a_base64 with
  | Some c => byte_of_ascii c
  | None => x00
  end.

(** The 6-bit groups that are ready once [leftbits] bits are buffered. *)
Definition b2a_step (leftchar leftbits : Z) (x : byte)
  : list byte * Z * Z :=
  let leftchar := Z.lor (Z.shiftl leftchar 8) (byte_val x) in
  let leftbits := leftbits + 8 in
  if leftbits >=? 12 then
    ([b2a_char (Z.land (Z.shiftr leftchar (leftbits - 6)) 63);
      b2a_char (Z.land (Z.shiftr leftchar (leftbits - 12)) 63)],
     Z.land leftchar (Z.ones (leftbits - 12)), leftbits - 12)
  else
    ([b2a_char (Z.land (Z.shiftr leftchar (leftbits - 6)) 63)],
     Z.land leftchar (Z.ones (leftbits - 6)), leftbits - 6).

Fixpoint b2a_loop (leftchar leftbits : Z) (bin : list byte) : list byte :=
  match bin with
  | x :: r =>
      let '(out, leftchar', leftbits') := b2a_step leftchar leftbits x in
      out ++ b2a_loop leftchar' leftbits' r
  | [] =>
      if leftbits =? 2 then
        [b2a_char (Z.shiftl (Z.land leftchar 3) 4); BASE64_PAD; BASE64_PAD]
      else if leftbits =? 4 then
        [b2a_char (Z.shiftl (Z.land leftchar 15) 2); BASE64_PAD]
      else []
  end.

(** [binascii.b2a_base64(data)], with its closing newline. *)
Definition b2a_base64 (bin : list byte) : list byte :=
  b2a_loop 0 0 bin ++ [byte_of_Z 10].

(** [table_a2b_base64]: the value of an alphabet character, 64 or more
    for any other byte. *)
Definition table_a2b_base64 (x : byte) : Z :=
  let n := byte_val x in
  if (65 <=? n) && (n <=? 90) then n - 65
  else if (97 <=? n) && (n <=? 122) then n - 71
  else if (48 <=? n) && (n <=? 57) then n + 4
  else if n =? 43 then 62
  else if n =? 47 then 63
  else 64.

(** The decoding loop of [a2b_base64] (not in strict mode): padding that
    completes a quad ends the input, any other byte outside the alphabet
    is skipped. *)
Fixpoint a2b_loop (quad_pos leftchar pads : Z) (ascii_data : list byte)
  : result (list byte) :=
  match ascii_data with
  | [] =>
      if quad_pos =? 0 then Ok []
      else if quad_pos =? 1 then
        Raise (binascii_Error "Invalid base64-encoded string")
      else Raise (binascii_Error "Incorrect padding")
  | x :: r =>
      if Byte.eqb x BASE64_PAD then
        if (2 <=? quad_pos) then
          if (4 <=? quad_pos + (pads + 1)) then Ok []
          else a2b_loop quad_pos leftchar (pads + 1) r
        else a2b_loop quad_pos leftchar pads r
      else
        let this_ch := table_a2b_base64 x in
        if 64 <=? this_ch then a2b_loop quad_pos leftchar pads r
        else if quad_pos =? 0 then a2b_loop 1 this_ch 0 r
        else if quad_pos =? 1 then
          let? out := a2b_loop 2 (Z.land this_ch 15) 0 r in
          Ok (byte_of_Z (Z.lor (Z.shiftl leftchar 2) (Z.shiftr this_ch 4))
                :: out)
        else if quad_pos =? 2 then
          let? out := a2b_loop 3 (Z.land this_ch 3) 0 r in
          Ok (byte_of_Z (Z.lor (Z.shiftl leftchar 4) (Z.shiftr this_ch 2))
                :: out)
        else
          let? out := a2b_loop 0 0 0 r in
          Ok (byte_of_Z (Z.lor (Z.shiftl leftchar 6) this_ch) :: out)
  end.

Definition a2b_base64 (ascii_data : list byte) : result (list byte) :=
  a2b_loop 0 0 0 ascii_data.

End binascii.

Module base64.

Definition MAXBINSIZE : nat := 57.

(** [encodebytes]: each chunk of 57 bytes becomes one line. *)
Fixpoint encode_chunks (fuel : nat) (s : list byte) : list byte :=
  match fuel, s with
  | _, [] => []
  | O, _ => []
  | S fuel', _ =>
      binascii.b2a_base64 (firstn MAXBINSIZE s)
        ++ encode_chunks fuel' (skipn MAXBINSIZE s)
  end.

Definition encodebytes (s : list byte) : list byte :=
  encode_chunks (List.length s) s.

Definition decodebytes (s : list byte) : result (list byte) :=
  binascii.a2b_base64 s.

End base64.

Module _b64.

(** [encodeb2s(b)]: bytes data to base64 string. *)
Definition encodeb2s (b : list byte) : result string :=
  bytes_decode (base64.encodebytes b).

(** [decodes2b(s)]: base64 string to bytes data; [None] has no
    [encode]. *)
Definition decodes2b (s : option string) : result (list byte) :=
  match s with
  | None =>
      Raise (AttributeError "'NoneType' object has no attribute 'encode'")
  | Some s => base64.decodebytes (str_encode s)
  end.

End _b64.

(** ** Numbers and text *)

(** The decimal digits of [n >= 0], most significant first, in front of
    [acc]. *)
Fixpoint digits_of (fuel : nat) (n : Z) (acc : string) : string :=
  match fuel with
  | O => acc
  | S fuel' =>
      let acc' := String (digit_char (n mod 10)) acc in
      if n <? 10 then acc' else digits_of fuel' (n / 10) acc'
  end.

Definition str_nonneg (n : Z) : string :=
  digits_of (S (Z.to_nat (Z.log2 n))) n EmptyString.

(** [str(n)] for an [int]. *)
Definition str_int (n : Z) : string :=
  if n <? 0 then "-" ++ str_nonneg (- n) else str_nonneg n.

(** ["%0<w>d" % n] for [n >= 0]. *)
Definition zfill (w : nat) (n : Z) : string :=
  let s := str_nonneg n in
  str_repeat "0" (w - String.length s) ++ s.

Fixpoint rstrip (p : ascii -> bool) (s : string) : string :=
  match s with
  | EmptyString => EmptyString
  | String c r =>
      match rstrip p r with
      | EmptyString => if p c then EmptyString else str1 c
      | r' => String c r'
      end
  end.

(** The text of a number without the whitespace around it. *)
Definition strip_number (s : string) : string :=
  rstrip isspace_number (drop_while isspace_number s).

(** The value of a run of digits read after [acc]. *)
Fixpoint digits_value (acc : Z) (s : string) : Z :=
  match s with
  | EmptyString => acc
  | String c r => digits_value (acc * 10 + digit_value c) r
  end.

(** [digitpart ::= digit (["_"] digit)*] up to the end of [s]: the digits
    without their underscores, or [None] when [s] is not a digitpart. *)
Fixpoint whole_digitpart (after_digit : bool) (s : string) : option string :=
  match s with
  | EmptyString => if after_digit then Some EmptyString else None
  | String c r =>
      if isdigit c then option_map (String c) (whole_digitpart true r)
      else if (ord c =? 95) && after_digit then whole_digitpart false r
      else None
  end.

Definition split_sign (s : string) : bool * string :=
  match s with
  | String c r =>
      if ord c =? 45 then (true, r)
      else if ord c =? 43 then (false, r)
      else (false, s)
  | EmptyString => (false, s)
  end.

(** [int(x)] for [x] a [str] or [None], base 10. *)
Definition py_int (x : option string) : result Z :=
  match x with
  | None => Raise (TypeError "int() argument must be a string, a bytes-like object or a real number, not 'NoneType'")
  | Some s =>
      let '(neg, body) := split_sign (strip_number s) in
      match whole_digitpart false body with
      | Some ds =>
          let n := digits_value 0 ds in
          Ok (if neg then - n else n)
      | None => Raise (ValueError "invalid literal for int() with base 10")
      end
  end.

(** *** float: IEEE 754 binary64 *)

Definition prec : Z := 53.
Definition emax : Z := 1024.

Definition float := spec_float.

(** The double nearest to [m * 10^e] (ties to even), with sign [neg]: what
    the correctly rounded conversion of a decimal literal yields. *)
Definition float_of_decimal (neg : bool) (m e : Z) : float :=
  match m with
  | Zpos p =>
      if 0 <=? e then binary_round prec emax neg (p * Z.to_pos (10 ^ e)) 0
      else SFdiv prec emax (S754_finite neg p 0)
                           (S754_finite false (Z.to_pos (10 ^ (- e))) 0)
  | _ => S754_zero neg
  end.

(** The longest [digitpart] at the front of [s]: its digits and the rest.
    An underscore belongs to it only between two digits. *)
Fixpoint scan_digits (s : string) : string * string :=
  match s with
  | String c r =>
      if isdigit c then
        let '(ds, rest) := scan_digits r in (String c ds, rest)
      else if ord c =? 95 then
        match r with
        | String c' _ =>
            if isdigit c' then
              match scan_digits r with
              | (EmptyString, _) => (EmptyString, s)
              | (ds, rest) => (ds, rest)
              end
            else (EmptyString, s)
        | EmptyString => (EmptyString, s)
        end
      else (EmptyString, s)
  | EmptyString => (EmptyString, s)
  end.

(** A [digitpart] at the front of [s]: it starts with a digit. *)
Definition scan_digitpart (s : string) : option (string * string) :=
  match s with
  | String c _ => if isdigit c then Some (scan_digits s) else None
  | EmptyString => None
  end.

Definition lower (c : ascii) : ascii :=
  let n := ord c in if (65 <=? n) && (n <=? 90) then chr (n + 32) else c.

Fixpoint str_lower (s : string) : string :=
  match s with
  | EmptyString => EmptyString
  | String c r => String (lower c) (str_lower r)
  end.

(** [exponent ::= ("e" | "E") [sign] digitpart], to the end of [s]; no
    exponent is exponent 0. *)
Definition scan_exponent (s : string) : option Z :=
  match s with
  | EmptyString => Some 0
  | String c r =>
      if (ord c =? 101) || (ord c =? 69) then
        let '(neg, body) := split_sign r in
        match whole_digitpart false body with
        | Some ds =>
            let n := digits_value 0 ds in Some (if neg then - n else n)
        | None => None
        end
      else None
  end.

(** [number ::= [digitpart] "." digitpart | digitpart ["."]] followed by an
    optional exponent: the decimal mantissa and exponent. *)
Definition scan_floatnumber (s : string) : option (Z * Z) :=
  match scan_digitpart s with
  | Some (ip, rest) =>
      match rest with
      | String c r =>
          if ord c =? 46 then
            let '(fp, rest') :=
              match scan_digitpart r with
              | Some p => p
              | None => (EmptyString, r)
              end in
            option_map
              (fun x => (digits_value 0 (ip ++ fp),
                         x - Z.of_nat (String.length fp)))
              (scan_exponent rest')
          else option_map (fun x => (digits_value 0 ip, x))
                          (scan_exponent rest)
      | EmptyString => Some (digits_value 0 ip, 0)
      end
  | None =>
      match s with
      | String c r =>
          if ord c =? 46 then
            match scan_digitpart r with
            | Some (fp, rest') =>
                option_map
                  (fun x => (digits_value 0 fp,
                             x - Z.of_nat (String.length fp)))
                  (scan_exponent rest')
            | None => None
            end
          else None
      | EmptyString => None
      end
  end.

(** [float(x)] for [x] a [str] or [None]. *)
Definition py_float (x : option string) : result float :=
  match x with
  | None => Raise (TypeError "float() argument must be a string or a real number, not 'NoneType'")
  | Some s =>
      let '(neg, body) := split_sign (strip_number s) in
      let low := str_lower body in
      if String.eqb low "inf" || String.eqb low "infinity" then
        Ok (S754_infinity neg)
      else if String.eqb low "nan" then Ok S754_nan
      else
        match scan_floatnumber body with
        | Some (m, e) => Ok (float_of_decimal neg m e)
        | None => Raise (ValueError "could not convert string to float")
        end
  end.

(** [x * y] on floats. *)
Definition float_mul (x y : float) : float := SFmul prec emax x y.

(** The literal [1e6]. *)
Definition float_1e6 : float := float_of_decimal false 1 6.

(** [int(x)] for a float: truncation towards zero. *)
Definition int_of_float (x : float) : result Z :=
  match x with
  | S754_zero _ => Ok 0
  | S754_finite s m e =>
      let a := if 0 <=? e then Z.pos m * 2 ^ e else Z.pos m / 2 ^ (- e) in
      Ok (if s then - a else a)
  | S754_infinity _ =>
      Raise (OverflowError "cannot convert float infinity to integer")
  | S754_nan => Raise (ValueError "cannot convert float NaN to integer")
  end.

(** *** repr of a float

    [repr(x)] is the shortest string of decimal digits that reads back as
    [x], the nearest to [x] when several of that length do, written in
    fixed notation when the decimal point falls within 16 digits after the
    first and no more than 4 zeros before it, else with an exponent. *)

Definition float_same (a b : float) : bool :=
  match a, b with
  | S754_finite sa ma ea, S754_finite sb mb eb =>
      Bool.eqb sa sb && Pos.eqb ma mb && (ea =? eb)
  | S754_zero sa, S754_zero sb => Bool.eqb sa sb
  | S754_infinity sa, S754_infinity sb => Bool.eqb sa sb
  | S754_nan, S754_nan => true
  | _, _ => false
  end.

(** [m * 2^e / 10^q] as a fraction of two positive integers. *)
Definition scaled (m : positive) (e q : Z) : Z * Z :=
  (Z.pos m * 2 ^ Z.max e 0 * 10 ^ Z.max (- q) 0,
   2 ^ Z.max (- e) 0 * 10 ^ Z.max q 0).

(** The least [E] from [E0] on with [m * 2^e < 10^E]. *)
Fixpoint first_pow10_above (fuel : nat) (m : positive) (e E0 : Z) : Z :=
  match fuel with
  | O => E0
  | S fuel' =>
      let '(num, den) := scaled m e E0 in
      if num <? den then E0 else first_pow10_above fuel' m e (E0 + 1)
  end.

(** The position of the decimal point of [m * 2^e]: the [E] with
    [10^(E-1) <= m * 2^e < 10^E]. *)
Definition decimal_point (m : positive) (e : Z) : Z :=
  first_pow10_above 5 m e ((Z.log2 (Z.pos m) + e) * 30103 / 100000 - 1).

(** The decimal with [k] digits that reads back as [m * 2^e], as the pair
    of its digit number [n] and power [q] (value [n * 10^q]), if any. *)
Definition shortest_candidate (m : positive) (e : Z) (k : Z)
  : option (Z * Z) :=
  let q := decimal_point m e - k in
  let '(num, den) := scaled m e q in
  let lo := num / den in
  let hi := lo + 1 in
  let x := S754_finite false m e in
  let ok_lo := float_same (float_of_decimal false lo q) x in
  let ok_hi := float_same (float_of_decimal false hi q) x in
  match ok_lo, ok_hi with
  | true, true =>
      match Z.compare (2 * num) ((2 * lo + 1) * den) with
      | Lt => Some (lo, q)
      | Gt => Some (hi, q)
      | Eq => Some (if Z.even lo then lo else hi, q)
      end
  | true, false => Some (lo, q)
  | false, true => Some (hi, q)
  | false, false => None
  end.

Fixpoint shortest_digits (fuel : nat) (m : positive) (e : Z) (k : Z)
  : Z * Z :=
  match fuel with
  | O =>
      let q := decimal_point m e - k in
      let '(num, den) := scaled m e q in (num / den, q)
  | S fuel' =>
      match shortest_candidate m e k with
      | Some r => r
      | None => shortest_digits fuel' m e (k + 1)
      end
  end.

Fixpoint strip_zeros (s : string) : string :=
  match s with
  | EmptyString => EmptyString
  | String c r =>
      match strip_zeros r with
      | EmptyString => if ord c =? 48 then EmptyString else str1 c
      | r' => String c r'
      end
  end.

Definition format_exponent (x : Z) : string :=
  (if x <? 0 then "-" else "+") ++ zfill 2 (Z.abs x).

(** The digits [ds] with the decimal point after the first [decpt] of them,
    as [repr] writes them. *)
Definition format_short (ds : string) (decpt : Z) : string :=
  let n := Z.of_nat (String.length ds) in
  if (decpt <=? -4) || (16 <? decpt) then
    substring 0 1 ds
      ++ (if 1 <? n then "." ++ substring 1 (String.length ds - 1) ds
          else EmptyString)
      ++ "e" ++ format_exponent (decpt - 1)
  else if decpt <=? 0 then
    "0." ++ str_repeat "0" (Z.to_nat (- decpt)) ++ ds
  else if n <=? decpt then
    ds ++ str_repeat "0" (Z.to_nat (decpt - n)) ++ ".0"
  else
    substring 0 (Z.to_nat decpt) ds ++ "."
      ++ substring (Z.to_nat decpt) (String.length ds - Z.to_nat decpt) ds.

(** [repr(x)]. *)
Definition float_repr (x : float) : string :=
  match x with
  | S754_nan => "nan"
  | S754_infinity s => if s then "-inf" else "inf"
  | S754_zero s => if s then "-0.0" else "0.0"
  | S754_finite s m e =>
      let '(n, q) := shortest_digits 17 m e 1 in
      let ds := str_nonneg n in
      (if s then "-" else EmptyString)
        ++ format_short (strip_zeros ds) (q + Z.of_nat (String.length ds))
  end.

Definition float_lit (s : string) : float :=
  match py_float (Some s) with
  | Ok x => x
  | Raise _ => S754_nan
  end.

(** ** datetime *)

(** A [timedelta] is its length in microseconds. *)
Definition timedelta (hours minutes : Z) : Z :=
  (hours * 3600 + minutes * 60) * 1000000.

(** A [datetime.timezone]: its fixed offset from UTC, a timedelta.  The
    name is left out: it plays no part in equality or in [isoformat]. *)
Record tzinfo : Type := mktz { utcoffset : Z }.

Definition timezone_utc : tzinfo := mktz 0.

(** [timezone(offset, name)]. *)
Definition timezone (offset : Z) : result tzinfo :=
  if (- timedelta 24 0 <? offset) && (offset <? timedelta 24 0)
  then Ok (mktz offset)
  else Raise (ValueError "offset must be a timedelta strictly between -timedelta(hours=24) and timedelta(hours=24)").

Record datetime : Type := mkdatetime {
  year : Z; month : Z; day : Z;
  hour : Z; minute : Z; second : Z; microsecond : Z;
  tz : option tzinfo
}.

Definition is_leap (y : Z) : bool :=
  (y mod 4 =? 0) && (negb (y mod 100 =? 0) || (y mod 400 =? 0)).

Definition days_in_month (y m : Z) : Z :=
  if m =? 2 then (if is_leap y then 29 else 28)
  else if (m =? 4) || (m =? 6) || (m =? 9) || (m =? 11) then 30
  else 31.

(** The constructor [datetime(year, month, day, hour, minute, second,
    microsecond, tzinfo)] with its range checks. *)
Definition datetime_new (y mo d h mi s us : Z) (z : option tzinfo)
  : result datetime :=
  if negb ((1 <=? y) && (y <=? 9999)) then
    Raise (ValueError "year is out of range")
  else if negb ((1 <=? mo) && (mo <=? 12)) then
    Raise (ValueError "month must be in 1..12")
  else if negb ((1 <=? d) && (d <=? days_in_month y mo)) then
    Raise (ValueError "day is out of range for month")
  else if negb ((0 <=? h) && (h <=? 23)) then
    Raise (ValueError "hour must be in 0..23")
  else if negb ((0 <=? mi) && (mi <=? 59)) then
    Raise (ValueError "minute must be in 0..59")
  else if negb ((0 <=? s) && (s <=? 59)) then
    Raise (ValueError "second must be in 0..59")
  else if negb ((0 <=? us) && (us <=? 999999)) then
    Raise (ValueError "microsecond must be in 0..999999")
  else Ok (mkdatetime y mo d h mi s us z).

(** The offset suffix of [isoformat]. *)
Definition _format_offset (z : option tzinfo) : string :=
  match z with
  | None => EmptyString
  | Some z =>
      let off := utcoffset z in
      let sign := if off <? 0 then "-" else "+" in
      let off := Z.abs off in
      let hh := off / timedelta 1 0 in
      let mm := (off mod timedelta 1 0) / timedelta 0 1 in
      let ss := (off mod timedelta 1 0) mod timedelta 0 1 in
      sign ++ zfill 2 hh ++ ":" ++ zfill 2 mm
        ++ (if ss =? 0 then EmptyString
            else ":" ++ zfill 2 (ss / 1000000)
                 ++ (if ss mod 1000000 =? 0 then EmptyString
                     else "." ++ zfill 6 (ss mod 1000000)))
  end.

(** [datetime.isoformat()]. *)
Definition isoformat (d : datetime) : string :=
  zfill 4 (year d) ++ "-" ++ zfill 2 (month d) ++ "-" ++ zfill 2 (day d)
    ++ "T" ++ zfill 2 (hour d) ++ ":" ++ zfill 2 (minute d) ++ ":"
    ++ zfill 2 (second d)
    ++ (if microsecond d =? 0 then EmptyString
        else "." ++ zfill 6 (microsecond d))
    ++ _format_offset (tz d).

(** ** The values the codec converts *)

(** The Python objects the serializer accepts and the deserializer returns.
    A mapping is the list of its items in iteration order (keys pairwise
    different), flagged [ordered] when it is a [collections.OrderedDict];
    a key is a [str] or [None].  [VObject] is an object of any other
    type. *)
Inductive Value : Type :=
| VNone
| VBool (b : bool)
| VInt (n : Z)
| VFloat (x : float)
| VStr (s : string)
| VBytes (b : list byte)
| VDatetime (d : datetime)
| VList (l : list Value)
| VDict (ordered : bool) (items : list (option string * Value))
| VObject.

Definition OrderedDict (items : list (option string * Value)) : Value :=
  VDict true items.

(** [d[key] = value] on an [OrderedDict]: a present key keeps its place. *)
Fixpoint setitem (items : list (option string * Value)) (key : option string)
    (value : Value) : list (option string * Value) :=
  match items with
  | [] => [(key, value)]
  | (k, v) :: r =>
      if opt_str_eqb k key then (k, value) :: r
      else (k, v) :: setitem r key value
  end.

(** [d[key]]. *)
Fixpoint getitem (items : list (option string * Value)) (key : option string)
  : result Value :=
  match items with
  | [] => Raise (KeyError "key")
  | (k, v) :: r => if opt_str_eqb k key then Ok v else getitem r key
  end.

(** ** The pretty-printer *)

Definition PLISTHEADER : string :=
  "<?xml version=" ++ DQUOTE ++ "1.0" ++ DQUOTE ++ " encoding=" ++ DQUOTE
    ++ "UTF-8" ++ DQUOTE ++ "?>" ++ NL
    ++ "<!DOCTYPE plist PUBLIC " ++ DQUOTE
    ++ "-//Apple Computer//DTD PLIST 1.0//EN" ++ DQUOTE ++ NL
    ++ TAB ++ DQUOTE ++ "http://www.apple.com/DTDs/PropertyList-1.0.dtd"
    ++ DQUOTE ++ ">" ++ NL.

Definition format_attrib (kv : string * string) : string :=
  " " ++ fst kv ++ "=" ++ DQUOTE ++ snd kv ++ DQUOTE.

(** [tree2xml(elem, write, i, init_increment)]: the text passed to [write],
    in order.  The recursive calls leave [init_increment] at its default. *)
Fixpoint tree2xml (elem : Element) (i : nat) (init_increment : nat)
  : string :=
  let 'Elem tag attrib text children := elem in
  let I := str_repeat TAB i in
  let sub :=
    (fix each (l : list Element) : string :=
       match l with
       | [] => EmptyString
       | e :: r => tree2xml e (i + init_increment) 1 ++ each r
       end) children in
  match tag with
  | None =>
      (if truthy text
       then I ++ match text with Some x => x | None => EmptyString end ++ NL
       else EmptyString)
      ++ sub
  | Some tag =>
      I ++ "<" ++ tag ++ join (map format_attrib attrib)
      ++ (if truthy text || negb (Nat.eqb (List.length children) 0) then
            ">"
            ++ (if truthy text
                then match text with Some x => x | None => EmptyString end
                else NL)
            ++ sub
            ++ (if negb (truthy text) then I else EmptyString)
            ++ "</" ++ tag ++ ">" ++ NL
          else "/>" ++ NL)
  end.

(** ** Serialization *)

(** [WHITESPACE_RE = re.compile(r'^\s+|\n|\r|\s+$')], here
    [WHITESPACE_RE.sub('', s)].  [scan] is the search from a position
    after the first: a newline or carriage return is a match of its own;
    other whitespace matches [\s+$] only when whitespace alone follows up
    to the end. *)
Module WHITESPACE_RE.

Fixpoint scan (s : string) : string :=
  match s with
  | EmptyString => EmptyString
  | String c r =>
      if (ord c =? 10) || (ord c =? 13) then scan r
      else if isspace c && all_chars isspace r then EmptyString
      else String c (scan r)
  end.

Definition sub (s : string) : string :=
  match s with
  | String c _ =>
      if isspace c then scan (drop_while isspace s) else scan s
  | EmptyString => EmptyString
  end.

End WHITESPACE_RE.

Inductive pytype := T_str | T_int | T_float.

(** [isinstance(data, t)]; [bool] is a subclass of [int]. *)
Definition isinstance (data : Value) (t : pytype) : bool :=
  match t, data with
  | T_str, VStr _ => true
  | T_int, VInt _ => true
  | T_int, VBool _ => true
  | T_float, VFloat _ => true
  | _, _ => false
  end.

(** [a is b] where [b] is one of the singletons [True], [False],
    [None]. *)
Definition is_ (a b : Value) : bool :=
  match a, b with
  | VNone, VNone => true
  | VBool x, VBool y => Bool.eqb x y
  | _, _ => false
  end.

Definition TYPES_STATIC : list (Value * string) :=
  [(VBool true, "true"); (VBool false, "false"); (VNone, "undef")].

Definition TYPES_WRAP : list (pytype * string) :=
  [(T_str, "string"); (T_int, "integer"); (T_float, "real")].

(** [TYPES_STATIC[data]] for [data] one of the keys: [None] of the option
    when it is no key. *)
Definition TYPES_STATIC_get (data : Value) : option string :=
  option_map snd (find (fun p => is_ data (fst p)) TYPES_STATIC).

(** [TYPES_WRAP.get(next((t for t in TYPES_WRAP if isinstance(data, t)),
    None))]. *)
Definition TYPES_WRAP_get (data : Value) : option string :=
  option_map snd (find (fun p => isinstance data (fst p)) TYPES_WRAP).

(** The objects [PListBuilder.tag] is given as [data]: [None] (its
    default), a [str], an [int] or a [bool]. *)
Inductive TagData := DNone | DStr (s : string) | DInt (n : Z) | DBool (b : bool).

(** [str(data)]. *)
Definition py_str (data : TagData) : string :=
  match data with
  | DNone => "None"
  | DStr s => s
  | DInt n => str_int n
  | DBool true => "True"
  | DBool false => "False"
  end.

Definition key_data (key : option string) : TagData :=
  match key with
  | None => DNone
  | Some s => DStr s
  end.

(** [a < b] on keys: [None] is not ordered. *)
Definition key_lt (a b : option string) : result bool :=
  match a, b with
  | Some x, Some y => Ok (String.ltb x y)
  | _, _ => Raise (TypeError "'<' not supported between instances of 'NoneType' and 'str'")
  end.

Fixpoint insert_key (x : option string) (l : list (option string))
  : result (list (option string)) :=
  match l with
  | [] => Ok [x]
  | y :: r =>
      let? lt := key_lt x y in
      if lt then Ok (x :: y :: r)
      else let? r' := insert_key x r in Ok (y :: r')
  end.

(** [sorted(keys)]: keys are pairwise different, so the order of the
    result does not depend on the sorting algorithm. *)
Fixpoint sorted (l : list (option string)) : result (list (option string)) :=
  match l with
  | [] => Ok []
  | x :: r => let? r' := sorted r in insert_key x r'
  end.

Fixpoint bforeach {A} (l : list A) (body : A -> Build unit) : Build unit :=
  match l with
  | [] => bret tt
  | x :: r => body x ;; bforeach r body
  end.

Fixpoint lookup {A} (l : list (option string * A)) (key : option string)
  : option A :=
  match l with
  | [] => None
  | (k, v) :: r => if opt_str_eqb k key then Some v else lookup r key
  end.

(** [PListBuilder.tag(name, data=None)]. *)
Definition tag (name : option string) (data : TagData) : Build Element :=
  bstart name [] ;;
  let data := py_str data in
  (if truthy (Some data) then bdata data else bret tt) ;;
  bend name.

(** The second argument of [self.tag(typ, ...)]: [repr(data)] for a
    float ([typ == 'real']), else [data] itself. *)
Definition wrap_data (data : Value) : TagData :=
  match data with
  | VFloat x => DStr (float_repr x)
  | VStr s => DStr s
  | VInt n => DInt n
  | VBool b => DBool b
  | _ => DNone
  end.

(** [PListBuilder.serialize(data)]. *)
Fixpoint serialize (data : Value) : Build Element :=
  let typ := TYPES_WRAP_get data in
  if existsb (fun p => is_ data (fst p)) TYPES_STATIC then
    tag (TYPES_STATIC_get data) DNone
  else
    match typ with
    | Some typ => tag (Some typ) (wrap_data data)
    | None =>
        match data with
        | VDatetime d => tag (Some "date") (DStr (isoformat d))
        | VBytes b =>
            bstart (Some "data") [] ;;
            match _b64.encodeb2s b with
            | Ok s => tag None (DStr (WHITESPACE_RE.sub s))
            | Raise e => braise e
            end ;;
            bend (Some "data")
        | VDict ordered items =>
            let values :=
              (fix each (l : list (option string * Value)) :=
                 match l with
                 | [] => []
                 | (k, v) :: r => (k, serialize v) :: each r
                 end) items in
            let tags := map fst items in
            match (if ordered then Ok tags else sorted tags) with
            | Raise e => braise e
            | Ok tags =>
                bstart (Some "dict") [] ;;
                bforeach tags (fun key =>
                  match lookup values key with
                  | None => braise (KeyError "key")
                  | Some serialize_value =>
                      tag (Some "key") (key_data key) ;;
                      serialize_value ;;
                      bret tt
                  end) ;;
                bend (Some "dict")
            end
        | VList l =>
            bstart (Some "array") [] ;;
            (fix each (l : list Value) : Build unit :=
               match l with
               | [] => bret tt
               | element :: r => serialize element ;; each r
               end) l ;;
            bend (Some "array")
        | _ => braise (TypeError "Unknown type")
        end
    end.

(** [PListBuilder(data)]: the state of the builder after [__init__], and
    its [data_elem]. *)
Definition PListBuilder (data : Value) : result (Element * TreeBuilder.t) :=
  (bstart (Some "plist") [("version", "1.0")] ;;
   data_elem <- serialize data ;;
   bend (Some "plist") ;;
   bret data_elem) TreeBuilder.init.

(** The element [serialize(data)] returns inside [PListBuilder(data)]. *)
Definition data_elem (data : Value) : result Element :=
  let? r := PListBuilder data in Ok (fst r).

(** [totree(data)]. *)
Definition totree (data : Value) : result Element :=
  let? r := PListBuilder data in TreeBuilder.close (snd r).

(** [dumps(data)]: what [dump] writes. *)
Definition dumps (data : Value) : result string :=
  let? tree := totree data in Ok (PLISTHEADER ++ tree2xml tree 0 0).

(** ** The reference document of the tests *)

Module TestPlist.

(** [TestPlist.example], line by line. *)
Definition example : string :=
  join (map (fun line => line ++ NL) [
    "<?xml version=" ++ DQUOTE ++ "1.0" ++ DQUOTE ++ " encoding=" ++ DQUOTE
      ++ "UTF-8" ++ DQUOTE ++ "?>";
    "<!DOCTYPE plist PUBLIC " ++ DQUOTE
      ++ "-//Apple Computer//DTD PLIST 1.0//EN" ++ DQUOTE;
    TAB ++ DQUOTE ++ "http://www.apple.com/DTDs/PropertyList-1.0.dtd"
      ++ DQUOTE ++ ">";
    "<plist version=" ++ DQUOTE ++ "1.0" ++ DQUOTE ++ ">";
    "<dict>";
    TAB ++ "<key>Year Of Birth</key>";
    TAB ++ "<integer>1965</integer>";
    TAB ++ "<key>Pets Names</key>";
    TAB ++ "<array/>";
    TAB ++ "<key>Picture</key>";
    TAB ++ "<data>";
    TAB ++ TAB ++ "PEKBpYGlmYFCPA==";
    TAB ++ "</data>";
    TAB ++ "<key>City of Birth</key>";
    TAB ++ "<string>Springfield</string>";
    TAB ++ "<key>Name</key>";
    TAB ++ "<string>John Doe</string>";
    TAB ++ "<key>Kids Names</key>";
    TAB ++ "<array>";
    TAB ++ TAB ++ "<string>John</string>";
    TAB ++ TAB ++ "<string>Kyra</string>";
    TAB ++ "</array>";
    "</dict>";
    "</plist>"
  ]).

(** [TestPlist.converted]. *)
Definition converted : Value :=
  OrderedDict [
    (Some "Year Of Birth", VInt 1965);
    (Some "Pets Names", VList []);
    (Some "Picture",
     VBytes [x3c; x42; x81; xa5; x81; xa5; x99; x81; x42; x3c]);
    (Some "City of Birth", VStr "Springfield");
    (Some "Name", VStr "John Doe");
    (Some "Kids Names", VList [VStr "John"; VStr "Kyra"])
  ].

End TestPlist.

(** ** The date parser *)

Module iso8601.

(** [[0-9]{n}] at the front of [s]: the digits and the rest. *)
Fixpoint digits_exact (n : nat) (s : string) : option (string * string) :=
  match n with
  | O => Some (EmptyString, s)
  | S n' =>
      match s with
      | String c r =>
          if isdigit c then
            match digits_exact n' r with
            | Some (ds, rest) => Some (String c ds, rest)
            | None => None
            end
          else None
      | EmptyString => None
      end
  end.

(** [[0-9]{1,2}], greedy. *)
Definition digits_1_2 (s : string) : option (string * string) :=
  match digits_exact 2 s with
  | Some p => Some p
  | None => digits_exact 1 s
  end.

(** [[0-9]+], greedy. *)
Definition digits_plus (s : string) : option (string * string) :=
  match take_while isdigit s with
  | EmptyString => None
  | ds => Some (ds, drop_while isdigit s)
  end.

(** One given character. *)
Definition lit (c : Z) (s : string) : option string :=
  match s with
  | String a r => if ord a =? c then Some r else None
  | EmptyString => None
  end.

(** [.]: any character but a newline. *)
Definition any_char (s : string) : option (ascii * string) :=
  match s with
  | String a r => if ord a =? 10 then None else Some (a, r)
  | EmptyString => None
  end.

(** [[-+]]. *)
Definition sign_char (s : string) : option (ascii * string) :=
  match s with
  | String a r =>
      if (ord a =? 45) || (ord a =? 43) then Some (a, r) else None
  | EmptyString => None
  end.

(** The named groups of a match of [ISO8601_REGEX]; [None] for a group
    that took no part in the match. *)
Record groupdict : Type := mkgroups {
  g_year : option string;
  g_month : option string;
  g_day : option string;
  g_separator : option string;
  g_hour : option string;
  g_minute : option string;
  g_second : option string;
  g_fraction : option string;
  g_timezone : option string
}.

(** [(?P<timezone>Z|(([-+])([0-9]{2}):([0-9]{2})))?] *)
Definition match_timezone (s : string) : option string :=
  match lit 90 s with
  | Some _ => Some "Z"
  | None =>
      match sign_char s with
      | Some (sg, r1) =>
          match digits_exact 2 r1 with
          | Some (hh, r2) =>
              match lit 58 r2 with
              | Some r3 =>
                  match digits_exact 2 r3 with
                  | Some (mm, _) => Some (String sg (hh ++ ":" ++ mm))
                  | None => None
                  end
              | None => None
              end
          | None => None
          end
      | None => None
      end
  end.

(** [(:(?P<second>[0-9]{2})(\.(?P<fraction>[0-9]+))?)?]: second,
    fraction and the rest of the input. *)
Definition match_second (s : string)
  : option string * option string * string :=
  match lit 58 s with
  | Some r1 =>
      match digits_exact 2 r1 with
      | Some (ss, r2) =>
          match lit 46 r2 with
          | Some r3 =>
              match digits_plus r3 with
              | Some (f, r4) => (Some ss, Some f, r4)
              | None => (Some ss, None, r2)
              end
          | None => (Some ss, None, r2)
          end
      | None => (None, None, s)
      end
  | None => (None, None, s)
  end.

(** The optional group that starts at the separator: separator, hour,
    minute, second, fraction, timezone. *)
Definition match_time (s : string)
  : option (string * string * string * option string * option string
            * option string) :=
  match any_char s with
  | Some (sep, r1) =>
      match digits_exact 2 r1 with
      | Some (hh, r2) =>
          match lit 58 r2 with
          | Some r3 =>
              match digits_exact 2 r3 with
              | Some (mi, r4) =>
                  let '(ss, f, r5) := match_second r4 in
                  Some (str1 sep, hh, mi, ss, f, match_timezone r5)
              | None => None
              end
          | None => None
          end
      | None => None
      end
  | None => None
  end.

(** [ISO8601_REGEX.match(datestring)]: the match is anchored at the
    start only; every optional group is greedy and nothing after it is
    mandatory, so no group is ever given up once matched. *)
Definition ISO8601_REGEX_match (datestring : string) : option groupdict :=
  match digits_exact 4 datestring with
  | None => None
  | Some (y, r0) =>
      let only_year := mkgroups (Some y) None None None None None None None None in
      match lit 45 r0 with
      | None => Some only_year
      | Some r1 =>
          match digits_1_2 r1 with
          | None => Some only_year
          | Some (mo, r2) =>
              let to_month :=
                mkgroups (Some y) (Some mo) None None None None None None None in
              match lit 45 r2 with
              | None => Some to_month
              | Some r3 =>
                  match digits_1_2 r3 with
                  | None => Some to_month
                  | Some (d, r4) =>
                      match match_time r4 with
                      | None =>
                          Some (mkgroups (Some y) (Some mo) (Some d)
                                  None None None None None None)
                      | Some (sep, hh, mi, ss, f, z) =>
                          Some (mkgroups (Some y) (Some mo) (Some d)
                                  (Some sep) (Some hh) (Some mi) ss f z)
                      end
                  end
              end
          end
      end
  end.

(** [TIMEZONE_REGEX.match(tzstring).groups()]: prefix, hours, minutes. *)
Definition TIMEZONE_REGEX_match (tzstring : string)
  : option (ascii * string * string) :=
  match sign_char tzstring with
  | Some (prefix, r1) =>
      match digits_exact 2 r1 with
      | Some (hours, r2) =>
          match any_char r2 with
          | Some (_, r3) =>
              match digits_exact 2 r3 with
              | Some (minutes, _) => Some (prefix, hours, minutes)
              | None => None
              end
          | None => None
          end
      | None => None
      end
  | None => None
  end.

(** [parse_timezone(tzstring, default_timezone)]. *)
Definition parse_timezone (tzstring : option string)
    (default_timezone : tzinfo) : result tzinfo :=
  match tzstring with
  | None => Ok default_timezone
  | Some tzstring =>
      if String.eqb tzstring "Z" then Ok default_timezone
      else
        match TIMEZONE_REGEX_match tzstring with
        | None =>
            Raise (AttributeError "'NoneType' object has no attribute 'groups'")
        | Some (prefix, hours, minutes) =>
            let? hours := py_int (Some hours) in
            let? minutes := py_int (Some minutes) in
            let '(hours, minutes) :=
              if ord prefix =? 45 then (- hours, - minutes)
              else (hours, minutes) in
            timezone (timedelta hours minutes)
        end
  end.

(** [int(float("0.%s" % fraction) * 1e6)]. *)
Definition fraction_micros (fraction : string) : result Z :=
  let? x := py_float (Some ("0." ++ fraction)) in
  int_of_float (float_mul x float_1e6).

(** [parse_date(datestring)], with the default [default_timezone]. *)
Definition parse_date (datestring : option string) : result datetime :=
  match datestring with
  | None => Raise (ParseError "Expecting a string")
  | Some datestring =>
      match ISO8601_REGEX_match datestring with
      | None => Raise (ParseError "Unable to parse date string")
      | Some groups =>
          let? tz := parse_timezone (g_timezone groups) timezone_utc in
          let? fraction :=
            match g_fraction groups with
            | None => Ok 0
            | Some f => fraction_micros f
            end in
          let? y := py_int (g_year groups) in
          let? mo := py_int (g_month groups) in
          let? d := py_int (g_day groups) in
          let? h := py_int (g_hour groups) in
          let? mi := py_int (g_minute groups) in
          let? s := py_int (g_second groups) in
          datetime_new y mo d h mi s fraction (Some tz)
      end
  end.

End iso8601.

(** ** Deserialization *)

(** A [str] or [None] as the argument of [str()]. *)
Definition text_data (x : option string) : TagData := key_data x.

Definition TAGS_STATIC : list (string * Value) :=
  [("true", VBool true); ("false", VBool false); ("undef", VNone)].

Definition TAGS_TEXT : list (string * (option string -> result Value)) :=
  [("integer", fun x => let? n := py_int x in Ok (VInt n));
   ("real", fun x => let? f := py_float x in Ok (VFloat f));
   ("date", fun x => let? d := iso8601.parse_date x in Ok (VDatetime d));
   ("data", fun x => let? b := _b64.decodes2b x in Ok (VBytes b));
   ("string", fun x => Ok (VStr (py_str (text_data x))))].

(** [tags[tag]] when [tag in tags]. *)
Definition tag_get {A} (tags : list (string * A)) (tag : option string)
  : option A :=
  match tag with
  | None => None
  | Some tag =>
      option_map snd (find (fun p => String.eqb (fst p) tag) tags)
  end.

(** [deserialize(element)]. *)
Fixpoint deserialize (element : Element) : result Value :=
  let 'Elem tag _ text children := element in
  match tag_get TAGS_STATIC tag with
  | Some v => Ok v
  | None =>
      match tag_get TAGS_TEXT tag with
      | Some convert => convert text
      | None =>
          if opt_str_eqb tag (Some "array") then
            let? l :=
              (fix each (l : list Element) : result (list Value) :=
                 match l with
                 | [] => Ok []
                 | child :: r =>
                     let? v := deserialize child in
                     let? vs := each r in
                     Ok (v :: vs)
                 end) children in
            Ok (VList l)
          else if opt_str_eqb tag (Some "dict") then
            if negb (Nat.eqb (Nat.modulo (List.length children) 2) 0) then
              Raise (IndexError "Incomplete dictionary")
            else
              let? data :=
                (fix pairs (c : list Element)
                     (data : list (option string * Value))
                   : result (list (option string * Value)) :=
                   match c with
                   | key :: value :: r =>
                       if negb (opt_str_eqb (tag_of key) (Some "key")) then
                         Raise (ValueError "No dictionary key where expected")
                       else
                         let? v := deserialize value in
                         pairs r (setitem data (text_of key) v)
                   | _ => Ok data
                   end) children [] in
              Ok (OrderedDict data)
          else Raise (ValueError "Unknown tag")
      end
  end.

(** The two loops of [deserialize], by name: over the children of an
    [array], and over the children of a [dict] two at a time. *)
Fixpoint read_children (l : list Element) : result (list Value) :=
  match l with
  | [] => Ok []
  | child :: r =>
      let? v := deserialize child in
      let? vs := read_children r in
      Ok (v :: vs)
  end.

Fixpoint read_pairs (c : list Element) (data : list (option string * Value))
  : result (list (option string * Value)) :=
  match c with
  | key :: value :: r =>
      if negb (opt_str_eqb (tag_of key) (Some "key")) then
        Raise (ValueError "No dictionary key where expected")
      else
        let? v := deserialize value in
        read_pairs r (setitem data (text_of key) v)
  | _ => Ok data
  end.

(** [fromtree(tree)] for [tree] an element. *)
Definition fromtree (tree : Element) : result Value :=
  if negb (opt_str_eqb (tag_of tree) (Some "plist"))
     || negb (Nat.eqb (List.length (children_of tree)) 1)
  then Raise (ValueError "Bad property list")
  else
    match children_of tree with
    | child :: _ => deserialize child
    | [] => Raise (IndexError "child index out of range")
    end.

Module ParsedExample.

(** The element tree the XML parser hands to [fromtree] for
    [TestPlist.example]: the text of a container is the whitespace up to
    its first child. *)
Definition leaf (tag text : string) : Element :=
  Elem (Some tag) [] (Some text) [].

Definition tree : Element :=
  Elem (Some "plist") [("version", "1.0")] (Some NL) [
    Elem (Some "dict") [] (Some (NL ++ TAB)) [
      leaf "key" "Year Of Birth";
      leaf "integer" "1965";
      leaf "key" "Pets Names";
      Elem (Some "array") [] None [];
      leaf "key" "Picture";
      leaf "data" (NL ++ TAB ++ TAB ++ "PEKBpYGlmYFCPA==" ++ NL ++ TAB);
      leaf "key" "City of Birth";
      leaf "string" "Springfield";
      leaf "key" "Name";
      leaf "string" "John Doe";
      leaf "key" "Kids Names";
      Elem (Some "array") [] (Some (NL ++ TAB ++ TAB)) [
        leaf "string" "John";
        leaf "string" "Kyra"
      ]
    ]
  ].

End ParsedExample.

(** ** Reading a document

    [xml.etree.ElementTree.fromstring] belongs to the host.  It is embedded
    here for the XML that property lists are written in: an optional XML
    declaration and document type declaration (without internal subset),
    then one element; elements with attributes, character data and child
    elements.  References ([&...;]), comments, CDATA sections and
    processing instructions inside or after the root are not embedded: on
    them, as on malformed input, the embedding raises [ParseError]. *)
Module etree.

Definition is_xml_space (c : ascii) : bool :=
  let n := ord c in (n =? 32) || (n =? 9) || (n =? 10) || (n =? 13).

(** A character that may not occur in a document. *)
Definition is_forbidden (c : ascii) : bool :=
  let n := ord c in (n <? 32) && negb (is_xml_space c).

Definition is_name_char (c : ascii) : bool :=
  let n := ord c in
  ((97 <=? n) && (n <=? 122)) || ((65 <=? n) && (n <=? 90))
  || ((48 <=? n) && (n <=? 57)) || (n =? 95) || (n =? 45) || (n =? 46)
  || (n =? 58) || (192 <=? n) && negb (n =? 215) && negb (n =? 247).

Definition is_name_start (c : ascii) : bool :=
  let n := ord c in
  is_name_char c && negb (((48 <=? n) && (n <=? 57)) || (n =? 45) || (n =? 46)).

(** Line ends are handed on as a single newline. *)
Fixpoint normalize_newlines (s : string) : string :=
  match s with
  | EmptyString => EmptyString
  | String c r =>
      if ord c =? 13 then
        match r with
        | String c' r' =>
            if ord c' =? 10 then String c' (normalize_newlines r')
            else String (chr 10) (normalize_newlines r)
        | EmptyString => NL
        end
      else String c (normalize_newlines r)
  end.

(** In an attribute value every whitespace character becomes a space. *)
Fixpoint normalize_attribute (s : string) : string :=
  match s with
  | EmptyString => EmptyString
  | String c r =>
      String (if is_xml_space c then chr 32 else c) (normalize_attribute r)
  end.

Fixpoint has_char (p : ascii -> bool) (s : string) : bool :=
  match s with
  | EmptyString => false
  | String c r => p c || has_char p r
  end.

Definition negp (p : ascii -> bool) (c : ascii) : bool := negb (p c).

(** The text after the first occurrence of [stop], if any. *)
Fixpoint after (stop : string) (s : string) : option string :=
  if prefix stop s then Some (substring (String.length stop)
                                (String.length s - String.length stop) s)
  else
    match s with
    | EmptyString => None
    | String _ r => after stop r
    end.

(** Character data up to the next [<]: its text, and the rest. *)
Definition char_data (s : string) : result (string * string) :=
  let x := take_while (negp (fun c => ord c =? 60)) s in
  if has_char (fun c => (ord c =? 38) || is_forbidden c) x
     || (match after "]]>" x with Some _ => true | None => false end)
  then Raise (ParseError "not well-formed (invalid token)")
  else Ok (normalize_newlines x, drop_while (negp (fun c => ord c =? 60)) s).

Definition parse_name (s : string) : result (string * string) :=
  match s with
  | String c _ =>
      if is_name_start c then
        Ok (take_while is_name_char s, drop_while is_name_char s)
      else Raise (ParseError "not well-formed (invalid token)")
  | EmptyString => Raise (ParseError "unclosed token")
  end.

(** The attributes of a start tag, up to its [>] or [/>]. *)
Fixpoint parse_attributes (fuel : nat) (s : string)
  : result (list (string * string) * string) :=
  match fuel with
  | O => Raise (ParseError "unclosed token")
  | S fuel' =>
      let s' := drop_while is_xml_space s in
      match s' with
      | EmptyString => Raise (ParseError "unclosed token")
      | String c _ =>
          if (ord c =? 62) || (ord c =? 47) then Ok ([], s')
          else if Nat.eqb (String.length s') (String.length s) then
            Raise (ParseError "not well-formed (invalid token)")
          else
            let? (name, r1) := parse_name s' in
            match drop_while is_xml_space r1 with
            | String e r2 =>
                if ord e =? 61 then
                  match drop_while is_xml_space r2 with
                  | String q r3 =>
                      if (ord q =? 34) || (ord q =? 39) then
                        let stop := fun c => ord c =? ord q in
                        let v := take_while (negp stop) r3 in
                        match drop_while (negp stop) r3 with
                        | String _ r4 =>
                            if has_char (fun c => (ord c =? 38)
                                                  || (ord c =? 60)
                                                  || is_forbidden c) v
                            then Raise (ParseError "not well-formed (invalid token)")
                            else
                              let? (rest, r5) := parse_attributes fuel' r4 in
                              if existsb (fun kv => String.eqb (fst kv) name)
                                         rest
                              then Raise (ParseError "duplicate attribute")
                              else Ok ((name,
                                        normalize_attribute
                                          (normalize_newlines v)) :: rest,
                                       r5)
                        | EmptyString => Raise (ParseError "unclosed token")
                        end
                      else Raise (ParseError "not well-formed (invalid token)")
                  | EmptyString => Raise (ParseError "unclosed token")
                  end
                else Raise (ParseError "not well-formed (invalid token)")
            | EmptyString => Raise (ParseError "unclosed token")
            end
      end
  end.

(** An element, from the character after its [<]: the element and the
    rest of the input. *)
Fixpoint parse_element (fuel : nat) (s : string) : result (Element * string) :=
  match fuel with
  | O => Raise (ParseError "no element found")
  | S fuel' =>
      let? (name, r1) := parse_name s in
      let? (attrib, r2) := parse_attributes fuel' r1 in
      match r2 with
      | String c r3 =>
          if ord c =? 47 then
            match r3 with
            | String c' r4 =>
                if ord c' =? 62 then Ok (Elem (Some name) attrib None [], r4)
                else Raise (ParseError "not well-formed (invalid token)")
            | EmptyString => Raise (ParseError "unclosed token")
            end
          else
            let? (text, r4) := char_data r3 in
            let? (children, r5) :=
              (fix siblings (g : nat) (s : string)
                 : result (list Element * string) :=
                 match g with
                 | O => Raise (ParseError "no element found")
                 | S g' =>
                     match s with
                     | String _ (String c1 r) =>
                         if ord c1 =? 47 then
                           let? (close, r') := parse_name r in
                           if String.eqb close name then
                             match drop_while is_xml_space r' with
                             | String c2 r'' =>
                                 if ord c2 =? 62 then Ok ([], r'')
                                 else Raise (ParseError "not well-formed (invalid token)")
                             | EmptyString =>
                                 Raise (ParseError "unclosed token")
                             end
                           else Raise (ParseError "mismatched tag")
                         else
                           let? (e, r') := parse_element fuel' (String c1 r) in
                           let? (_, r'') := char_data r' in
                           let? (es, rest) := siblings g' r'' in
                           Ok (e :: es, rest)
                     | _ => Raise (ParseError "no element found")
                     end
                 end) fuel' r4 in
            Ok (Elem (Some name) attrib
                  (match text with
                   | EmptyString => None
                   | _ => Some text
                   end) children, r5)
      | EmptyString => Raise (ParseError "unclosed token")
      end
  end.

(** What comes before the root element. *)
Definition skip_prolog (s : string) : result string :=
  let? s1 :=
    (if prefix "<?xml" s then
       match after "?>" s with
       | Some r => Ok r
       | None => Raise (ParseError "unclosed token")
       end
     else Ok s) in
  let s2 := drop_while is_xml_space s1 in
  if prefix "<!DOCTYPE" s2 then
    let decl := take_while (negp (fun c => ord c =? 62)) s2 in
    if has_char (fun c => ord c =? 91) decl then
      Raise (ParseError "internal subset")
    else
      match drop_while (negp (fun c => ord c =? 62)) s2 with
      | String _ r => Ok (drop_while is_xml_space r)
      | EmptyString => Raise (ParseError "unclosed token")
      end
  else Ok s2.

(** [etree.fromstring(text)]: the root element. *)
Definition fromstring (text : string) : result Element :=
  let? s := skip_prolog text in
  match s with
  | String c r =>
      if ord c =? 60 then
        let? (root, rest) := parse_element (String.length s) r in
        match drop_while is_xml_space rest with
        | EmptyString => Ok root
        | _ => Raise (ParseError "junk after document element")
        end
      else Raise (ParseError "syntax error")
  | EmptyString => Raise (ParseError "no element found")
  end.

End etree.

(** [str.strip()]. *)
Definition str_strip (s : string) : string :=
  rstrip isspace (drop_while isspace s).

(** [loads(data)]. *)
Definition loads (data : string) : result Value :=
  let? tree := etree.fromstring (str_strip data) in fromtree tree.

(** ** The tree a value serializes to

    [serialize] works on the builder; the element it returns depends on the
    value alone.  [element_of] computes that element without a builder, and
    [serialize_returns] below proves that [serialize] returns it and hangs
    it into the open element. *)

(** What [tag(name, data)] builds once [str(data)] is [s]. *)
Definition leaf_element (name : option string) (s : string) : Element :=
  Elem name [] (if truthy (Some s) then Some s else None) [].

(** The children of a [dict] element for the keys [tags]. *)
Fixpoint dict_children (values : list (option string * result Element))
    (tags : list (option string)) : result (list Element) :=
  match tags with
  | [] => Ok []
  | key :: r =>
      match lookup values key with
      | None => Raise (KeyError "key")
      | Some value =>
          let? e := value in
          let? rest := dict_children values r in
          Ok (leaf_element (Some "key") (py_str (key_data key)) :: e :: rest)
      end
  end.

Fixpoint element_of (data : Value) : result Element :=
  if existsb (fun p => is_ data (fst p)) TYPES_STATIC then
    Ok (leaf_element (TYPES_STATIC_get data) (py_str DNone))
  else
    match TYPES_WRAP_get data with
    | Some typ => Ok (leaf_element (Some typ) (py_str (wrap_data data)))
    | None =>
        match data with
        | VDatetime d => Ok (leaf_element (Some "date") (isoformat d))
        | VBytes b =>
            let? s := _b64.encodeb2s b in
            Ok (Elem (Some "data") [] None
                  [leaf_element None (WHITESPACE_RE.sub s)])
        | VDict ordered items =>
            let values :=
              (fix each (l : list (option string * Value)) :=
                 match l with
                 | [] => []
                 | (k, v) :: r => (k, element_of v) :: each r
                 end) items in
            let? tags :=
              (if ordered then Ok (map fst items)
               else sorted (map fst items)) in
            let? cs := dict_children values tags in
            Ok (Elem (Some "dict") [] None cs)
        | VList l =>
            let? cs :=
              (fix each (l : list Value) : result (list Element) :=
                 match l with
                 | [] => Ok []
                 | element :: r =>
                     let? e := element_of element in
                     let? es := each r in
                     Ok (e :: es)
                 end) l in
            Ok (Elem (Some "array") [] None cs)
        | _ => Raise (TypeError "Unknown type")
        end
    end.

(** The elements of the items of a list, by name. *)
Fixpoint elements_of (l : list Value) : result (list Element) :=
  match l with
  | [] => Ok []
  | element :: r =>
      let? e := element_of element in
      let? es := elements_of r in
      Ok (e :: es)
  end.

(** The builder with [e] hung into its innermost open element [parent]. *)
Definition attached (e parent : Element) (rest : list Element)
    (root : option Element) : TreeBuilder.t :=
  TreeBuilder.mk [] (append_child e parent :: rest) TreeBuilder.LastEnded root.

(** A builder ready for the next child: no pending text, [parent] open. *)
Definition ready (b : TreeBuilder.t) (parent : Element)
    (rest : list Element) : Prop :=
  TreeBuilder._data b = [] /\ TreeBuilder._elem b = parent :: rest.

(** ** Vocabulary of the properties *)

(** A character of the base64 alphabet, and the padding character. *)
Definition is_b64_data (c : ascii) : bool :=
  binascii.table_a2b_base64 (byte_of_ascii c) <? 64.

Definition is_b64_pad (c : ascii) : bool := ord c =? 61.

Definition is_b64 (c : ascii) : bool := is_b64_data c || is_b64_pad c.

Fixpoint str_filter (p : ascii -> bool) (s : string) : string :=
  match s with
  | EmptyString => EmptyString
  | String c r => if p c then String c (str_filter p r) else str_filter p r
  end.

(** A byte the decoder does not skip: alphabet or padding. *)
Definition keep_byte (x : byte) : bool :=
  (binascii.table_a2b_base64 x <? 64) || Byte.eqb x binascii.BASE64_PAD.

(** The padding rule: [r] data characters beyond the last full quad need
    no padding when [r = 0], two pads when [r = 2], one when [r = 3], and
    cannot be completed when [r = 1]. *)
Definition padding_suffices (n : nat) (k : nat) : bool :=
  let r := Z.of_nat n mod 4 in
  (r =? 0) || ((r =? 2) && (2 <=? Z.of_nat k))
  || ((r =? 3) && (1 <=? Z.of_nat k)).

(** The children of a [dict] element made of the given key and value
    elements. *)
Fixpoint key_value_children (pairs : list (Element * Element))
  : list Element :=
  match pairs with
  | [] => []
  | (k, v) :: r => k :: v :: key_value_children r
  end.

(** What the claims call the errors of a dictionary. *)
Definition IncompleteDictionaryError : PyExc :=
  IndexError "Incomplete dictionary".
Definition MissingKeyTagError : PyExc :=
  ValueError "No dictionary key where expected".

(** Lexicographic order of keys, by code point. *)
Definition key_le (a b : string) : Prop := String.leb a b = true.

(** The children of a [dict] element for the given keys and serialized
    values: each key element is followed by its value. *)
Definition key_value_elements (entries : list (string * Element))
  : list Element :=
  flat_map (fun ke => [leaf_element (Some "key") (fst ke); snd ke]) entries.

(** A mapping with [str] keys. *)
Definition str_items (items : list (string * Value))
  : list (option string * Value) :=
  map (fun kv => (Some (fst kv), snd kv)) items.

(** The state in which the children [cs] have been hung into the open
    element [Elem name attrib text acc]. *)
Definition grown (b b' : TreeBuilder.t) (name : option string)
    (attrib : list (string * string)) (text : option string)
    (acc cs : list Element) (outer : list Element) : Prop :=
  TreeBuilder._data b' = []
  /\ TreeBuilder._elem b' = Elem name attrib text (acc ++ cs) :: outer
  /\ TreeBuilder._root b' = TreeBuilder._root b.

(** ** Induction on values *)

Section ValueInduction.

Variable P : Value -> Prop.
Hypothesis HNone : P VNone.
Hypothesis HBool : forall b, P (VBool b).
Hypothesis HInt : forall n, P (VInt n).
Hypothesis HFloat : forall x, P (VFloat x).
Hypothesis HStr : forall s, P (VStr s).
Hypothesis HBytes : forall b, P (VBytes b).
Hypothesis HDatetime : forall d, P (VDatetime d).
Hypothesis HList : forall l, Forall P l -> P (VList l).
Hypothesis HDict :
  forall ordered items, Forall (fun kv => P (snd kv)) items ->
                        P (VDict ordered items).
Hypothesis HObject : P VObject.

Fixpoint Value_nested_ind (v : Value) : P v :=
  match v with
  | VNone => HNone
  | VBool b => HBool b
  | VInt n => HInt n
  | VFloat x => HFloat x
  | VStr s => HStr s
  | VBytes b => HBytes b
  | VDatetime d => HDatetime d
  | VList l =>
      HList l
        ((fix all (l : list Value) : Forall P l :=
            match l with
            | [] => Forall_nil P
            | x :: r => Forall_cons x (Value_nested_ind x) (all r)
            end) l)
  | VDict ordered items =>
      HDict ordered items
        ((fix all (l : list (option string * Value))
            : Forall (fun kv => P (snd kv)) l :=
            match l with
            | [] => Forall_nil _
            | kv :: r =>
                Forall_cons kv (Value_nested_ind (snd kv)) (all r)
            end) items)
  | VObject => HObject
  end.

End ValueInduction.

(** ** Values that survive the round trip *)

(** [P] at [n], [n + 1], ... for [fuel] numbers. *)
Fixpoint check_from (fuel : nat) (n : Z) (P : Z -> bool) : bool :=
  match fuel with
  | O => true
  | S fuel' => P n && check_from fuel' (n + 1) P
  end.

(** A [datetime] as the constructor accepts it. *)
Definition valid_datetime (d : datetime) : Prop :=
  1 <= year d <= 9999 /\ 1 <= month d <= 12
  /\ 1 <= day d <= days_in_month (year d) (month d)
  /\ 0 <= hour d <= 23 /\ 0 <= minute d <= 59 /\ 0 <= second d <= 59
  /\ 0 <= microsecond d <= 999999.

(** A date the codec gives back: valid, aware, with an offset of whole
    minutes, and with microseconds that the float conversion of the
    parser reproduces (none, or six digits on which it is exact). *)
Definition stable_datetime (d : datetime) : Prop :=
  valid_datetime d
  /\ (exists z, tz d = Some z
                /\ utcoffset z mod timedelta 0 1 = 0
                /\ - timedelta 24 0 < utcoffset z < timedelta 24 0)
  /\ (microsecond d = 0
      \/ iso8601.fraction_micros (zfill 6 (microsecond d))
         = Ok (microsecond d)).

(** A float the codec gives back: not NaN (which equals nothing, itself
    included), and read back from its [repr], as every double is. *)
Definition stable_float (x : float) : Prop :=
  x <> S754_nan /\ py_float (Some (float_repr x)) = Ok x.

(** The values for which the round trip holds: no [bytes], no empty
    string, floats and dates as above, lists of such values, and
    [OrderedDict]s of such values under pairwise different, non-empty
    [str] keys. *)
Fixpoint stable (v : Value) : Prop :=
  match v with
  | VNone => True
  | VBool _ => True
  | VInt _ => True
  | VFloat x => stable_float x
  | VStr s => s <> EmptyString
  | VBytes _ => False
  | VDatetime d => stable_datetime d
  | VList l =>
      (fix all (l : list Value) : Prop :=
         match l with
         | [] => True
         | x :: r => stable x /\ all r
         end) l
  | VDict ordered items =>
      ordered = true /\ NoDup (map fst items)
      /\ (fix all (l : list (option string * Value)) : Prop :=
            match l with
            | [] => True
            | (k, x) :: r =>
                (exists s, k = Some s /\ s <> EmptyString)
                /\ stable x /\ all r
            end) items
  | VObject => False
  end.


(** ** The decoder, one character at a time *)

(** What the decoding loop does with an alphabet character of value
    [this_ch] at position [quad_pos] of a quad: the next position, the bits
    carried over, and the byte that is complete, if any. *)
Definition a2b_data (quad_pos leftchar this_ch : Z) : Z * Z * option byte :=
  if quad_pos =? 0 then (1, this_ch, None)
  else if quad_pos =? 1 then
    (2, Z.land this_ch 15,
     Some (byte_of_Z (Z.lor (Z.shiftl leftchar 2) (Z.shiftr this_ch 4))))
  else if quad_pos =? 2 then
    (3, Z.land this_ch 3,
     Some (byte_of_Z (Z.lor (Z.shiftl leftchar 4) (Z.shiftr this_ch 2))))
  else (0, 0, Some (byte_of_Z (Z.lor (Z.shiftl leftchar 6) this_ch))).

(** An alphabet character, as a byte. *)
Definition good_char (c : byte) : bool :=
  (binascii.table_a2b_base64 c <? 64) && negb (Byte.eqb c binascii.BASE64_PAD).

Definition same_step (a b : Z * Z * option byte) : bool :=
  let '(q, l, o) := a in
  let '(q', l', o') := b in
  (q =? q') && (l =? l')
  && match o, o' with
     | None, None => true
     | Some x, Some y => Byte.eqb x y
     | _, _ => false
     end.

(** The encoder on the first byte [x] of a group of three, and the decoder
    on the character it emits. *)
Definition check_first (x : Z) : bool :=
  match binascii.b2a_step 0 0 (byte_of_Z x) with
  | ([c], lc, lb) =>
      good_char c && (lc =? Z.land x 3) && (lb =? 2)
      && same_step (a2b_data 0 0 (binascii.table_a2b_base64 c))
                   (1, Z.shiftr x 2, None)
  | _ => false
  end.

(** The encoder on the second byte [y] after [p], and the decoder on the
    character it emits: [p] is complete. *)
Definition check_second (p y : Z) : bool :=
  match binascii.b2a_step (Z.land p 3) 2 (byte_of_Z y) with
  | ([c], lc, lb) =>
      good_char c && (lc =? Z.land y 15) && (lb =? 4)
      && same_step (a2b_data 1 (Z.shiftr p 2) (binascii.table_a2b_base64 c))
                   (2, Z.shiftr y 4, Some (byte_of_Z p))
  | _ => false
  end.

(** The encoder on the third byte [z] after [p], and the decoder on the
    two characters it emits: [p] and [z] are complete. *)
Definition check_third (p z : Z) : bool :=
  match binascii.b2a_step (Z.land p 15) 4 (byte_of_Z z) with
  | ([c1; c2], lc, lb) =>
      good_char c1 && good_char c2 && (lc =? 0) && (lb =? 0)
      && match a2b_data 2 (Z.shiftr p 4) (binascii.table_a2b_base64 c1) with
         | (q, l, Some b) =>
             (q =? 3) && Byte.eqb b (byte_of_Z p)
             && same_step (a2b_data 3 l (binascii.table_a2b_base64 c2))
                          (0, 0, Some (byte_of_Z z))
         | _ => false
         end
  | _ => false
  end.

(** The end of the input after one byte [p] of a group, and after two. *)
Definition check_end_1 (p : Z) : bool :=
  match binascii.b2a_loop (Z.land p 3) 2 [] with
  | [c; e1; e2] =>
      good_char c && Byte.eqb e1 binascii.BASE64_PAD
      && Byte.eqb e2 binascii.BASE64_PAD
      && match a2b_data 1 (Z.shiftr p 2) (binascii.table_a2b_base64 c) with
         | (q, _, Some b) => (q =? 2) && Byte.eqb b (byte_of_Z p)
         | _ => false
         end
  | _ => false
  end.

Definition check_end_2 (p : Z) : bool :=
  match binascii.b2a_loop (Z.land p 15) 4 [] with
  | [c; e1] =>
      good_char c && Byte.eqb e1 binascii.BASE64_PAD
      && match a2b_data 2 (Z.shiftr p 4) (binascii.table_a2b_base64 c) with
         | (q, _, Some b) => (q =? 3) && Byte.eqb b (byte_of_Z p)
         | _ => false
         end
  | _ => false
  end.

(** The result of decoding once [bytes] are complete after [k] bytes of
    the current group: at a group boundary decoding goes on with [tail],
    otherwise padding follows and ends it. *)
Definition decoded_then (k : nat) (bytes tail : list byte)
  : result (list byte) :=
  if Nat.eqb (k mod 3) 0 then
    let? out := binascii.a2b_loop 0 0 0 tail in Ok (bytes ++ out)%list
  else Ok bytes.

(** A byte below 128: one character of ASCII. *)
Definition is_ascii_byte (x : byte) : bool := byte_val x <? 128.

(** The characters of a base64 text as [encodebytes] lays it out: alphabet,
    padding, and the newline that ends a line. *)
Definition is_newline (c : ascii) : bool := ord c =? 10.

Definition is_b64_line_char (c : ascii) : bool := is_b64 c || is_newline c.

(** ** What the serializer accepts *)

Definition is_str_key (key : option string) : bool :=
  match key with Some _ => true | None => false end.

(** The values [serialize] converts: no object of a type it does not know,
    at any depth; a mapping that is no [OrderedDict] has its keys sorted,
    which takes [str] keys unless there is at most one key. *)
Fixpoint convertible (v : Value) : bool :=
  match v with
  | VObject => false
  | VList l => forallb convertible l
  | VDict ordered items =>
      (ordered || (List.length items <=? 1)%nat
       || forallb (fun kv => is_str_key (fst kv)) items)
      && forallb (fun kv => convertible (snd kv)) items
  | _ => true
  end.

Definition is_TypeError (x : PyExc) : bool :=
  match x with TypeError _ => true | _ => false end.

(** ** Induction on elements *)

Section ElementInduction.

Variable P : Element -> Prop.
Hypothesis HElem :
  forall tag attrib text children,
    Forall P children -> P (Elem tag attrib text children).

Fixpoint Element_nested_ind (e : Element) : P e :=
  match e with
  | Elem tag attrib text children =>
      HElem tag attrib text children
        ((fix all (l : list Element) : Forall P l :=
            match l with
            | [] => Forall_nil P
            | x :: r => Forall_cons x (Element_nested_ind x) (all r)
            end) children)
  end.

End ElementInduction.

(** ** What the deserializer returns and what it reads *)

(** The shape of an object [deserialize] returns: no object of an unknown
    type, and every mapping an [OrderedDict] with pairwise different
    keys. *)
Fixpoint well_formed (v : Value) : Prop :=
  match v with
  | VObject => False
  | VList l =>
      (fix all (l : list Value) : Prop :=
         match l with
         | [] => True
         | x :: r => well_formed x /\ all r
         end) l
  | VDict ordered items =>
      ordered = true /\ NoDup (map fst items)
      /\ (fix all (l : list (option string * Value)) : Prop :=
            match l with
            | [] => True
            | (_, x) :: r => well_formed x /\ all r
            end) items
  | _ => True
  end.

Definition is_container (tag : option string) : bool :=
  opt_str_eqb tag (Some "array") || opt_str_eqb tag (Some "dict").

(** The part of an element [deserialize] looks at: the tag; the children
    of an [array] or [dict]; the text of any other element. *)
Fixpoint read_part (e : Element) : Element :=
  let 'Elem tag _ text children := e in
  if is_container tag then Elem tag [] None (map read_part children)
  else Elem tag [] text [].

(** The keys of a [dict] element, as read from its key elements, with the
    values read from its value elements. *)
Definition read_entries (pairs : list (Element * Element))
    (vals : list Value) : list (option string * Value) :=
  combine (map (fun kv => text_of (fst kv)) pairs) vals.

(** ** Dates *)

(** [d.replace(tzinfo=z)]. *)
Definition with_tz (d : datetime) (z : option tzinfo) : datetime :=
  mkdatetime (year d) (month d) (day d) (hour d) (minute d) (second d)
             (microsecond d) z.

Definition is_ParseError (x : PyExc) : bool :=
  match x with ParseError _ => true | _ => false end.

(** The text of an offset: sign, two digits of hours, a separator, two
    digits of minutes. *)
Definition offset_text (neg : bool) (hh : Z) (sep : ascii) (mm : Z) : string :=
  (if neg then "-" else "+") ++ zfill 2 hh ++ String sep (zfill 2 mm).

(** Four digits at the front of a text. *)
Definition four_digits_first (s : string) : bool :=
  match s with
  | String a (String b (String c (String d _))) =>
      isdigit a && isdigit b && isdigit c && isdigit d
  | _ => false
  end.

Definition raises_ParseError {A} (r : result A) : bool :=
  match r with
  | Raise e => is_ParseError e
  | Ok _ => false
  end.

(** ** Whitespace *)

Definition is_line_break (c : ascii) : bool := (ord c =? 10) || (ord c =? 13).

Definition not_line_break (c : ascii) : bool := negb (is_line_break c).

Definition not_space (c : ascii) : bool := negb (isspace c).

(** ** Text that survives writing and reading *)

(** The loop of [parse_element] over the elements that follow the text of
    an element, up to its end tag, by name. *)
Definition siblings (fuel' : nat) (name : string)
  : nat -> string -> result (list Element * string) :=
  fix siblings (g : nat) (s : string) : result (list Element * string) :=
    match g with
    | O => Raise (ParseError "no element found")
    | S g' =>
        match s with
        | String _ (String c1 r) =>
            if ord c1 =? 47 then
              let? (close, r') := etree.parse_name r in
              if String.eqb close name then
                match drop_while etree.is_xml_space r' with
                | String c2 r'' =>
                    if ord c2 =? 62 then Ok ([], r'')
                    else Raise (ParseError "not well-formed (invalid token)")
                | EmptyString => Raise (ParseError "unclosed token")
                end
              else Raise (ParseError "mismatched tag")
            else
              let? (e, r') := etree.parse_element fuel' (String c1 r) in
              let? (_, r'') := etree.char_data r' in
              let? (es, rest) := siblings g' r'' in
              Ok (e :: es, rest)
        | _ => Raise (ParseError "no element found")
        end
    end.





















(** ** Plain dictionaries in text *)








(** * Properties *)

(** ** Sample runs of the host functions *)

Example b64_encode_example :
  _b64.encodeb2s [x3c; x42; x81; xa5; x81; xa5; x99; x81; x42; x3c]
  = Ok ("PEKBpYGlmYFCPA==" ++ NL).
Proof. vm_compute. reflexivity. Qed.

Example b64_decode_example :
  _b64.decodes2b (Some (NL ++ TAB ++ "PEKBpYGlmYFCPA==" ++ NL ++ TAB))
  = Ok [x3c; x42; x81; xa5; x81; xa5; x99; x81; x42; x3c].
Proof. vm_compute. reflexivity. Qed.

Example float_repr_examples :
  map (fun s => float_repr (float_lit s))
    ["1.0"; "0.1"; "1e22"; "1.5e-5"; "123456789.125"; "1e16";
     "9999999999999998"; "0.0001"; "0.00001"; "5e-324";
     "1.7976931348623157e308"; "0.30000000000000004";
     "0.1000000000000000055"; "-2.5"; "100"; "9.5"; "1e23"; "-0"]
  = ["1.0"; "0.1"; "1e+22"; "1.5e-05"; "123456789.125"; "1e+16";
     "9999999999999998.0"; "0.0001"; "1e-05"; "5e-324";
     "1.7976931348623157e+308"; "0.30000000000000004";
     "0.1"; "-2.5"; "100.0"; "9.5"; "1e+23"; "-0.0"].
Proof. vm_compute. reflexivity. Qed.

Example str_int_examples :
  str_int 1965 = "1965" /\ str_int 0 = "0" /\ str_int (-40) = "-40"
  /\ zfill 2 7 = "07" /\ zfill 4 2007 = "2007" /\ zfill 6 0 = "000000".
Proof. vm_compute. repeat split. Qed.

Example py_int_examples :
  py_int (Some "1965") = Ok 1965 /\ py_int (Some " -1_0 ") = Ok (-10)
  /\ is_ok (py_int (Some "1__0")) = false
  /\ is_ok (py_int (Some EmptyString)) = false
  /\ is_ok (py_int None) = false.
Proof. vm_compute. repeat split. Qed.

Example py_float_examples :
  py_float (Some "1.0") = Ok (S754_finite false 4503599627370496 (-52))
  /\ py_float (Some "0.5") = Ok (S754_finite false 4503599627370496 (-53))
  /\ py_float (Some "1e6") = Ok float_1e6
  /\ py_float (Some "-.5e1") = Ok (S754_finite true 5629499534213120 (-50))
  /\ py_float (Some "0.1") = Ok (S754_finite false 7205759403792794 (-56))
  /\ py_float (Some "1e999") = Ok (S754_infinity false)
  /\ py_float (Some "Infinity") = Ok (S754_infinity false)
  /\ is_ok (py_float (Some "1.e")) = false
  /\ is_ok (py_float (Some ".")) = false.
Proof. vm_compute. repeat split. Qed.

Example isoformat_example :
  isoformat (mkdatetime 2007 1 25 12 0 0 0 (Some timezone_utc))
    = "2007-01-25T12:00:00+00:00"
  /\ isoformat (mkdatetime 2007 1 25 12 0 0 249 (Some (mktz (- timedelta 2 30))))
    = "2007-01-25T12:00:00.000249-02:30"
  /\ isoformat (mkdatetime 2007 1 25 12 0 0 0 None) = "2007-01-25T12:00:00".
Proof. vm_compute. repeat split. Qed.

Example parse_date_examples :
  iso8601.parse_date (Some "2007-01-25T12:00:00Z")
    = Ok (mkdatetime 2007 1 25 12 0 0 0 (Some timezone_utc))
  /\ iso8601.parse_date (Some "2007-01-25T12:00:00+02:00")
    = Ok (mkdatetime 2007 1 25 12 0 0 0 (Some (mktz (timedelta 2 0))))
  /\ iso8601.parse_date (Some "2007-01-25T12:00:00.5-02:30")
    = Ok (mkdatetime 2007 1 25 12 0 0 500000 (Some (mktz (- timedelta 2 30))))
  /\ iso8601.parse_date (Some "2007-01-25T12:00:00.000249Z")
    = Ok (mkdatetime 2007 1 25 12 0 0 248 (Some timezone_utc))
  /\ is_ok (iso8601.parse_date (Some "2007")) = false.
Proof. vm_compute. repeat split. Qed.

Example a2b_base64_examples :
  _b64.decodes2b (Some "QQ==") = Ok [x41]
  /\ _b64.decodes2b (Some ("Q Q" ++ NL ++ "=" ++ TAB ++ "=")) = Ok [x41]
  /\ _b64.decodes2b (Some "QQ=") = Raise (binascii_Error "Incorrect padding")
  /\ _b64.decodes2b (Some "QQQ") = Raise (binascii_Error "Incorrect padding")
  /\ _b64.decodes2b (Some "Q===")
     = Raise (binascii_Error "Invalid base64-encoded string")
  /\ _b64.decodes2b (Some EmptyString) = Ok [].
Proof. vm_compute. repeat split. Qed.

Example WHITESPACE_RE_examples :
  WHITESPACE_RE.sub (" a b" ++ NL ++ "c " ++ NL) = "a bc"
  /\ WHITESPACE_RE.sub ("QUJD" ++ NL ++ "QUJD" ++ NL) = "QUJDQUJD".
Proof. vm_compute. repeat split. Qed.

Example regex_examples :
  iso8601.ISO8601_REGEX_match "2007-1-5 12:00+01:00 and more"
  = Some (iso8601.mkgroups (Some "2007") (Some "1") (Some "5") (Some " ")
            (Some "12") (Some "00") None None (Some "+01:00"))
  /\ iso8601.ISO8601_REGEX_match "2007-01-25T12:0"
     = Some (iso8601.mkgroups (Some "2007") (Some "01") (Some "25")
               None None None None None None)
  /\ iso8601.ISO8601_REGEX_match "207-01-25" = None.
Proof. vm_compute. repeat split. Qed.

Example fromstring_examples :
  etree.fromstring ("<a k='v'>x<b/>y<c> </c></a>")
  = Ok (Elem (Some "a") [("k", "v")] (Some "x")
          [Elem (Some "b") [] None []; Elem (Some "c") [] (Some " ") []])
  /\ is_ok (etree.fromstring "<a><b></a>") = false
  /\ is_ok (etree.fromstring "<a/><b/>") = false.
Proof. vm_compute. repeat split. Qed.

(** ** Strings *)

Lemma append_nil_r (s : string) : s ++ EmptyString = s.
Proof. induction s; simpl; congruence. Qed.

Lemma append_assoc (a b c : string) : (a ++ b) ++ c = a ++ (b ++ c).
Proof. induction a; simpl; congruence. Qed.

Lemma length_append (a b : string) :
  String.length (a ++ b) = (String.length a + String.length b)%nat.
Proof. induction a; simpl; congruence. Qed.

(** ** The serializer on the builder *)

Lemma opt_str_eqb_refl (a : option string) : opt_str_eqb a a = true.
Proof. destruct a; simpl; auto using String.eqb_refl. Qed.

Lemma opt_str_eqb_eq (a b : option string) :
  opt_str_eqb a b = true <-> a = b.
Proof.
  destruct a, b; simpl; split; intro H; try congruence.
  - apply String.eqb_eq in H. congruence.
  - inversion H. apply String.eqb_refl.
Qed.

(** [tag] on a ready builder returns its leaf and hangs it into the open
    element. *)
Lemma tag_returns name data b parent rest :
  ready b parent rest ->
  tag name data b
  = Ok (leaf_element name (py_str data),
        attached (leaf_element name (py_str data)) parent rest
                 (TreeBuilder._root b)).
Proof.
  intros [Hd He]. destruct b as [d el la ro]. simpl in Hd, He. subst.
  unfold tag, bbind, bstart, bdata, bend, bret, leaf_element, attached.
  unfold TreeBuilder.start, TreeBuilder._flush. simpl.
  destruct (py_str data) as [|c s]; simpl.
  - unfold TreeBuilder.end_, TreeBuilder._flush. simpl.
    rewrite opt_str_eqb_refl. reflexivity.
  - unfold TreeBuilder.end_, TreeBuilder._flush, TreeBuilder.data. simpl.
    rewrite opt_str_eqb_refl. unfold join. simpl.
    rewrite append_nil_r. reflexivity.
Qed.

Lemma end_returns name attrib text children b parent rest :
  TreeBuilder._data b = [] ->
  TreeBuilder._elem b = Elem name attrib text children :: parent :: rest ->
  bend name b
  = Ok (Elem name attrib text children,
        attached (Elem name attrib text children) parent rest
                 (TreeBuilder._root b)).
Proof.
  intros Hd He. destruct b as [d el la ro]. simpl in Hd, He. subst.
  unfold bend, TreeBuilder.end_, TreeBuilder._flush. simpl.
  rewrite opt_str_eqb_refl. reflexivity.
Qed.

Lemma start_grown name attrs b parent rest :
  ready b parent rest ->
  grown b (TreeBuilder.start name attrs b) name attrs None [] []
        (parent :: rest).
Proof.
  intros [Hd He]. destruct b as [d el la ro]. simpl in Hd, He. subst.
  unfold grown, TreeBuilder.start, TreeBuilder._flush. simpl. auto.
Qed.

Lemma grown_ready b b' name attrib text acc cs outer :
  grown b b' name attrib text acc cs outer ->
  ready b' (Elem name attrib text (acc ++ cs)) outer.
Proof. intros (Hd & He & _). split; assumption. Qed.

Lemma grown_attached b b' name attrib text acc cs e outer :
  grown b b' name attrib text acc cs outer ->
  grown b (attached e (Elem name attrib text (acc ++ cs)) outer
                    (TreeBuilder._root b'))
        name attrib text acc (cs ++ [e]) outer.
Proof.
  intros (Hd & He & Hr). unfold grown, attached. simpl.
  rewrite app_assoc. auto.
Qed.

Lemma end_grown b b' name attrib text cs parent rest :
  grown b b' name attrib text [] cs (parent :: rest) ->
  bend name b'
  = Ok (Elem name attrib text cs,
        attached (Elem name attrib text cs) parent rest
                 (TreeBuilder._root b)).
Proof.
  intros (Hd & He & Hr). simpl in He.
  rewrite (end_returns _ _ _ _ _ _ _ Hd He). rewrite Hr. reflexivity.
Qed.

Lemma serialize_returns (v : Value) :
  forall b parent rest,
    ready b parent rest ->
    serialize v b
    = match element_of v with
      | Ok e => Ok (e, attached e parent rest (TreeBuilder._root b))
      | Raise x => Raise x
      end.
Proof.
  induction v as [ | bb | n | x | s | bs | d | l IHl | ordered items IHitems | ]
    using Value_nested_ind; intros b parent rest Hready.
  - apply tag_returns; assumption.
  - destruct bb; apply tag_returns; assumption.
  - apply tag_returns; assumption.
  - apply tag_returns; assumption.
  - apply tag_returns; assumption.
  - (* bytes *)
    pose proof (start_grown (Some "data") [] _ _ _ Hready) as Hg.
    cbn [serialize element_of existsb TYPES_STATIC is_ fst orb TYPES_WRAP_get
         TYPES_WRAP find isinstance option_map].
    unfold bbind at 1. unfold bstart at 1.
    destruct (_b64.encodeb2s bs) as [s|x]; cbn [rbind].
    + unfold bbind at 1.
      rewrite (tag_returns None (DStr (WHITESPACE_RE.sub s)) _ _ _
                 (grown_ready _ _ _ _ _ _ _ _ Hg)).
      cbn [py_str].
      apply (grown_attached _ _ _ _ _ _ _
               (leaf_element None (WHITESPACE_RE.sub s))) in Hg.
      rewrite (end_grown _ _ _ _ _ _ _ _ Hg). reflexivity.
    + reflexivity.
  - apply tag_returns; assumption.
  - (* list *)
    pose proof (start_grown (Some "array") [] _ _ _ Hready) as Hg.
    cbn [serialize element_of existsb TYPES_STATIC is_ fst orb TYPES_WRAP_get
         TYPES_WRAP find isinstance option_map].
    unfold bbind at 1. unfold bstart at 1.
    revert Hg. generalize (TreeBuilder.start (Some "array") [] b).
    match goal with
    | |- forall t, _ -> bbind (?f l) _ t = match rbind (?g l) _ with _ => _ end =>
        set (loop := f); set (elems := g)
    end.
    enough (Hgen : forall acc t,
      grown b t (Some "array") [] None [] acc (parent :: rest) ->
      bbind (loop l) (fun _ => bend (Some "array")) t
      = match (let? cs := elems l in
               Ok (Elem (Some "array") [] None (acc ++ cs))) with
        | Ok e => Ok (e, attached e parent rest (TreeBuilder._root b))
        | Raise x => Raise x
        end) by (intros t Hg; apply (Hgen [] t Hg)).
    induction IHl as [|v l Hv Hl IH]; intros acc t Hg.
    + cbn [loop elems rbind]. unfold bbind, bret.
      rewrite app_nil_r. apply (end_grown _ _ _ _ _ _ _ _ Hg).
    + change (loop (v :: l)) with (bbind (serialize v) (fun _ => loop l)).
      change (elems (v :: l))
        with (let? e := element_of v in let? es := elems l in Ok (e :: es)).
      unfold bbind at 1. unfold bbind at 1.
      rewrite (Hv _ _ _ (grown_ready _ _ _ _ _ _ _ _ Hg)).
      destruct (element_of v) as [e|x]; cbn [rbind]; [|reflexivity].
      pose proof (IH (acc ++ [e])%list _ (grown_attached _ _ _ _ _ _ _ e _ Hg))
        as Hrec.
      unfold bbind in Hrec at 1. cbn [app] in Hrec |- *. rewrite Hrec.
      destruct (elems l) as [es|x]; cbn [rbind]; [|reflexivity].
      rewrite <- app_assoc. reflexivity.
  - (* dict *)
    cbn [serialize element_of existsb TYPES_STATIC is_ fst orb TYPES_WRAP_get
         TYPES_WRAP find isinstance option_map].
    match goal with
    | |- context [rbind _ (fun _ => rbind (dict_children (?g items) _) _)] =>
        set (elems := g)
    end.
    match goal with
    | |- context [lookup (?f items) _] => set (values := f)
    end.
    assert (Hlook : forall key,
      match lookup (values items) key, lookup (elems items) key with
      | None, None => True
      | Some m, Some r =>
          forall b parent rest, ready b parent rest ->
            m b = match r with
                  | Ok e => Ok (e, attached e parent rest (TreeBuilder._root b))
                  | Raise x => Raise x
                  end
      | _, _ => False
      end).
    { intro key. induction IHitems as [|[k v] r Hv Hr IH].
      - exact I.
      - change (values ((k, v) :: r)) with ((k, serialize v) :: values r).
        change (elems ((k, v) :: r)) with ((k, element_of v) :: elems r).
        cbn [lookup]. destruct (opt_str_eqb k key); [exact Hv | exact IH]. }
    clearbody values elems. clear IHitems.
    destruct (if ordered then Ok (map fst items) else sorted (map fst items))
      as [tags|x]; cbn [rbind]; [|reflexivity].
    pose proof (start_grown (Some "dict") [] _ _ _ Hready) as Hg.
    unfold bbind at 1. unfold bstart at 1.
    revert Hg. generalize (TreeBuilder.start (Some "dict") [] b).
    enough (Hgen : forall acc t,
      grown b t (Some "dict") [] None [] acc (parent :: rest) ->
      bbind (bforeach tags (fun key =>
               match lookup (values items) key with
               | None => braise (KeyError "key")
               | Some serialize_value =>
                   tag (Some "key") (key_data key) ;;
                   serialize_value ;;
                   bret tt
               end)) (fun _ => bend (Some "dict")) t
      = match (let? cs := dict_children (elems items) tags in
               Ok (Elem (Some "dict") [] None (acc ++ cs))) with
        | Ok e => Ok (e, attached e parent rest (TreeBuilder._root b))
        | Raise x => Raise x
        end) by (intros t Hg; apply (Hgen [] t Hg)).
    induction tags as [|key tags IH]; intros acc t Hg.
    + cbn [bforeach dict_children rbind]. unfold bbind, bret.
      rewrite app_nil_r. apply (end_grown _ _ _ _ _ _ _ _ Hg).
    + cbn [bforeach dict_children]. specialize (Hlook key).
      unfold bbind at 1. unfold bbind at 1.
      destruct (lookup (values items) key) as [m|],
               (lookup (elems items) key) as [r|]; try contradiction.
      2:{ reflexivity. }
      unfold bbind at 1.
      rewrite (tag_returns _ _ _ _ _ (grown_ready _ _ _ _ _ _ _ _ Hg)).
      apply (grown_attached _ _ _ _ _ _ _
               (leaf_element (Some "key") (py_str (key_data key)))) in Hg.
      unfold bbind at 1.
      cbn [app] in Hg |- *.
      rewrite (Hlook _ _ _ (grown_ready _ _ _ _ _ _ _ _ Hg)).
      destruct r as [e|x]; cbn [rbind]; [|reflexivity].
      apply (grown_attached _ _ _ _ _ _ _ e) in Hg.
      unfold bret at 1.
      pose proof (IH _ _ Hg) as Hrec.
      unfold bbind in Hrec at 1. cbn [app] in Hrec |- *.

      rewrite Hrec.
      destruct (dict_children (elems items) tags) as [es|x]; cbn [rbind];
        [|reflexivity].
      rewrite <- !app_assoc. reflexivity.
  - reflexivity.
Qed.


(** Inside [PListBuilder(data)], [serialize(data)] returns
    [element_of data]. *)
Lemma data_elem_element_of (data : Value) : data_elem data = element_of data.
Proof.
  unfold data_elem, PListBuilder.
  unfold bbind at 1. unfold bstart at 1. unfold bbind at 1.
  rewrite (serialize_returns data _ (Elem (Some "plist") [("version", "1.0")]
                                          None []) []).
  2:{ split; reflexivity. }
  destruct (element_of data) as [e|x]; [|reflexivity].
  unfold bbind, bend, bret, attached, TreeBuilder.end_, TreeBuilder._flush.
  reflexivity.
Qed.

(** ** The reference document *)

(** C2. Decoding the reference document of the tests gives the documented
    ordered mapping: the reader turns its text into the element tree
    [ParsedExample.tree], [fromtree] turns that tree into
    [TestPlist.converted], and so [loads] does on the text.  Encoding that
    mapping gives the reference document back, byte for byte: header, tab
    indentation, self-closing empty array. *)
Theorem canonical_example_both_ways :
  etree.fromstring (str_strip TestPlist.example) = Ok ParsedExample.tree
  /\ fromtree ParsedExample.tree = Ok TestPlist.converted
  /\ loads TestPlist.example = Ok TestPlist.converted
  /\ dumps TestPlist.converted = Ok TestPlist.example.
Proof. repeat split; vm_compute; reflexivity. Qed.

(** ** Static values *)

(** C3. What the serializer emits for [None], [True] and [False]: an
    element that has no children but carries the text [None], because
    [tag] turns its default [data=None] into a string before it tests it
    for emptiness.  The claim asks for an element without text. *)
Theorem static_elements_carry_text :
  data_elem VNone = Ok (Elem (Some "undef") [] (Some "None") [])
  /\ data_elem (VBool true) = Ok (Elem (Some "true") [] (Some "None") [])
  /\ data_elem (VBool false) = Ok (Elem (Some "false") [] (Some "None") [])
  /\ dumps (VBool true)
     = Ok (PLISTHEADER ++ "<plist version=" ++ DQUOTE ++ "1.0" ++ DQUOTE
           ++ ">" ++ NL ++ "<true>None</true>" ++ NL ++ "</plist>" ++ NL).
Proof. repeat split; vm_compute; reflexivity. Qed.


(** ** Strings *)

(** C4. A [string] element whose text is a string deserializes to that
    string, but one without text ([<string/>], text [None]) deserializes
    to the four characters [None]: [str] is no no-op on [None].  The claim
    asks for the empty string. *)
Theorem string_without_text_reads_None :
  (forall attrib s children,
      deserialize (Elem (Some "string") attrib (Some s) children)
      = Ok (VStr s))
  /\ deserialize (Elem (Some "string") [] None []) = Ok (VStr "None").
Proof. split; reflexivity. Qed.

(** ** Dates *)

(** C5. A date string that stops after the year, the month, the day or the
    minute matches the pattern, and [parse_date] then raises [TypeError]
    from [int(None)] instead of filling in month 1, day 1 or time
    00:00:00; only a string with seconds parses. *)
Theorem partial_dates_raise :
  let int_None :=
    TypeError "int() argument must be a string, a bytes-like object or a real number, not 'NoneType'" in
  iso8601.parse_date (Some "2007") = Raise int_None
  /\ iso8601.parse_date (Some "2007-01") = Raise int_None
  /\ iso8601.parse_date (Some "2007-01-25") = Raise int_None
  /\ iso8601.parse_date (Some "2007-01-25T12:00Z") = Raise int_None
  /\ iso8601.parse_date (Some "2007-01-25T12:00:00Z")
     = Ok (mkdatetime 2007 1 25 12 0 0 0 (Some timezone_utc)).
Proof. repeat split; vm_compute; reflexivity. Qed.

(** More generally, [parse_date] returns a date only when the match has
    found every field down to the seconds. *)
Lemma parse_date_needs_seconds (s : string) (d : datetime) :
  iso8601.parse_date (Some s) = Ok d ->
  exists g,
    iso8601.ISO8601_REGEX_match s = Some g
    /\ iso8601.g_month g <> None /\ iso8601.g_day g <> None
    /\ iso8601.g_hour g <> None /\ iso8601.g_minute g <> None
    /\ iso8601.g_second g <> None.
Proof.
  unfold iso8601.parse_date.
  destruct (iso8601.ISO8601_REGEX_match s) as [g|]; [|discriminate].
  intro H. exists g. split; [reflexivity|].
  destruct g as [gy gmo gd gsep gh gmi gs gf gz].
  cbn [iso8601.g_timezone iso8601.g_fraction iso8601.g_year iso8601.g_month
       iso8601.g_day iso8601.g_hour iso8601.g_minute iso8601.g_second] in *.
  destruct (iso8601.parse_timezone gz timezone_utc); [|discriminate H].
  cbn [rbind] in H.
  destruct (match gf with
            | Some f => iso8601.fraction_micros f
            | None => Ok 0
            end); [|discriminate H].
  cbn [rbind] in H.
  destruct (py_int gy); [|discriminate H]. cbn [rbind] in H.
  destruct gmo as [smo|]; [|discriminate H].
  destruct (py_int (Some smo)); [|discriminate H]. cbn [rbind] in H.
  destruct gd as [sd|]; [|discriminate H].
  destruct (py_int (Some sd)); [|discriminate H]. cbn [rbind] in H.
  destruct gh as [sh|]; [|discriminate H].
  destruct (py_int (Some sh)); [|discriminate H]. cbn [rbind] in H.
  destruct gmi as [smi|]; [|discriminate H].
  destruct (py_int (Some smi)); [|discriminate H]. cbn [rbind] in H.
  destruct gs as [ss|]; [|discriminate H].
  repeat split; discriminate.
Qed.

(** C7. The fraction [000249] becomes 248 microseconds, not 249: the
    double nearest to 0.000249, times 1e6, lies just below 249 and [int]
    truncates it.  A fraction of twenty nines becomes 1000000, which
    [datetime] rejects. *)
Theorem fraction_off_by_one :
  iso8601.fraction_micros "000249" = Ok 248
  /\ iso8601.parse_date (Some "2007-01-25T12:00:00.000249Z")
     = Ok (mkdatetime 2007 1 25 12 0 0 248 (Some timezone_utc))
  /\ iso8601.fraction_micros "99999999999999999999" = Ok 1000000
  /\ iso8601.parse_date (Some "2007-01-25T12:00:00.99999999999999999999Z")
     = Raise (ValueError "microsecond must be in 0..999999").
Proof. repeat split; vm_compute; reflexivity. Qed.

(** ** base64 decoding *)

Lemma a2b_loop_skips (l : list byte) :
  forall q lc p,
    binascii.a2b_loop q lc p l = binascii.a2b_loop q lc p (filter keep_byte l).
Proof.
  induction l as [|x r IH]; intros q lc p; [reflexivity|].
  cbn [filter]. unfold keep_byte at 1.
  destruct (Byte.eqb x binascii.BASE64_PAD) eqn:Hpad.
  - rewrite orb_true_r. cbn [binascii.a2b_loop]. rewrite Hpad.
    rewrite !IH. reflexivity.
  - rewrite orb_false_r.
    destruct (binascii.table_a2b_base64 x <? 64) eqn:Hd.
    + cbn [binascii.a2b_loop]. rewrite Hpad.
      assert (Hge : (64 <=? binascii.table_a2b_base64 x) = false) by lia.
      rewrite Hge. rewrite !IH. reflexivity.
    + cbn [binascii.a2b_loop]. rewrite Hpad.
      assert (Hge : (64 <=? binascii.table_a2b_base64 x) = true) by lia.
      rewrite Hge. apply IH.
Qed.

Lemma a2b_loop_raises (l : list byte) :
  forall q lc p e,
    binascii.a2b_loop q lc p l = Raise e -> exists msg, e = binascii_Error msg.
Proof.
  induction l as [|x r IH]; intros q lc p e; cbn [binascii.a2b_loop].
  - destruct (q =? 0); [discriminate|].
    destruct (q =? 1); intro H; inversion H; eauto.
  - repeat match goal with
           | |- context [if ?c then _ else _] => destruct c
           end; try discriminate; try apply IH;
      match goal with
      | |- rbind (binascii.a2b_loop ?a ?b ?c r) _ = _ -> _ =>
          destruct (binascii.a2b_loop a b c r) eqn:E; cbn [rbind];
          [discriminate | intro H; inversion H; subst; eapply IH; eassumption]
      end.
Qed.

Lemma is_ok_rbind_Ok {A B} (r : result A) (f : A -> B) :
  is_ok (rbind r (fun a => Ok (f a))) = is_ok r.
Proof. destruct r; reflexivity. Qed.

(** Whether the decoder fails depends on its position in the quad and on
    the pads seen, not on the bits it carries over. *)
Lemma a2b_loop_ok_leftchar (l : list byte) :
  forall q lc lc' p,
    is_ok (binascii.a2b_loop q lc p l) = is_ok (binascii.a2b_loop q lc' p l).
Proof.
  induction l as [|x r IH]; intros q lc lc' p; cbn [binascii.a2b_loop].
  - reflexivity.
  - repeat match goal with
           | |- context [if ?c then _ else _] => destruct c
           end; try reflexivity; try apply IH;
      rewrite !is_ok_rbind_Ok; reflexivity.
Qed.

Lemma a2b_loop_ok_pads (k : nat) :
  forall q lc p,
    0 <= q < 4 -> 0 <= p -> (2 <= q -> q + p < 4) ->
    is_ok (binascii.a2b_loop q lc p (repeat binascii.BASE64_PAD k))
    = (q =? 0) || ((2 <=? q) && (4 <=? q + p + Z.of_nat k)).
Proof.
  induction k as [|k IH]; intros q lc p Hq Hp Hinv.
  - cbn [repeat binascii.a2b_loop].
    destruct (q =? 0) eqn:E0; [reflexivity|].
    apply Z.eqb_neq in E0.
    destruct (q =? 1) eqn:E1; cbn [is_ok orb]; symmetry;
      apply andb_false_iff.
    + apply Z.eqb_eq in E1. left. apply Z.leb_gt. lia.
    + apply Z.eqb_neq in E1. right. apply Z.leb_gt. lia.
  - cbn [repeat binascii.a2b_loop].
    replace (Byte.eqb binascii.BASE64_PAD binascii.BASE64_PAD) with true
      by reflexivity.
    destruct (2 <=? q) eqn:E2.
    + apply Z.leb_le in E2. destruct (4 <=? q + (p + 1)) eqn:E4.
      * apply Z.leb_le in E4. cbn [is_ok]. symmetry. apply orb_true_iff.
        right. apply andb_true_iff. split; [reflexivity|].
        apply Z.leb_le. lia.
      * apply Z.leb_gt in E4. rewrite IH by lia.
        replace (2 <=? q) with true by (symmetry; apply Z.leb_le; lia).
        f_equal. f_equal. f_equal. lia.
    + apply Z.leb_gt in E2. rewrite IH by lia.
      replace (2 <=? q) with false by (symmetry; apply Z.leb_gt; lia).
      reflexivity.
Qed.

Lemma a2b_loop_ok_data (d : list byte) :
  Forall (fun x => keep_byte x = true
                   /\ Byte.eqb x binascii.BASE64_PAD = false) d ->
  forall x q lc p rest,
    keep_byte x = true -> Byte.eqb x binascii.BASE64_PAD = false ->
    0 <= q < 4 ->
    is_ok (binascii.a2b_loop q lc p ((x :: d) ++ rest))
    = is_ok (binascii.a2b_loop ((q + 1 + Z.of_nat (List.length d)) mod 4)
                               0 0 rest).
Proof.
  assert (Hstep : forall x q lc p l,
    keep_byte x = true -> Byte.eqb x binascii.BASE64_PAD = false ->
    0 <= q < 4 ->
    is_ok (binascii.a2b_loop q lc p (x :: l))
    = is_ok (binascii.a2b_loop ((q + 1) mod 4) 0 0 l)).
  { intros x q lc p l Hk Hp Hq. cbn [binascii.a2b_loop]. rewrite Hp.
    unfold keep_byte in Hk. rewrite Hp, orb_false_r in Hk.
    apply Z.ltb_lt in Hk.
    assert (Hge : (64 <=? binascii.table_a2b_base64 x) = false)
      by (apply Z.leb_gt; lia).
    rewrite Hge.
    assert (Hc : q = 0 \/ q = 1 \/ q = 2 \/ q = 3) by lia.
    destruct Hc as [-> | [-> | [-> | ->]]];
      cbn [Z.eqb Pos.eqb Z.add Pos.add Z.modulo Z.div_eucl Z.pos_div_eucl
           Z.leb Z.ltb Z.compare Pos.compare Pos.compare_cont Z.mul Pos.mul
           Z.sub Z.opp Z.pos_sub Pos.pred_double Z.succ_double Z.pred_double
           Z.double snd fst];
      rewrite ?is_ok_rbind_Ok; apply a2b_loop_ok_leftchar. }
  induction 1 as [|y d [Hy Hyp] Hd IH]; intros x q lc p rest Hk Hp Hq.
  - cbn [app List.length]. rewrite Hstep by assumption.
    f_equal. f_equal. f_equal. lia.
  - change ((x :: y :: d) ++ rest)%list with (x :: ((y :: d) ++ rest)%list).
    rewrite Hstep by assumption.
    rewrite IH by (try assumption; apply Z.mod_pos_bound; lia).
    replace (((q + 1) mod 4 + 1 + Z.of_nat (List.length d)) mod 4)
      with ((q + 1 + Z.of_nat (List.length (y :: d))) mod 4); [reflexivity|].
    cbn [List.length]. rewrite Nat2Z.inj_succ.
    rewrite <- (Z.add_assoc ((q + 1) mod 4)).
    rewrite Z.add_mod_idemp_l by lia. f_equal. lia.
Qed.

Lemma encode_low (c : ascii) :
  (ord c <? 128) = true ->
  keep_byte (byte_of_Z (ord c)) = is_b64 c
  /\ Byte.eqb (byte_of_Z (ord c)) binascii.BASE64_PAD = is_b64_pad c.
Proof.
  destruct c as [[] [] [] [] [] [] [] []]; vm_compute; intro H;
    try discriminate H; split; reflexivity.
Qed.

Lemma encode_high (c : ascii) :
  (ord c <? 128) = false ->
  keep_byte (byte_of_Z (192 + ord c / 64)) = false
  /\ keep_byte (byte_of_Z (128 + ord c mod 64)) = false
  /\ is_b64 c = false.
Proof.
  destruct c as [[] [] [] [] [] [] [] []]; vm_compute; intro H;
    try discriminate H; repeat split; reflexivity.
Qed.

Lemma data_char_low (c : ascii) :
  is_b64_data c = true -> (ord c <? 128) = true /\ is_b64_pad c = false.
Proof.
  destruct c as [[] [] [] [] [] [] [] []]; vm_compute; intro H;
    try discriminate H; split; reflexivity.
Qed.

Lemma filter_str_encode (s : string) :
  filter keep_byte (str_encode s) = str_encode (str_filter is_b64 s).
Proof.
  induction s as [|c r IH]; [reflexivity|].
  cbn [str_encode str_filter]. cbv zeta.
  destruct (ord c <? 128) eqn:Hlow.
  - destruct (encode_low c Hlow) as [Hk _]. cbn [filter]. rewrite Hk.
    destruct (is_b64 c); [|exact IH].
    cbn [str_encode]. cbv zeta. rewrite Hlow, IH. reflexivity.
  - destruct (encode_high c Hlow) as (H1 & H2 & H3). cbn [filter].
    rewrite H1, H2, H3. exact IH.
Qed.

Lemma str_encode_pads (k : nat) :
  str_encode (str_repeat "=" k) = repeat binascii.BASE64_PAD k.
Proof.
  induction k as [|k IH]; [reflexivity|].
  cbn [str_repeat repeat]. change ("=" ++ str_repeat "=" k)
    with (String "=" (str_repeat "=" k)).
  cbn [str_encode]. cbv zeta.
  replace (ord "=" <? 128) with true by reflexivity.
  rewrite IH. reflexivity.
Qed.

Lemma str_encode_data (data rest : string) :
  all_chars is_b64_data data = true ->
  exists d,
    str_encode (data ++ rest) = (d ++ str_encode rest)%list
    /\ List.length d = String.length data
    /\ Forall (fun x => keep_byte x = true
                        /\ Byte.eqb x binascii.BASE64_PAD = false) d.
Proof.
  induction data as [|c r IH]; intro Hall.
  - exists []. repeat split. constructor.
  - cbn [all_chars] in Hall. apply andb_true_iff in Hall.
    destruct Hall as [Hc Hr]. destruct (IH Hr) as (d & He & Hl & Hf).
    destruct (data_char_low c Hc) as [Hlow Hnp].
    destruct (encode_low c Hlow) as [Hk Hp].
    exists (byte_of_Z (ord c) :: d). repeat split.
    + change (String c r ++ rest) with (String c (r ++ rest)).
      cbn [str_encode]. cbv zeta. rewrite Hlow, He. reflexivity.
    + cbn [List.length String.length]. congruence.
    + constructor; [|exact Hf]. split.
      * rewrite Hk. unfold is_b64. rewrite Hc. reflexivity.
      * rewrite Hp. exact Hnp.
Qed.

Lemma decode_ok_data_pads (data : string) (k : nat) :
  all_chars is_b64_data data = true ->
  is_ok (_b64.decodes2b (Some (data ++ str_repeat "=" k)))
  = padding_suffices (String.length data) k.
Proof.
  intro Hall. unfold _b64.decodes2b, base64.decodebytes, binascii.a2b_base64.
  destruct (str_encode_data data (str_repeat "=" k) Hall)
    as (d & He & Hl & Hf).
  rewrite He, str_encode_pads. unfold padding_suffices. rewrite <- Hl.
  destruct Hf as [|x d [Hx Hxp] Hd].
  - cbn [app List.length]. rewrite a2b_loop_ok_pads by lia. reflexivity.
  - rewrite (a2b_loop_ok_data d Hd x 0 0 0 _ Hx Hxp) by lia.
    assert (Hr : 0 <= (0 + 1 + Z.of_nat (List.length d)) mod 4 < 4)
      by (apply Z.mod_pos_bound; lia).
    replace (Z.of_nat (List.length (x :: d)))
      with (0 + 1 + Z.of_nat (List.length d))
      by (cbn [List.length]; lia).
    set (r := (0 + 1 + Z.of_nat (List.length d)) mod 4) in *.
    destruct (Z.leb_spec 2 r) as [H2|H2].
    + rewrite a2b_loop_ok_pads by lia.
      assert (Hc : r = 2 \/ r = 3) by lia.
      destruct Hc as [-> | ->]; cbn [Z.eqb Pos.eqb orb andb Z.leb Z.compare
                                       Pos.compare Pos.compare_cont];
        rewrite ?orb_false_r;
        [ destruct (Z.leb_spec 4 (2 + 0 + Z.of_nat k)),
                   (Z.leb_spec 2 (Z.of_nat k))
        | destruct (Z.leb_spec 4 (3 + 0 + Z.of_nat k)),
                   (Z.leb_spec 1 (Z.of_nat k)) ];
        try reflexivity; lia.
    + rewrite a2b_loop_ok_pads by lia.
      assert (Hc : r = 0 \/ r = 1) by lia.
      destruct Hc as [-> | ->]; reflexivity.
Qed.

(** C6, as the code has it.  The decoder skips every character outside
    the base64 alphabet instead of failing on it.  For a text whose
    alphabet and padding characters are [data] followed by [k] pads,
    decoding succeeds exactly when the padding suffices for the number of
    data characters (none missing: a count of 1 beyond a multiple of four
    never decodes, 2 needs two pads, 3 needs one), and when it fails the
    exception is [binascii.Error]. *)
Theorem base64_skips_and_needs_padding (s data : string) (k : nat) :
  str_filter is_b64 s = data ++ str_repeat "=" k ->
  all_chars is_b64_data data = true ->
  _b64.decodes2b (Some s) = _b64.decodes2b (Some (data ++ str_repeat "=" k))
  /\ is_ok (_b64.decodes2b (Some s))
     = padding_suffices (String.length data) k
  /\ (forall e, _b64.decodes2b (Some s) = Raise e ->
                exists msg, e = binascii_Error msg).
Proof.
  intros Hs Hall.
  assert (Heq : _b64.decodes2b (Some s)
                = _b64.decodes2b (Some (data ++ str_repeat "=" k))).
  { unfold _b64.decodes2b, base64.decodebytes, binascii.a2b_base64.
    rewrite a2b_loop_skips, filter_str_encode, Hs. reflexivity. }
  split; [exact Heq|]. split.
  - rewrite Heq. apply decode_ok_data_pads. exact Hall.
  - intros e He. unfold _b64.decodes2b, base64.decodebytes,
      binascii.a2b_base64 in He.
    eapply a2b_loop_raises. exact He.
Qed.

Lemma base64_skips_and_needs_padding_witness :
  str_filter is_b64 (" QU" ++ NL ++ "I!=") = "QUI" ++ str_repeat "=" 1
  /\ all_chars is_b64_data "QUI" = true
  /\ (_b64.decodes2b (Some (" QU" ++ NL ++ "I!="))
      = _b64.decodes2b (Some ("QUI" ++ str_repeat "=" 1))
      /\ is_ok (_b64.decodes2b (Some (" QU" ++ NL ++ "I!=")))
         = padding_suffices (String.length "QUI") 1
      /\ (forall e, _b64.decodes2b (Some (" QU" ++ NL ++ "I!=")) = Raise e ->
                    exists msg, e = binascii_Error msg)).
Proof.
  split; [reflexivity|]. split; [reflexivity|].
  apply (base64_skips_and_needs_padding (" QU" ++ NL ++ "I!=") "QUI" 1);
    reflexivity.
Defined.

(** C6 as stated fails: a text with a character outside the alphabet, and
    texts with padding in excess or followed by more data, decode without
    an error. *)
Lemma base64_foreign_characters_accepted :
  all_chars is_b64 "QU!JD" = false
  /\ _b64.decodes2b (Some "QU!JD") = Ok [x41; x42; x43]
  /\ _b64.decodes2b (Some "QUJD====") = Ok [x41; x42; x43]
  /\ _b64.decodes2b (Some "QUI=QUJD") = Ok [x41; x42].
Proof. repeat split; vm_compute; reflexivity. Qed.

(** ** Dictionaries read from a tree *)

Lemma list_pairs_ind {A} (P : list A -> Prop) :
  P [] -> (forall x, P [x]) -> (forall x y l, P l -> P (x :: y :: l)) ->
  forall l, P l.
Proof.
  intros H0 H1 H2.
  assert (H : forall l, P l /\ forall x, P (x :: l)).
  { induction l as [|y l [IHa IHb]]; split; auto. }
  intro l. apply H.
Qed.

(** The loop of [deserialize] over the children of a [dict] element, two
    at a time. *)
Lemma deserialize_dict attrib text children :
  deserialize (Elem (Some "dict") attrib text children)
  = if negb (Nat.eqb (Nat.modulo (List.length children) 2) 0)
    then Raise IncompleteDictionaryError
    else let? data := read_pairs children [] in Ok (OrderedDict data).
Proof. reflexivity. Qed.

Lemma deserialize_array attrib text children :
  deserialize (Elem (Some "array") attrib text children)
  = let? l := read_children children in Ok (VList l).
Proof. reflexivity. Qed.

Lemma even_length_mod2 {A} (l : list A) :
  Nat.even (List.length l) = true ->
  negb (Nat.eqb (Nat.modulo (List.length l) 2) 0) = false.
Proof.
  intro H. apply Nat.even_spec in H. destruct H as [m Hm]. rewrite Hm.
  rewrite Nat.mul_comm, Nat.Div0.mod_mul. reflexivity.
Qed.

Lemma odd_length_mod2 {A} (l : list A) :
  Nat.odd (List.length l) = true ->
  negb (Nat.eqb (Nat.modulo (List.length l) 2) 0) = true.
Proof.
  intro H. apply Nat.odd_spec in H. destruct H as [m Hm]. rewrite Hm.
  replace (2 * m + 1)%nat with (1 + m * 2)%nat by lia.
  rewrite Nat.Div0.mod_add. reflexivity.
Qed.

Lemma read_pairs_first_violation pairs bad next rest :
  Forall (fun kv => tag_of (fst kv) = Some "key"
                    /\ is_ok (deserialize (snd kv)) = true) pairs ->
  tag_of bad <> Some "key" ->
  forall data,
    read_pairs (key_value_children pairs ++ bad :: next :: rest) data
    = Raise MissingKeyTagError.
Proof.
  intros Hpairs Hbad.
  induction Hpairs as [|[k v] ps [Hk Hv] Hps IH]; intro data.
  - cbn [key_value_children app read_pairs].
    destruct (opt_str_eqb (tag_of bad) (Some "key")) eqn:E.
    + apply opt_str_eqb_eq in E. contradiction.
    + reflexivity.
  - cbn [key_value_children app read_pairs fst snd] in *.
    rewrite Hk. cbn [opt_str_eqb]. rewrite String.eqb_refl. cbn [negb].
    destruct (deserialize v) as [val|x]; [|discriminate Hv].
    cbn [rbind]. apply IH.
Qed.

Lemma read_pairs_any_violation (c : list Element) :
  Nat.even (List.length c) = true ->
  (exists i x, Nat.even i = true /\ nth_error c i = Some x
               /\ tag_of x <> Some "key") ->
  forall data, is_ok (read_pairs c data) = false.
Proof.
  induction c as [|x|x y l IH] using list_pairs_ind;
    intros Heven (i & bad & Hi & Hnth & Hbad) data.
  - destruct i; discriminate Hnth.
  - discriminate Heven.
  - cbn [read_pairs].
    destruct (opt_str_eqb (tag_of x) (Some "key")) eqn:E; [|reflexivity].
    apply opt_str_eqb_eq in E. cbn [negb].
    destruct (deserialize y) as [val|e]; [|reflexivity]. cbn [rbind].
    apply IH.
    + exact Heven.
    + destruct i as [|[|i]].
      * cbn in Hnth. inversion Hnth; subst. contradiction.
      * discriminate Hi.
      * exists i, bad. repeat split; assumption.
Qed.

(** C8, as the code has it.  A [dict] element with an odd number of
    children always fails with [IncompleteDictionaryError].  With an even
    number of children, it fails with [MissingKeyTagError] when the first
    child at an even position that is no [key] comes after pairs whose
    values all deserialize; and whenever some child at an even position
    is no [key], deserialization fails, with the error met first. *)
Theorem dict_errors attrib text (children : list Element) :
  (Nat.odd (List.length children) = true ->
   deserialize (Elem (Some "dict") attrib text children)
   = Raise IncompleteDictionaryError)
  /\ (Nat.even (List.length children) = true ->
      forall pairs bad rest,
        children = (key_value_children pairs ++ bad :: rest)%list ->
        Forall (fun kv => tag_of (fst kv) = Some "key"
                          /\ is_ok (deserialize (snd kv)) = true) pairs ->
        tag_of bad <> Some "key" ->
        deserialize (Elem (Some "dict") attrib text children)
        = Raise MissingKeyTagError)
  /\ (Nat.even (List.length children) = true ->
      (exists i x, Nat.even i = true /\ nth_error children i = Some x
                   /\ tag_of x <> Some "key") ->
      is_ok (deserialize (Elem (Some "dict") attrib text children)) = false).
Proof.
  rewrite deserialize_dict. repeat split.
  - intro Hodd. rewrite (odd_length_mod2 _ Hodd). reflexivity.
  - intros Heven pairs bad rest Hc Hpairs Hbad.
    rewrite (even_length_mod2 _ Heven).
    destruct rest as [|next rest].
    + exfalso. subst children. rewrite length_app in Heven.
      assert (Hl : forall ps, List.length (key_value_children ps)
                              = (2 * List.length ps)%nat).
      { induction ps as [|[k v] ps IH]; cbn [key_value_children List.length];
          [reflexivity | rewrite IH; lia]. }
      rewrite Hl in Heven. cbn [List.length] in Heven.
      replace (2 * List.length pairs + 1)%nat
        with (S (2 * List.length pairs)) in Heven by lia.
      rewrite Nat.even_succ, Nat.odd_mul in Heven. discriminate Heven.
    + subst children.
      rewrite (read_pairs_first_violation _ _ _ _ Hpairs Hbad). reflexivity.
  - intros Heven Hex. rewrite (even_length_mod2 _ Heven).
    pose proof (read_pairs_any_violation _ Heven Hex []) as H.
    destruct (read_pairs children []); [discriminate H | reflexivity].
Qed.

Lemma dict_errors_witness :
  deserialize (Elem (Some "dict") [] None [ParsedExample.leaf "key" "a"])
  = Raise IncompleteDictionaryError
  /\ deserialize (Elem (Some "dict") [] None
                    [ParsedExample.leaf "key" "a";
                     ParsedExample.leaf "integer" "1";
                     ParsedExample.leaf "string" "b";
                     ParsedExample.leaf "integer" "2"])
     = Raise MissingKeyTagError
  /\ is_ok (deserialize (Elem (Some "dict") [] None
                           [ParsedExample.leaf "key" "a";
                            ParsedExample.leaf "foo" "1";
                            ParsedExample.leaf "string" "b";
                            ParsedExample.leaf "integer" "2"])) = false.
Proof.
  split; [|split].
  - apply (proj1 (dict_errors [] None [ParsedExample.leaf "key" "a"])).
    reflexivity.
  - apply (proj1 (proj2 (dict_errors [] None
                            [ParsedExample.leaf "key" "a";
                             ParsedExample.leaf "integer" "1";
                             ParsedExample.leaf "string" "b";
                             ParsedExample.leaf "integer" "2"])) eq_refl
             [(ParsedExample.leaf "key" "a", ParsedExample.leaf "integer" "1")]
             (ParsedExample.leaf "string" "b")
             [ParsedExample.leaf "integer" "2"]).
    + reflexivity.
    + constructor; [|constructor]. split; reflexivity.
    + discriminate.
  - apply (proj2 (proj2 (dict_errors [] None
                            [ParsedExample.leaf "key" "a";
                             ParsedExample.leaf "foo" "1";
                             ParsedExample.leaf "string" "b";
                             ParsedExample.leaf "integer" "2"])) eq_refl).
    exists 2%nat, (ParsedExample.leaf "string" "b").
    split; [reflexivity|]. split; [reflexivity|]. discriminate.
Defined.

(** C8 as stated fails: in these [dict] elements with four children the
    third child is no [key], yet the error raised is the one met earlier,
    in the value of the first pair: an incomplete inner dictionary, or an
    unknown tag. *)
Lemma dict_missing_key_masked_by_earlier_error :
  let inner := Elem (Some "dict") [] None [ParsedExample.leaf "key" "b"] in
  let children1 := [ParsedExample.leaf "key" "a"; inner;
                    ParsedExample.leaf "string" "b";
                    ParsedExample.leaf "integer" "2"] in
  let children2 := [ParsedExample.leaf "key" "a";
                    ParsedExample.leaf "foo" "1";
                    ParsedExample.leaf "string" "b";
                    ParsedExample.leaf "integer" "2"] in
  Nat.even (List.length children1) = true
  /\ option_map tag_of (nth_error children1 2) = Some (Some "string")
  /\ deserialize (Elem (Some "dict") [] None children1)
     = Raise IncompleteDictionaryError
  /\ deserialize (Elem (Some "dict") [] None children2)
     = Raise (ValueError "Unknown tag")
  /\ IncompleteDictionaryError <> MissingKeyTagError
  /\ ValueError "Unknown tag" <> MissingKeyTagError.
Proof. repeat split; try reflexivity; discriminate. Qed.

(** ** Dictionaries written to a tree *)

Lemma ltb_false_leb (x y : string) : String.ltb x y = false -> key_le y x.
Proof.
  unfold String.ltb, key_le, String.leb. rewrite (String.compare_antisym y x).
  destruct (String.compare x y); simpl; congruence.
Qed.

Lemma ltb_true_leb (x y : string) : String.ltb x y = true -> key_le x y.
Proof.
  unfold String.ltb, key_le, String.leb.
  destruct (String.compare x y); simpl; congruence.
Qed.

(** Inserting a [str] key among sorted [str] keys raises nothing and keeps
    them sorted. *)
Lemma insert_key_sorted (x : string) (l : list string) :
  exists l',
    insert_key (Some x) (map Some l) = Ok (map Some l')
    /\ Permutation l' (x :: l)
    /\ (Sorted key_le l -> Sorted key_le l')
    /\ (forall a, key_le a x -> HdRel key_le a l -> HdRel key_le a l').
Proof.
  induction l as [|y r (r' & Hr & Hperm & Hsorted & Hhd)].
  - exists [x]. repeat split; auto.
  - cbn [map insert_key key_lt rbind].
    destruct (String.ltb x y) eqn:Hlt.
    + exists (x :: y :: r). repeat split; auto.
      intro Hs. constructor; [exact Hs|]. constructor.
      apply ltb_true_leb. exact Hlt.
    + rewrite Hr. cbn [rbind]. exists (y :: r'). repeat split.
      * rewrite Hperm. apply perm_swap.
      * intro Hs. apply Sorted_inv in Hs. destruct Hs as [Hs Hy].
        constructor; [auto|]. apply Hhd; [|exact Hy].
        apply ltb_false_leb. exact Hlt.
      * intros a Hax Hay. constructor. inversion Hay. assumption.
Qed.

(** [sorted] on [str] keys raises nothing and returns them in
    lexicographic order. *)
Lemma sorted_strings (l : list string) :
  exists l',
    sorted (map Some l) = Ok (map Some l')
    /\ Permutation l' l /\ Sorted key_le l'.
Proof.
  induction l as [|x r (r' & Hr & Hperm & Hsorted)].
  - exists []. repeat split; auto.
  - cbn [map sorted]. rewrite Hr. cbn [rbind].
    destruct (insert_key_sorted x r') as (l' & Hl & Hp & Hs & _).
    exists l'. repeat split; auto.
    rewrite Hp. constructor. exact Hperm.
Qed.

Lemma dict_children_entries
    (values : list (option string * result Element))
    (entries : list (string * Element)) :
  (forall k e, In (k, e) entries -> lookup values (Some k) = Some (Ok e)) ->
  dict_children values (map (fun ke => Some (fst ke)) entries)
  = Ok (key_value_elements entries).
Proof.
  induction entries as [|[k e] r IH]; intro Hin; [reflexivity|].
  cbn [map dict_children fst].
  rewrite (Hin k e) by (left; reflexivity). cbn [rbind].
  rewrite IH by (intros; apply Hin; right; assumption).
  reflexivity.
Qed.

Lemma lookup_unique {A} (l : list (string * A)) (f : A -> result Element)
    (es : list Element) :
  NoDup (map fst l) ->
  Forall2 (fun kv e => f (snd kv) = Ok e) l es ->
  forall k e,
    In (k, e) (combine (map fst l) es) ->
    lookup (map (fun kv => (Some (fst kv), f (snd kv))) l) (Some k)
    = Some (Ok e).
Proof.
  intros Hnd Hall. induction Hall as [|[k0 v0] e0 l es H0 Hall IH];
    intros k e Hin; [contradiction|].
  cbn [map fst snd combine lookup opt_str_eqb] in *.
  inversion Hnd as [|? ? Hnotin Hnd']; subst.
  destruct Hin as [Heq | Hin].
  - inversion Heq; subst. rewrite String.eqb_refl. congruence.
  - destruct (String.eqb k0 k) eqn:E.
    + apply String.eqb_eq in E. subst k0. exfalso. apply Hnotin.
      apply in_combine_l in Hin. exact Hin.
    + apply IH; assumption.
Qed.

Lemma element_of_dict ordered items :
  element_of (VDict ordered items)
  = let? tags := (if ordered then Ok (map fst items)
                  else sorted (map fst items)) in
    let? cs := dict_children
                 (map (fun kv => (fst kv, element_of (snd kv))) items) tags in
    Ok (Elem (Some "dict") [] None cs).
Proof.
  cbn [element_of existsb TYPES_STATIC is_ fst orb TYPES_WRAP_get
       TYPES_WRAP find isinstance option_map].
  match goal with
  | |- context [dict_children (?f items) _] =>
      assert (Hmap : f items
                     = map (fun kv => (fst kv, element_of (snd kv))) items)
  end.
  { induction items as [|[k v] r IH]; [reflexivity|].
    cbn [map fst snd]. rewrite <- IH. reflexivity. }
  rewrite Hmap. reflexivity.
Qed.

(** The [dict] element of a mapping with [str] keys. *)
Lemma element_of_str_dict (ordered : bool)
    (items : list (string * Value)) (elems : list Element) :
  NoDup (map fst items) ->
  Forall2 (fun kv e => element_of (snd kv) = Ok e) items elems ->
  exists entries : list (string * Element),
    Permutation entries (combine (map fst items) elems)
    /\ (if ordered then entries = combine (map fst items) elems
        else Sorted key_le (map fst entries))
    /\ element_of (VDict ordered (str_items items))
       = Ok (Elem (Some "dict") [] None (key_value_elements entries)).
Proof.
  intros Hnd Hall'.
  pose proof (lookup_unique items element_of elems Hnd Hall') as Hlook.
  assert (Hlen : List.length (map fst items) = List.length elems).
  { rewrite length_map. eapply Forall2_length. exact Hall'. }
  rewrite element_of_dict. unfold str_items.
  rewrite !map_map. cbn [fst snd].
  destruct ordered.
  - exists (combine (map fst items) elems). split; [reflexivity|].
    split; [reflexivity|]. cbn [rbind].
    replace (map (fun x => Some (fst x)) items)
      with (map (fun ke : string * Element => Some (fst ke))
                (combine (map fst items) elems)).
    + rewrite dict_children_entries by exact Hlook. reflexivity.
    + rewrite <- (map_map fst Some (combine (map fst items) elems)).
      rewrite <- (map_map fst Some items).
      f_equal. clear - Hlen. revert elems Hlen.
      induction (map fst items) as [|k ks IH]; intros [|e es] Hlen;
        try discriminate; [reflexivity|].
      cbn [combine map fst]. f_equal. apply IH. injection Hlen. auto.
  - destruct (sorted_strings (map fst items)) as (ks & Hsorted & Hperm & Hs).
    rewrite <- (map_map fst Some items), Hsorted. cbn [rbind].
    assert (Hfst : map fst (combine (map fst items) elems) = map fst items).
    { clear - Hlen. revert elems Hlen.
      induction (map fst items) as [|k ks IH]; intros [|e es] Hlen;
        try discriminate; [reflexivity|].
      cbn [combine map fst]. f_equal. apply IH. injection Hlen. auto. }
    rewrite <- Hfst in Hperm.
    destruct (Permutation_map_inv _ _ Hperm) as (entries & Hks & Hpe).
    exists entries. split; [symmetry; exact Hpe|].
    split; [rewrite <- Hks; exact Hs|].
    rewrite Hks, map_map.
    rewrite dict_children_entries; [reflexivity|].
    intros k e Hin. apply Hlook.
    eapply Permutation_in; [symmetry; exact Hpe | exact Hin].
Qed.

(** C9. In the [dict] element of a mapping with [str] keys, every entry is
    a [key] element followed at once by the serialized value; the entries
    come in the order of the mapping when it is an [OrderedDict], and in
    lexicographic order of their keys when it is not. *)
Theorem dict_entries_in_order (ordered : bool)
    (items : list (string * Value)) (elems : list Element) :
  NoDup (map fst items) ->
  Forall2 (fun kv e => data_elem (snd kv) = Ok e) items elems ->
  exists entries : list (string * Element),
    Permutation entries (combine (map fst items) elems)
    /\ (if ordered then entries = combine (map fst items) elems
        else Sorted key_le (map fst entries))
    /\ data_elem (VDict ordered (str_items items))
       = Ok (Elem (Some "dict") [] None (key_value_elements entries)).
Proof.
  intros Hnd Hall. rewrite data_elem_element_of.
  apply element_of_str_dict; [exact Hnd|].
  eapply Forall2_impl; [|exact Hall]. intros kv e H. cbv beta in H.
  rewrite data_elem_element_of in H. exact H.
Qed.

Lemma dict_entries_in_order_witness :
  exists entries : list (string * Element),
    Permutation entries
      [("b", Elem (Some "integer") [] (Some "1") []);
       ("a", Elem (Some "array") [] None [])]
    /\ Sorted key_le (map fst entries)
    /\ data_elem (VDict false [(Some "b", VInt 1); (Some "a", VList [])])
       = Ok (Elem (Some "dict") [] None (key_value_elements entries)).
Proof.
  apply (dict_entries_in_order false [("b", VInt 1); ("a", VList [])]
           [Elem (Some "integer") [] (Some "1") [];
            Elem (Some "array") [] None []]).
  - constructor; [|constructor; [|constructor]]; simpl; intuition discriminate.
  - constructor; [reflexivity|]. constructor; [reflexivity|]. constructor.
Defined.

(** ** Decimal text of integers *)

Lemma digit_char_facts (d : Z) :
  0 <= d < 10 ->
  isdigit (digit_char d) = true /\ digit_value (digit_char d) = d.
Proof.
  intro H.
  assert (Hc : d = 0 \/ d = 1 \/ d = 2 \/ d = 3 \/ d = 4 \/ d = 5 \/ d = 6
               \/ d = 7 \/ d = 8 \/ d = 9) by lia.
  repeat (destruct Hc as [-> | Hc]; [split; reflexivity|]).
  subst. split; reflexivity.
Qed.

Lemma isdigit_facts (c : ascii) :
  isdigit c = true ->
  isspace_number c = false /\ isspace c = false
  /\ (ord c =? 45) = false /\ (ord c =? 43) = false
  /\ (ord c =? 95) = false /\ (ord c =? 10) = false.
Proof.
  destruct c as [[] [] [] [] [] [] [] []]; vm_compute; intro H;
    try discriminate H; repeat split; reflexivity.
Qed.

Lemma all_chars_app (p : ascii -> bool) (a b : string) :
  all_chars p (a ++ b) = all_chars p a && all_chars p b.
Proof.
  induction a as [|c a IH]; [reflexivity|].
  cbn [append all_chars]. rewrite IH. apply andb_assoc.
Qed.

Lemma digits_value_app (a b : string) (acc : Z) :
  digits_value acc (a ++ b) = digits_value (digits_value acc a) b.
Proof.
  revert acc. induction a as [|c a IH]; intro acc; [reflexivity|].
  cbn [append digits_value]. apply IH.
Qed.

(** The digits [digits_of] puts in front of [acc]. *)
Lemma digits_of_spec (fuel : nat) :
  forall n acc,
    0 <= n < 2 ^ Z.of_nat fuel -> (1 <= fuel)%nat ->
    exists ds,
      digits_of fuel n acc = ds ++ acc
      /\ all_chars isdigit ds = true
      /\ ds <> EmptyString
      /\ forall a, digits_value a ds
                   = a * 10 ^ Z.of_nat (String.length ds) + n.
Proof.
  induction fuel as [|fuel IH]; intros n acc Hn Hfuel; [lia|].
  cbn [digits_of]. cbv zeta.
  assert (Hmod : 0 <= n mod 10 < 10) by (apply Z.mod_pos_bound; lia).
  destruct (digit_char_facts _ Hmod) as [Hd Hv].
  destruct (Z.ltb_spec n 10) as [Hlt | Hge].
  - exists (str1 (digit_char (n mod 10))). repeat split.
    + cbn [str1 all_chars]. rewrite Hd. reflexivity.
    + discriminate.
    + intro a. cbn [str1 digits_value String.length]. rewrite Hv.
      rewrite Z.mod_small by lia. change (10 ^ Z.of_nat 1) with 10. lia.
  - assert (Hfuel' : (1 <= fuel)%nat).
    { destruct fuel; [|lia]. change (2 ^ Z.of_nat 1) with 2 in Hn. lia. }
    assert (Hdiv : 0 <= n / 10 < 2 ^ Z.of_nat fuel).
    { split; [apply Z.div_pos; lia|].
      apply Z.div_lt_upper_bound; [lia|].
      rewrite Nat2Z.inj_succ, Z.pow_succ_r in Hn by lia. lia. }
    destruct (IH (n / 10) (String (digit_char (n mod 10)) acc) Hdiv Hfuel')
      as (ds & He & Hall & Hne & Hval).
    exists (ds ++ str1 (digit_char (n mod 10))). repeat split.
    + rewrite He, append_assoc. reflexivity.
    + rewrite all_chars_app, Hall. cbn [str1 all_chars]. rewrite Hd.
      reflexivity.
    + destruct ds; [congruence | discriminate].
    + intro a. rewrite digits_value_app, Hval.
      cbn [str1 digits_value]. rewrite Hv, length_append.
      cbn [str1 String.length]. rewrite Nat2Z.inj_add.
      rewrite Z.pow_add_r by lia. change (10 ^ Z.of_nat 1) with 10.
      pose proof (Z.div_mod n 10). lia.
Qed.

Lemma str_nonneg_spec (n : Z) :
  0 <= n ->
  all_chars isdigit (str_nonneg n) = true
  /\ str_nonneg n <> EmptyString
  /\ digits_value 0 (str_nonneg n) = n.
Proof.
  intro Hn. unfold str_nonneg.
  destruct (digits_of_spec (S (Z.to_nat (Z.log2 n))) n EmptyString)
    as (ds & He & Hall & Hne & Hval).
  - split; [exact Hn|]. rewrite Nat2Z.inj_succ, Z2Nat.id
      by apply Z.log2_nonneg.
    destruct (Z.eq_dec n 0) as [-> | Hnz]; [reflexivity|].
    apply Z.log2_spec. lia.
  - lia.
  - rewrite He, append_nil_r. split; [exact Hall|]. split; [exact Hne|].
    rewrite Hval. lia.
Qed.

Lemma whole_digitpart_digits (s : string) (after_digit : bool) :
  all_chars isdigit s = true ->
  s <> EmptyString \/ after_digit = true ->
  whole_digitpart after_digit s = Some s.
Proof.
  revert after_digit. induction s as [|c r IH]; intros b Hall Hne.
  - destruct Hne as [Hne | ->]; [congruence | reflexivity].
  - cbn [all_chars] in Hall. apply andb_true_iff in Hall.
    destruct Hall as [Hc Hr]. cbn [whole_digitpart]. rewrite Hc.
    rewrite (IH true Hr) by (right; reflexivity). reflexivity.
Qed.

Lemma rstrip_digits (s : string) :
  all_chars isdigit s = true -> rstrip isspace_number s = s.
Proof.
  induction s as [|c r IH]; intro Hall; [reflexivity|].
  cbn [all_chars] in Hall. apply andb_true_iff in Hall.
  destruct Hall as [Hc Hr]. cbn [rstrip]. rewrite (IH Hr).
  destruct r; [|reflexivity].
  destruct (isdigit_facts c Hc) as (Hs & _). rewrite Hs. reflexivity.
Qed.

Lemma py_int_digits (s : string) :
  all_chars isdigit s = true -> s <> EmptyString ->
  py_int (Some s) = Ok (digits_value 0 s)
  /\ py_int (Some ("-" ++ s)) = Ok (- digits_value 0 s).
Proof.
  intros Hall Hne. destruct s as [|c r]; [congruence|].
  pose proof Hall as Hall'. cbn [all_chars] in Hall'.
  apply andb_true_iff in Hall'. destruct Hall' as [Hc Hr].
  destruct (isdigit_facts c Hc) as (Hs & _ & Hm & Hp & _).
  unfold py_int, strip_number. split.
  - cbn [drop_while]. rewrite Hs. rewrite (rstrip_digits _ Hall).
    cbn [split_sign]. rewrite Hm, Hp. cbv iota.
    rewrite whole_digitpart_digits by (auto; left; discriminate).
    reflexivity.
  - change ("-" ++ String c r) with (String "-" (String c r)).
    cbn [drop_while].
    replace (isspace_number "-") with false by reflexivity.
    assert (Hrs : rstrip isspace_number (String "-" (String c r))
                  = String "-" (String c r)).
    { change (rstrip isspace_number (String "-" (String c r)))
        with (match rstrip isspace_number (String c r) with
              | EmptyString =>
                  if isspace_number "-" then EmptyString else str1 "-"
              | r' => String "-" r'
              end).
      rewrite (rstrip_digits _ Hall). reflexivity. }
    rewrite Hrs.
    cbn [split_sign]. replace (ord "-" =? 45) with true by reflexivity.
    rewrite whole_digitpart_digits by (auto; left; discriminate).
    reflexivity.
Qed.

(** [int(str(n)) == n]. *)
Lemma py_int_str_int (n : Z) : py_int (Some (str_int n)) = Ok n.
Proof.
  unfold str_int. destruct (Z.ltb_spec n 0) as [Hneg | Hpos].
  - destruct (str_nonneg_spec (- n)) as (Hall & Hne & Hval); [lia|].
    rewrite (proj2 (py_int_digits _ Hall Hne)), Hval. f_equal. lia.
  - destruct (str_nonneg_spec n Hpos) as (Hall & Hne & Hval).
    rewrite (proj1 (py_int_digits _ Hall Hne)), Hval. reflexivity.
Qed.

(** ** Dates written and read back *)

Lemma check_from_spec (fuel : nat) :
  forall n P, check_from fuel n P = true ->
              forall m, n <= m < n + Z.of_nat fuel -> P m = true.
Proof.
  induction fuel as [|fuel IH]; intros n P H m Hm; [lia|].
  cbn [check_from] in H. apply andb_true_iff in H. destruct H as [Hn Hr].
  destruct (Z.eq_dec m n) as [-> | Hne]; [exact Hn|].
  apply (IH (n + 1) P Hr). lia.
Qed.

Lemma zfill_length_2 (n : Z) :
  0 <= n <= 99 -> String.length (zfill 2 n) = 2%nat.
Proof.
  intro H.
  assert (Hc : check_from 100 0
                 (fun n => Nat.eqb (String.length (zfill 2 n)) 2) = true)
    by (vm_compute; reflexivity).
  apply Nat.eqb_eq. apply (check_from_spec _ _ _ Hc). lia.
Qed.

Lemma zfill_length_4 (n : Z) :
  0 <= n <= 9999 -> String.length (zfill 4 n) = 4%nat.
Proof.
  intro H.
  assert (Hc : check_from (Z.to_nat 10000) 0
                 (fun n => Nat.eqb (String.length (zfill 4 n)) 4) = true)
    by (vm_compute; reflexivity).
  apply Nat.eqb_eq. apply (check_from_spec _ _ _ Hc).
  rewrite Z2Nat.id by lia. lia.
Qed.

Lemma zeros_digits (k : nat) :
  all_chars isdigit (str_repeat "0" k) = true
  /\ forall s, digits_value 0 (str_repeat "0" k ++ s) = digits_value 0 s.
Proof.
  induction k as [|k [IHa IHb]]; [split; reflexivity|].
  split.
  - cbn [str_repeat]. change ("0" ++ str_repeat "0" k)
      with (String "0" (str_repeat "0" k)).
    cbn [all_chars]. rewrite IHa. reflexivity.
  - intro s. cbn [str_repeat].
    change (("0" ++ str_repeat "0" k) ++ s)
      with (String "0" (str_repeat "0" k ++ s)).
    cbn [digits_value]. apply IHb.
Qed.

(** A zero-filled field is made of digits and reads back as its number. *)
Lemma zfill_spec (w : nat) (n : Z) :
  0 <= n ->
  all_chars isdigit (zfill w n) = true
  /\ zfill w n <> EmptyString
  /\ py_int (Some (zfill w n)) = Ok n.
Proof.
  intro Hn. destruct (str_nonneg_spec n Hn) as (Hall & Hne & Hval).
  unfold zfill. cbv zeta.
  destruct (zeros_digits (w - String.length (str_nonneg n))) as [Hz Hzv].
  assert (Hd : all_chars isdigit
                 (str_repeat "0" (w - String.length (str_nonneg n))
                  ++ str_nonneg n) = true)
    by (rewrite all_chars_app, Hz, Hall; reflexivity).
  assert (Hnz : str_repeat "0" (w - String.length (str_nonneg n))
                ++ str_nonneg n <> EmptyString).
  { destruct (str_repeat "0" (w - String.length (str_nonneg n)));
      [exact Hne | discriminate]. }
  split; [exact Hd|]. split; [exact Hnz|].
  rewrite (proj1 (py_int_digits _ Hd Hnz)), Hzv, Hval. reflexivity.
Qed.

Lemma digits_exact_app (s rest : string) :
  all_chars isdigit s = true ->
  iso8601.digits_exact (String.length s) (s ++ rest) = Some (s, rest).
Proof.
  induction s as [|c r IH]; intro Hall; [reflexivity|].
  cbn [all_chars] in Hall. apply andb_true_iff in Hall.
  destruct Hall as [Hc Hr].
  cbn [String.length append iso8601.digits_exact].
  rewrite Hc, (IH Hr). reflexivity.
Qed.

Lemma digits_1_2_app (s rest : string) :
  String.length s = 2%nat -> all_chars isdigit s = true ->
  iso8601.digits_1_2 (s ++ rest) = Some (s, rest).
Proof.
  intros Hl Hall. unfold iso8601.digits_1_2.
  rewrite <- Hl, digits_exact_app by exact Hall. reflexivity.
Qed.

Lemma take_drop_digits (s rest : string) :
  all_chars isdigit s = true ->
  match rest with
  | String c _ => isdigit c = false
  | EmptyString => True
  end ->
  take_while isdigit (s ++ rest) = s /\ drop_while isdigit (s ++ rest) = rest.
Proof.
  intros Hall Hrest. induction s as [|c r IH].
  - cbn [append]. destruct rest as [|c r]; [split; reflexivity|].
    cbn [take_while drop_while]. rewrite Hrest. split; reflexivity.
  - cbn [all_chars] in Hall. apply andb_true_iff in Hall.
    destruct Hall as [Hc Hr]. destruct (IH Hr) as [Ht Hd].
    cbn [append take_while drop_while]. rewrite Hc, Ht, Hd.
    split; reflexivity.
Qed.

Lemma digits_plus_app (s rest : string) :
  all_chars isdigit s = true -> s <> EmptyString ->
  match rest with
  | String c _ => isdigit c = false
  | EmptyString => True
  end ->
  iso8601.digits_plus (s ++ rest) = Some (s, rest).
Proof.
  intros Hall Hne Hrest. unfold iso8601.digits_plus.
  destruct (take_drop_digits s rest Hall Hrest) as [Ht Hd].
  rewrite Ht, Hd. destruct s; [congruence | reflexivity].
Qed.

Lemma digits_exact_whole (s : string) :
  all_chars isdigit s = true ->
  iso8601.digits_exact (String.length s) s = Some (s, EmptyString).
Proof.
  intro Hall. rewrite <- (append_nil_r s) at 2.
  apply digits_exact_app. exact Hall.
Qed.

Lemma first_digit_not (c : Z) (s rest : string) :
  all_chars isdigit s = true -> s <> EmptyString ->
  (forall a, isdigit a = true -> (ord a =? c) = false) ->
  iso8601.lit c (s ++ rest) = None.
Proof.
  intros Hall Hne Hc. destruct s as [|a r]; [congruence|].
  cbn [all_chars] in Hall. apply andb_true_iff in Hall.
  cbn [append iso8601.lit]. rewrite (Hc a) by tauto. reflexivity.
Qed.

(** The offset text [+hh:mm] or [-hh:mm] is matched whole by the pattern
    and parsed to the offset it names. *)
Lemma offset_text_parses (neg : bool) (HH MM : string) (hh mm : Z) :
  String.length HH = 2%nat -> all_chars isdigit HH = true ->
  py_int (Some HH) = Ok hh ->
  String.length MM = 2%nat -> all_chars isdigit MM = true ->
  py_int (Some MM) = Ok mm ->
  let tzs := (if neg then "-" else "+") ++ HH ++ ":" ++ MM in
  iso8601.match_timezone tzs = Some tzs
  /\ iso8601.parse_timezone (Some tzs) timezone_utc
     = timezone (if neg then timedelta (- hh) (- mm) else timedelta hh mm).
Proof.
  intros HlH HdH HiH HlM HdM HiM tzs.
  assert (Hsg : exists sg, tzs = String sg (HH ++ ":" ++ MM)
                           /\ sg = (if neg then "-" else "+")%char).
  { destruct neg; eexists; split; reflexivity. }
  destruct Hsg as (sg & Htz & Hsg).
  assert (Hsign : iso8601.sign_char tzs = Some (sg, HH ++ ":" ++ MM)).
  { rewrite Htz, Hsg. destruct neg; reflexivity. }
  assert (HZ : iso8601.lit 90 tzs = None).
  { rewrite Htz, Hsg. destruct neg; reflexivity. }
  assert (Hh : iso8601.digits_exact 2 (HH ++ ":" ++ MM)
               = Some (HH, ":" ++ MM)).
  { rewrite <- HlH. apply digits_exact_app. exact HdH. }
  assert (Hm : iso8601.digits_exact 2 MM = Some (MM, EmptyString)).
  { rewrite <- HlM. apply digits_exact_whole. exact HdM. }
  split.
  - unfold iso8601.match_timezone. rewrite HZ, Hsign, Hh.
    change (iso8601.lit 58 (":" ++ MM)) with (Some MM). cbv beta iota.
    rewrite Hm. rewrite Htz. reflexivity.
  - unfold iso8601.parse_timezone.
    assert (HnZ : String.eqb tzs "Z" = false).
    { rewrite Htz, Hsg. destruct neg; reflexivity. }
    rewrite HnZ. unfold iso8601.TIMEZONE_REGEX_match.
    rewrite Hsign, Hh.
    change (iso8601.any_char (":" ++ MM)) with (Some (":"%char, MM)).
    cbv beta iota. rewrite Hm, HiH, HiM. cbn [rbind].
    rewrite Hsg. destruct neg; reflexivity.
Qed.

(** The offset suffix of [isoformat] for an offset of whole minutes: the
    pattern matches it whole and [parse_timezone] gives the offset back. *)
Lemma format_offset_parses (z : tzinfo) :
  utcoffset z mod timedelta 0 1 = 0 ->
  - timedelta 24 0 < utcoffset z < timedelta 24 0 ->
  let tzs := _format_offset (Some z) in
  iso8601.match_timezone tzs = Some tzs
  /\ iso8601.parse_timezone (Some tzs) timezone_utc = Ok z
  /\ iso8601.lit 46 tzs = None
  /\ match tzs with
     | String c _ => isdigit c = false
     | EmptyString => True
     end.
Proof.
  destruct z as [off]. cbn [utcoffset].
  change (timedelta 0 1) with 60000000.
  change (timedelta 24 0) with 86400000000.
  intros Hmod Hrange.
  apply Z.div_exact in Hmod; [|lia].
  set (q := off / 60000000) in Hmod.
  pose proof (Z.div_mod (Z.abs q) 60 ltac:(lia)) as Hq.
  pose proof (Z.mod_pos_bound (Z.abs q) 60 ltac:(lia)) as Hqm.
  set (h := Z.abs q / 60) in *. set (m := Z.abs q mod 60) in *.
  assert (Habs : Z.abs off = 3600000000 * h + 60000000 * m) by lia.
  assert (Hh0 : 0 <= h <= 23) by lia.
  assert (Ediv : Z.abs off / 3600000000 = h).
  { symmetry. apply (Z.div_unique _ _ h (60000000 * m)); lia. }
  assert (Erem : Z.abs off mod 3600000000 = 60000000 * m).
  { symmetry. apply (Z.mod_unique _ _ h (60000000 * m)); lia. }
  assert (Emm : (60000000 * m) / 60000000 = m).
  { symmetry. apply (Z.div_unique _ _ m 0); lia. }
  assert (Hss : (Z.abs off mod 3600000000) mod 60000000 = 0).
  { rewrite Erem. symmetry. apply (Z.mod_unique _ _ m 0); lia. }
  set (hh := Z.abs off / 3600000000).
  set (mm := (Z.abs off mod 3600000000) / 60000000).
  assert (Ehh : hh = h) by exact Ediv.
  assert (Emm' : mm = m) by (unfold mm; rewrite Erem; exact Emm).
  assert (Hhh : 0 <= hh <= 99) by lia.
  assert (Hmm : 0 <= mm <= 99) by lia.
  assert (Hfmt : _format_offset (Some (mktz off))
                 = (if off <? 0 then "-" else "+")
                   ++ zfill 2 hh ++ ":" ++ zfill 2 mm).
  { unfold _format_offset. cbn [utcoffset]. cbv zeta.
    change (timedelta 1 0) with 3600000000.
    change (timedelta 0 1) with 60000000.
    rewrite Hss. change (0 =? 0) with true. cbv iota.
    fold hh mm. rewrite append_nil_r. reflexivity. }
  cbv zeta. rewrite Hfmt.
  destruct (zfill_spec 2 hh (proj1 Hhh)) as (HdH & _ & HiH).
  destruct (zfill_spec 2 mm (proj1 Hmm)) as (HdM & _ & HiM).
  destruct (offset_text_parses (off <? 0) _ _ hh mm
              (zfill_length_2 _ Hhh) HdH HiH (zfill_length_2 _ Hmm) HdM HiM)
    as [Hmatch Hparse].
  split; [exact Hmatch|]. split; [|split].
  - rewrite Hparse. unfold timezone, timedelta.
    change ((24 * 3600 + 0 * 60) * 1000000) with 86400000000.
    destruct (Z.ltb_spec off 0) as [Hneg | Hpos].
    + replace ((- hh * 3600 + - mm * 60) * 1000000) with off by lia.
      match goal with
      | |- context [(?a <? off) && (off <? ?b)] =>
          destruct (Z.ltb_spec a off), (Z.ltb_spec off b)
      end; try lia. reflexivity.
    + replace ((hh * 3600 + mm * 60) * 1000000) with off by lia.
      match goal with
      | |- context [(?a <? off) && (off <? ?b)] =>
          destruct (Z.ltb_spec a off), (Z.ltb_spec off b)
      end; try lia. reflexivity.
  - destruct (off <? 0); reflexivity.
  - destruct (off <? 0); reflexivity.
Qed.

(** The pattern on a full date and time: every field is found. *)
Lemma regex_matches_full (Y M D H MI tail : string) :
  String.length Y = 4%nat -> all_chars isdigit Y = true ->
  String.length M = 2%nat -> all_chars isdigit M = true ->
  String.length D = 2%nat -> all_chars isdigit D = true ->
  String.length H = 2%nat -> all_chars isdigit H = true ->
  String.length MI = 2%nat -> all_chars isdigit MI = true ->
  iso8601.ISO8601_REGEX_match
    (Y ++ "-" ++ M ++ "-" ++ D ++ "T" ++ H ++ ":" ++ MI ++ tail)
  = let ms := iso8601.match_second tail in
    Some (iso8601.mkgroups (Some Y) (Some M) (Some D) (Some "T") (Some H)
            (Some MI) (fst (fst ms)) (snd (fst ms))
            (iso8601.match_timezone (snd ms))).
Proof.
  intros HlY HdY HlM HdM HlD HdD HlH HdH HlMI HdMI.
  unfold iso8601.ISO8601_REGEX_match.
  rewrite <- HlY at 1. rewrite (digits_exact_app Y _ HdY).
  change (iso8601.lit 45 ("-" ++ M ++ "-" ++ D ++ "T" ++ H ++ ":" ++ MI
                          ++ tail))
    with (Some (M ++ "-" ++ D ++ "T" ++ H ++ ":" ++ MI ++ tail)).
  cbv beta iota.
  rewrite (digits_1_2_app M _ HlM HdM).
  change (iso8601.lit 45 ("-" ++ D ++ "T" ++ H ++ ":" ++ MI ++ tail))
    with (Some (D ++ "T" ++ H ++ ":" ++ MI ++ tail)).
  cbv beta iota.
  rewrite (digits_1_2_app D _ HlD HdD).
  unfold iso8601.match_time.
  change (iso8601.any_char ("T" ++ H ++ ":" ++ MI ++ tail))
    with (Some ("T"%char, H ++ ":" ++ MI ++ tail)).
  cbv beta iota.
  rewrite <- HlH at 1. rewrite (digits_exact_app H _ HdH).
  change (iso8601.lit 58 (":" ++ MI ++ tail)) with (Some (MI ++ tail)).
  cbv beta iota.
  rewrite <- HlMI at 1. rewrite (digits_exact_app MI _ HdMI).
  destruct (iso8601.match_second tail) as [[ss f] r5]. reflexivity.
Qed.

(** Seconds, an optional fraction of digits, and what follows. *)
Lemma match_second_text (S U rest : string) :
  String.length S = 2%nat -> all_chars isdigit S = true ->
  all_chars isdigit U = true ->
  match rest with
  | String c _ => isdigit c = false
  | EmptyString => True
  end ->
  iso8601.lit 46 rest = None ->
  iso8601.match_second (":" ++ S ++ rest) = (Some S, None, rest)
  /\ (U <> EmptyString ->
      iso8601.match_second (":" ++ S ++ ("." ++ U) ++ rest)
      = (Some S, Some U, rest)).
Proof.
  intros HlS HdS HdU Hrest Hdot. unfold iso8601.match_second. split.
  - change (iso8601.lit 58 (":" ++ S ++ rest)) with (Some (S ++ rest)).
    cbv beta iota. rewrite <- HlS at 1. rewrite (digits_exact_app S _ HdS).
    rewrite Hdot. reflexivity.
  - intro HneU.
    change (iso8601.lit 58 (":" ++ S ++ ("." ++ U) ++ rest))
      with (Some (S ++ ("." ++ U) ++ rest)).
    cbv beta iota. rewrite <- HlS at 1. rewrite (digits_exact_app S _ HdS).
    change (iso8601.lit 46 (("." ++ U) ++ rest)) with (Some (U ++ rest)).
    cbv beta iota.
    rewrite (digits_plus_app U rest HdU HneU Hrest). reflexivity.
Qed.

(** [parse_date] gives a stable date back from its [isoformat]. *)
Lemma isoformat_parses (d : datetime) :
  stable_datetime d -> iso8601.parse_date (Some (isoformat d)) = Ok d.
Proof.
  destruct d as [y mo dd h mi s us tzo].
  unfold stable_datetime, valid_datetime.
  cbn [year month day hour minute second microsecond tz].
  intros ((Hy & Hmo & Hdd & Hh & Hmi & Hs & Hus) & (z & Htz & Hzm & Hzr) & Hfr).
  subst tzo.
  destruct (format_offset_parses z Hzm Hzr) as (Htzm & Htzp & Hdot & Hfirst).
  destruct (zfill_spec 4 y ltac:(lia)) as (HdY & _ & HiY).
  destruct (zfill_spec 2 mo ltac:(lia)) as (HdM & _ & HiM).
  destruct (zfill_spec 2 dd ltac:(lia)) as (HdD & _ & HiD).
  destruct (zfill_spec 2 h ltac:(lia)) as (HdH & _ & HiH).
  destruct (zfill_spec 2 mi ltac:(lia)) as (HdMI & _ & HiMI).
  destruct (zfill_spec 2 s ltac:(lia)) as (HdS & _ & HiS).
  destruct (zfill_spec 6 us ltac:(lia)) as (HdU & HneU & _).
  assert (Hdim : days_in_month y mo <= 31).
  { unfold days_in_month.
    repeat match goal with |- context [if ?c then _ else _] => destruct c end;
      lia. }
  pose proof (zfill_length_4 y ltac:(lia)) as HlY.
  pose proof (zfill_length_2 mo ltac:(lia)) as HlM.
  pose proof (zfill_length_2 dd ltac:(lia)) as HlD.
  pose proof (zfill_length_2 h ltac:(lia)) as HlH.
  pose proof (zfill_length_2 mi ltac:(lia)) as HlMI.
  pose proof (zfill_length_2 s ltac:(lia)) as HlS.
  destruct (match_second_text (zfill 2 s) (zfill 6 us)
              (_format_offset (Some z)) HlS HdS HdU Hfirst Hdot)
    as [Hsec0 Hsec1].
  unfold iso8601.parse_date, isoformat.
  cbn [year month day hour minute second microsecond tz].
  rewrite (regex_matches_full _ _ _ _ _ _ HlY HdY HlM HdM HlD HdD HlH HdH
             HlMI HdMI).
  cbv zeta.
  assert (Hnew : datetime_new y mo dd h mi s us (Some z)
                 = Ok (mkdatetime y mo dd h mi s us (Some z))).
  { unfold datetime_new.
    repeat match goal with
           | |- context [(?a <=? ?b) && (?c <=? ?e)] =>
               destruct (Z.leb_spec a b), (Z.leb_spec c e); try lia;
               cbn [andb negb]
           end.
    reflexivity. }
  destruct (Z.eqb_spec us 0) as [Hz0 | Hnz].
  - change (EmptyString ++ _format_offset (Some z))
      with (_format_offset (Some z)).
    rewrite Hsec0.
    cbn [fst snd iso8601.g_timezone iso8601.g_fraction iso8601.g_year
         iso8601.g_month iso8601.g_day iso8601.g_hour iso8601.g_minute
         iso8601.g_second].
    rewrite Htzm, Htzp. cbn [rbind].
    rewrite HiY, HiM, HiD, HiH, HiMI, HiS. cbn [rbind].
    subst us. exact Hnew.
  - destruct Hfr as [Hfr | Hfr]; [contradiction|].
    rewrite (Hsec1 HneU).
    cbn [fst snd iso8601.g_timezone iso8601.g_fraction iso8601.g_year
         iso8601.g_month iso8601.g_day iso8601.g_hour iso8601.g_minute
         iso8601.g_second].
    rewrite Htzm, Htzp. cbn [rbind]. rewrite Hfr. cbn [rbind].
    rewrite HiY, HiM, HiD, HiH, HiMI, HiS. cbn [rbind].
    exact Hnew.
Qed.

(** ** The round trip *)

Lemma element_of_list (l : list Value) :
  element_of (VList l)
  = let? cs := elements_of l in Ok (Elem (Some "array") [] None cs).
Proof. reflexivity. Qed.

Lemma leaf_element_text (name : option string) (s : string) :
  s <> EmptyString -> leaf_element name s = Elem name [] (Some s) [].
Proof. intro H. destruct s; [congruence | reflexivity]. Qed.

Lemma stable_list (l : list Value) : stable (VList l) <-> Forall stable l.
Proof.
  cbn [stable]. induction l as [|x r IH].
  - split; constructor.
  - split.
    + intros [Hx Hr]. constructor; [exact Hx | apply IH; exact Hr].
    + intro H. inversion H; subst. split; [assumption | apply IH; assumption].
Qed.

Lemma stable_dict (ordered : bool) (items : list (option string * Value)) :
  stable (VDict ordered items) ->
  ordered = true
  /\ exists items',
       items = str_items items'
       /\ NoDup (map fst items')
       /\ Forall (fun kv => fst kv <> EmptyString /\ stable (snd kv)) items'.
Proof.
  cbn [stable]. intros (Hord & Hnd & Hall). split; [exact Hord|].
  revert Hnd. induction items as [|[k x] r IH]; intro Hnd.
  - exists []. repeat split; constructor.
  - destruct Hall as ((s & -> & Hs) & Hx & Hr).
    cbn [map fst] in Hnd. inversion Hnd as [|? ? Hnotin Hnd']; subst.
    destruct (IH Hr Hnd') as (r' & -> & Hnd'' & Hall').
    exists ((s, x) :: r'). split; [reflexivity|]. split.
    + cbn [map fst]. constructor; [|exact Hnd''].
      intro Hin. apply Hnotin. unfold str_items. rewrite map_map.
      cbn [fst]. rewrite <- (map_map fst Some). apply in_map. exact Hin.
    + constructor; [split; assumption | exact Hall'].
Qed.

Lemma setitem_fresh (data : list (option string * Value))
    (key : option string) (value : Value) :
  ~ In key (map fst data) ->
  setitem data key value = (data ++ [(key, value)])%list.
Proof.
  induction data as [|[k v] r IH]; intro Hnotin; [reflexivity|].
  cbn [setitem app]. cbn [map fst] in Hnotin.
  destruct (opt_str_eqb k key) eqn:E.
  - apply opt_str_eqb_eq in E. exfalso. apply Hnotin. left. exact E.
  - rewrite IH; [reflexivity|]. intro H. apply Hnotin. right. exact H.
Qed.

Lemma key_value_elements_length (entries : list (string * Element)) :
  List.length (key_value_elements entries) = (2 * List.length entries)%nat.
Proof.
  induction entries as [|[k e] r IH]; [reflexivity|].
  unfold key_value_elements in *. cbn [flat_map app List.length].
  rewrite IH. lia.
Qed.

(** Reading back the children written for a dictionary. *)
Lemma read_pairs_entries (items : list (string * Value))
    (elems : list Element) :
  Forall2 (fun kv e => deserialize e = Ok (snd kv)) items elems ->
  Forall (fun kv => fst kv <> EmptyString) items ->
  NoDup (map fst items) ->
  forall data,
    (forall k, In k (map fst items) -> ~ In (Some k) (map fst data)) ->
    read_pairs (key_value_elements (combine (map fst items) elems)) data
    = Ok (data ++ str_items items)%list.
Proof.
  intros Hall. induction Hall as [|[k v] e items elems He Hall IH];
    intros Hne Hnd data Hfresh.
  - cbn. rewrite app_nil_r. reflexivity.
  - inversion Hne as [|? ? Hk Hne']; subst.
    cbn [map fst] in Hnd. inversion Hnd as [|? ? Hnotin Hnd']; subst.
    cbn [fst snd] in *.
    unfold key_value_elements. cbn [map fst combine flat_map app snd].
    fold (key_value_elements (combine (map fst items) elems)).
    rewrite (leaf_element_text _ _ Hk).
    cbn [read_pairs tag_of text_of opt_str_eqb].
    rewrite String.eqb_refl. cbn [negb]. rewrite He. cbn [rbind].
    rewrite setitem_fresh by (apply Hfresh; left; reflexivity).
    rewrite (IH Hne' Hnd').
    + rewrite <- app_assoc. reflexivity.
    + intros k' Hin Hin'. rewrite map_app in Hin'. apply in_app_or in Hin'.
      destruct Hin' as [Hin' | Hin'].
      * apply (Hfresh k'); [right; exact Hin | exact Hin'].
      * cbn in Hin'. destruct Hin' as [Heq | []]. inversion Heq; subst.
        contradiction.
Qed.

Lemma element_round_trip (v : Value) :
  stable v -> exists e, element_of v = Ok e /\ deserialize e = Ok v.
Proof.
  induction v as [ | b | n | x | s | bs | d | l IHl | ordered items IHitems | ]
    using Value_nested_ind; intro Hst.
  - eexists. split; reflexivity.
  - destruct b; eexists; split; reflexivity.
  - destruct (str_nonneg_spec (Z.abs n) (Z.abs_nonneg n)) as (_ & Hne & _).
    assert (Hs : str_int n <> EmptyString).
    { unfold str_int. destruct (Z.ltb_spec n 0); [discriminate|].
      rewrite Z.abs_eq in Hne by lia. exact Hne. }
    exists (Elem (Some "integer") [] (Some (str_int n)) []). split.
    + change (element_of (VInt n))
        with (Ok (leaf_element (Some "integer") (str_int n))).
      rewrite (leaf_element_text _ _ Hs). reflexivity.
    + change (deserialize (Elem (Some "integer") [] (Some (str_int n)) []))
        with (let? m := py_int (Some (str_int n)) in Ok (VInt m)).
      rewrite py_int_str_int. reflexivity.
  - destruct Hst as [Hnan Hback].
    assert (Hs : float_repr x <> EmptyString).
    { intro E. rewrite E in Hback. discriminate Hback. }
    exists (Elem (Some "real") [] (Some (float_repr x)) []). split.
    + change (element_of (VFloat x))
        with (Ok (leaf_element (Some "real") (float_repr x))).
      rewrite (leaf_element_text _ _ Hs). reflexivity.
    + change (deserialize (Elem (Some "real") [] (Some (float_repr x)) []))
        with (let? f := py_float (Some (float_repr x)) in Ok (VFloat f)).
      rewrite Hback. reflexivity.
  - cbn [stable] in Hst.
    exists (Elem (Some "string") [] (Some s) []). split.
    + change (element_of (VStr s))
        with (Ok (leaf_element (Some "string") s)).
      rewrite (leaf_element_text _ _ Hst). reflexivity.
    + reflexivity.
  - contradiction.
  - cbn [stable] in Hst. pose proof (isoformat_parses d Hst) as Hback.
    assert (Hs : isoformat d <> EmptyString).
    { intro E. rewrite E in Hback. discriminate Hback. }
    exists (Elem (Some "date") [] (Some (isoformat d)) []). split.
    + change (element_of (VDatetime d))
        with (Ok (leaf_element (Some "date") (isoformat d))).
      rewrite (leaf_element_text _ _ Hs). reflexivity.
    + change (deserialize (Elem (Some "date") [] (Some (isoformat d)) []))
        with (let? x := iso8601.parse_date (Some (isoformat d)) in
              Ok (VDatetime x)).
      rewrite Hback. reflexivity.
  - apply stable_list in Hst.
    assert (Hex : exists es, elements_of l = Ok es /\ read_children es = Ok l).
    { induction IHl as [|v l Hv Hl IH].
      - exists []. split; reflexivity.
      - inversion Hst as [|? ? Hsv Hsl]; subst.
        destruct (Hv Hsv) as (e & He & Hde).
        destruct (IH Hsl) as (es & Hes & Hdes).
        exists (e :: es). cbn [elements_of read_children].
        rewrite He, Hes, Hde, Hdes. split; reflexivity. }
    destruct Hex as (es & Hes & Hdes).
    exists (Elem (Some "array") [] None es).
    rewrite element_of_list, deserialize_array, Hes, Hdes.
    split; reflexivity.
  - destruct (stable_dict _ _ Hst) as (-> & items' & -> & Hnd & Hall).
    assert (Hex : exists elems,
               Forall2 (fun kv e => element_of (snd kv) = Ok e) items' elems
               /\ Forall2 (fun kv e => deserialize e = Ok (snd kv))
                          items' elems).
    { clear Hnd Hst. induction items' as [|[k v] r IH].
      - exists []. split; constructor.
      - inversion Hall as [|? ? [Hk Hv] Hall']; subst.
        unfold str_items in IHitems. cbn [map] in IHitems.
        inversion IHitems as [|? ? Hp Hps]; subst. cbn [fst snd] in *.
        destruct (Hp Hv) as (e & He & Hde).
        destruct (IH Hps Hall') as (es & Hes & Hdes).
        exists (e :: es). split; constructor; assumption. }
    destruct Hex as (elems & Hel & Hde).
    destruct (element_of_str_dict true items' elems Hnd Hel)
      as (entries & _ & -> & Helem).
    exists (Elem (Some "dict") [] None
              (key_value_elements (combine (map fst items') elems))).
    split; [exact Helem|].
    rewrite deserialize_dict.
    rewrite even_length_mod2.
    2:{ rewrite key_value_elements_length. rewrite Nat.even_mul.
        reflexivity. }
    rewrite (read_pairs_entries items' elems Hde).
    + reflexivity.
    + eapply Forall_impl; [|exact Hall]. intros kv [H _]. exact H.
    + exact Hnd.
    + intros k _ [].
  - contradiction.
Qed.

(** [totree(data)] is the [plist] element around [element_of data]. *)
Lemma totree_element_of (data : Value) :
  totree data
  = let? e := element_of data in
    Ok (Elem (Some "plist") [("version", "1.0")] None [e]).
Proof.
  unfold totree, PListBuilder.
  unfold bbind at 1. unfold bstart at 1. unfold bbind at 1.
  rewrite (serialize_returns data _ (Elem (Some "plist") [("version", "1.0")]
                                          None []) []).
  2:{ split; reflexivity. }
  destruct (element_of data) as [e|x]; reflexivity.
Qed.





(** * Further properties of the code *)

(** ** base64: decoding what was encoded *)

Lemma byte_range (x : byte) :
  0 <= byte_val x < 256 /\ byte_of_Z (byte_val x) = x.
Proof.
  destruct x; (split; [cbv; split; [discriminate | reflexivity] | reflexivity]).
Qed.

Lemma checked_first (x : byte) : check_first (byte_val x) = true.
Proof.
  assert (H : check_from 256 0 check_first = true) by (vm_compute; reflexivity).
  apply (check_from_spec _ _ _ H). pose proof (byte_range x). lia.
Qed.

Lemma checked_pairs (chk : Z -> Z -> bool) :
  check_from 256 0 (fun p => check_from 256 0 (chk p)) = true ->
  forall p y : byte, chk (byte_val p) (byte_val y) = true.
Proof.
  intros H p y.
  pose proof (byte_range p) as [Hp _]. pose proof (byte_range y) as [Hy _].
  apply (check_from_spec 256 0 (chk (byte_val p))); [|lia].
  apply (check_from_spec 256 0 (fun p => check_from 256 0 (chk p)) H). lia.
Qed.

Lemma checked_second (p y : byte) :
  check_second (byte_val p) (byte_val y) = true.
Proof. apply checked_pairs. vm_compute. reflexivity. Qed.

Lemma checked_third (p z : byte) :
  check_third (byte_val p) (byte_val z) = true.
Proof. apply checked_pairs. vm_compute. reflexivity. Qed.

Lemma checked_end (p : byte) :
  check_end_1 (byte_val p) = true /\ check_end_2 (byte_val p) = true.
Proof.
  assert (H1 : check_from 256 0 check_end_1 = true)
    by (vm_compute; reflexivity).
  assert (H2 : check_from 256 0 check_end_2 = true)
    by (vm_compute; reflexivity).
  pose proof (byte_range p).
  split; [apply (check_from_spec _ _ _ H1) | apply (check_from_spec _ _ _ H2)];
    lia.
Qed.

Lemma same_step_eq (a b : Z * Z * option byte) :
  same_step a b = true -> a = b.
Proof.
  destruct a as [[q l] o], b as [[q' l'] o']. unfold same_step.
  intro H. apply andb_true_iff in H. destruct H as [H Ho].
  apply andb_true_iff in H. destruct H as [Hq Hl].
  apply Z.eqb_eq in Hq. apply Z.eqb_eq in Hl. subst.
  destruct o as [x|], o' as [y|]; try discriminate; [|reflexivity].
  apply Byte.byte_dec_bl in Ho. subst. reflexivity.
Qed.

(** The decoding loop on an alphabet character. *)
Lemma a2b_loop_data (c : byte) (q dlc pads : Z) (r : list byte) :
  good_char c = true -> 0 <= q < 4 ->
  binascii.a2b_loop q dlc pads (c :: r)
  = match a2b_data q dlc (binascii.table_a2b_base64 c) with
    | (q', l', None) => binascii.a2b_loop q' l' 0 r
    | (q', l', Some b) =>
        let? out := binascii.a2b_loop q' l' 0 r in Ok (b :: out)
    end.
Proof.
  intros Hg Hq. unfold good_char in Hg. apply andb_true_iff in Hg.
  destruct Hg as [Ht Hp]. apply negb_true_iff in Hp. apply Z.ltb_lt in Ht.
  cbn [binascii.a2b_loop]. rewrite Hp.
  replace (64 <=? binascii.table_a2b_base64 c) with false
    by (symmetry; apply Z.leb_gt; lia).
  unfold a2b_data.
  assert (Hc : q = 0 \/ q = 1 \/ q = 2 \/ q = 3) by lia.
  destruct Hc as [-> | [-> | [-> | ->]]]; reflexivity.
Qed.

Lemma rbind_Ok_id {A} (r : result A) : rbind r (fun a => Ok a) = r.
Proof. destruct r; reflexivity. Qed.

Lemma mod3_plus3 (n : nat) : ((3 + n) mod 3 = n mod 3)%nat.
Proof.
  replace (3 + n)%nat with (n + 1 * 3)%nat by lia.
  apply Nat.Div0.mod_add.
Qed.

Ltac split_checks :=
  repeat match goal with
         | H : _ && _ = true |- _ => apply andb_true_iff in H; destruct H
         | H : Z.eqb _ _ = true |- _ => apply Z.eqb_eq in H
         | H : Byte.eqb _ _ = true |- _ => apply Byte.byte_dec_bl in H
         end.

(** The decoder follows the encoder: from each of the three positions in a
    group of three bytes, decoding what the encoder writes for [bin] gives
    the pending byte and [bin], and goes on with [tail] only when the
    encoder stopped at a group boundary. *)
Lemma decoder_follows_encoder (bin : list byte) :
  forall tail,
    binascii.a2b_loop 0 0 0 (binascii.b2a_loop 0 0 bin ++ tail)
    = decoded_then (List.length bin) bin tail
    /\ (forall p,
          binascii.a2b_loop 1 (Z.shiftr (byte_val p) 2) 0
            (binascii.b2a_loop (Z.land (byte_val p) 3) 2 bin ++ tail)
          = decoded_then (1 + List.length bin) (p :: bin) tail)
    /\ (forall p,
          binascii.a2b_loop 2 (Z.shiftr (byte_val p) 4) 0
            (binascii.b2a_loop (Z.land (byte_val p) 15) 4 bin ++ tail)
          = decoded_then (2 + List.length bin) (p :: bin) tail).
Proof.
  induction bin as [|x r IH]; intro tail.
  - split; [|split].
    + unfold decoded_then. cbn. apply eq_sym, rbind_Ok_id.
    + intro p. destruct (checked_end p) as [H1 _].
      unfold check_end_1 in H1.
      destruct (binascii.b2a_loop (Z.land (byte_val p) 3) 2 [])
        as [|c [|e1 [|e2 [|]]]]; try discriminate H1.
      split_checks. subst e1 e2.
      cbn [app]. rewrite a2b_loop_data by (assumption || lia).
      destruct (a2b_data 1 (Z.shiftr (byte_val p) 2)
                  (binascii.table_a2b_base64 c)) as [[q l] [b|]];
        [|discriminate].
      split_checks. subst q b.
      rewrite (proj2 (byte_range p)). reflexivity.
    + intro p. destruct (checked_end p) as [_ H2].
      unfold check_end_2 in H2.
      destruct (binascii.b2a_loop (Z.land (byte_val p) 15) 4 [])
        as [|c [|e1 [|]]]; try discriminate H2.
      split_checks. subst e1.
      cbn [app]. rewrite a2b_loop_data by (assumption || lia).
      destruct (a2b_data 2 (Z.shiftr (byte_val p) 4)
                  (binascii.table_a2b_base64 c)) as [[q l] [b|]];
        [|discriminate].
      split_checks. subst q b.
      rewrite (proj2 (byte_range p)). reflexivity.
  - destruct (IH tail) as (IH0 & IH1 & IH2). split; [|split].
    + pose proof (checked_first x) as H. unfold check_first in H.
      rewrite (proj2 (byte_range x)) in H.
      cbn [binascii.b2a_loop].
      destruct (binascii.b2a_step 0 0 x) as [[out lc] lb].
      destruct out as [|c [|]]; try discriminate H.
      split_checks. subst lc lb.
      cbn [app]. rewrite a2b_loop_data by (assumption || lia).
      match goal with
      | H : same_step _ _ = true |- _ => rewrite (same_step_eq _ _ H)
      end.
      rewrite IH1. reflexivity.
    + intro p. pose proof (checked_second p x) as H. unfold check_second in H.
      rewrite (proj2 (byte_range x)), (proj2 (byte_range p)) in H.
      cbn [binascii.b2a_loop].
      destruct (binascii.b2a_step (Z.land (byte_val p) 3) 2 x)
        as [[out lc] lb].
      destruct out as [|c [|]]; try discriminate H.
      split_checks. subst lc lb.
      cbn [app]. rewrite a2b_loop_data by (assumption || lia).
      match goal with
      | H : same_step _ _ = true |- _ => rewrite (same_step_eq _ _ H)
      end.
      rewrite IH2. unfold decoded_then. cbn [List.length].
      replace (1 + S (List.length r))%nat with (2 + List.length r)%nat by lia.
      destruct (Nat.eqb ((2 + List.length r) mod 3) 0); [|reflexivity].
      destruct (binascii.a2b_loop 0 0 0 tail); reflexivity.
    + intro p. pose proof (checked_third p x) as H. unfold check_third in H.
      rewrite (proj2 (byte_range x)), (proj2 (byte_range p)) in H.
      cbn [binascii.b2a_loop].
      destruct (binascii.b2a_step (Z.land (byte_val p) 15) 4 x)
        as [[out lc] lb].
      destruct out as [|c1 [|c2 [|]]]; try discriminate H.
      split_checks.
      destruct (a2b_data 2 (Z.shiftr (byte_val p) 4)
                  (binascii.table_a2b_base64 c1)) as [[q l] [b|]] eqn:E1;
        [|discriminate].
      split_checks. subst lc lb q b. cbn [app].
      rewrite a2b_loop_data by (assumption || lia). rewrite E1.
      rewrite a2b_loop_data by (assumption || lia).
      match goal with
      | H : same_step _ _ = true |- _ => rewrite (same_step_eq _ _ H)
      end.
      rewrite IH0. unfold decoded_then. cbn [List.length].
      replace (2 + S (List.length r))%nat with (3 + List.length r)%nat by lia.
      rewrite mod3_plus3.
      destruct (Nat.eqb (List.length r mod 3) 0); [|reflexivity].
      destruct (binascii.a2b_loop 0 0 0 tail); reflexivity.
Qed.

(** The newline that ends a line is skipped. *)
Lemma a2b_loop_newline (tail : list byte) :
  binascii.a2b_loop 0 0 0 (byte_of_Z 10 :: tail)
  = binascii.a2b_loop 0 0 0 tail.
Proof. reflexivity. Qed.

Lemma firstn_short {A} (n : nat) (l : list A) :
  (List.length (firstn n l) < n)%nat -> firstn n l = l.
Proof.
  intro H. apply firstn_all2.
  rewrite length_firstn in H. lia.
Qed.

Lemma decode_chunks (fuel : nat) :
  forall s, (List.length s <= fuel)%nat ->
            binascii.a2b_loop 0 0 0 (base64.encode_chunks fuel s) = Ok s.
Proof.
  induction fuel as [|fuel IH]; intros s Hlen.
  - destruct s; [reflexivity | cbn in Hlen; lia].
  - destruct s as [|x r]; [reflexivity|].
    set (s := x :: r) in *.
    change (base64.encode_chunks (S fuel) s)
      with (binascii.b2a_base64 (firstn base64.MAXBINSIZE s)
              ++ base64.encode_chunks fuel (skipn base64.MAXBINSIZE s))%list.
    unfold binascii.b2a_base64. rewrite <- app_assoc. cbn [app].
    rewrite (proj1 (decoder_follows_encoder _ _)).
    unfold decoded_then.
    destruct (Nat.eqb (List.length (firstn base64.MAXBINSIZE s) mod 3) 0)
      eqn:E.
    + rewrite a2b_loop_newline, IH.
      * cbn [rbind]. rewrite firstn_skipn. reflexivity.
      * rewrite length_skipn. subst s. cbn [List.length] in *.
        unfold base64.MAXBINSIZE. lia.
    + apply Nat.eqb_neq in E. f_equal. apply firstn_short.
      pose proof (firstn_le_length base64.MAXBINSIZE s) as Hle.
      destruct (Nat.eq_dec (List.length (firstn base64.MAXBINSIZE s))
                           base64.MAXBINSIZE) as [Heq|Hne]; [|lia].
      rewrite Heq in E. exfalso. apply E. reflexivity.
Qed.

(** Decoding what [encodebytes] wrote gives the bytes back. *)
Lemma decodebytes_encodebytes (s : list byte) :
  base64.decodebytes (base64.encodebytes s) = Ok s.
Proof. apply decode_chunks. apply Nat.le_refl. Qed.

(** Every character the encoder can look up is in the alphabet. *)
Lemma b2a_char_good (n : Z) :
  0 <= n < 64 -> good_char (binascii.b2a_char n) = true.
Proof.
  intro Hn.
  assert (H : check_from 64 0 (fun n => good_char (binascii.b2a_char n))
              = true) by (vm_compute; reflexivity).
  apply (check_from_spec 64 0 _ H). lia.
Qed.

Lemma good_char_keep (c : byte) : good_char c = true -> keep_byte c = true.
Proof.
  unfold good_char, keep_byte. intro H. apply andb_true_iff in H.
  destruct H as [H _]. rewrite H. reflexivity.
Qed.

Lemma land_63 (a : Z) : 0 <= Z.land a 63 < 64.
Proof.
  change 63 with (Z.ones 6). rewrite Z.land_ones by lia.
  apply Z.mod_pos_bound. reflexivity.
Qed.

Lemma b2a_step_chars (lc lb : Z) (x : byte) :
  Forall (fun c => good_char c = true) (fst (fst (binascii.b2a_step lc lb x))).
Proof.
  unfold binascii.b2a_step. cbv zeta.
  destruct (lb + 8 >=? 12); cbn [fst];
    repeat constructor; apply b2a_char_good, land_63.
Qed.

(** The encoder writes alphabet characters and padding only. *)
Lemma b2a_loop_chars (bin : list byte) :
  forall lc lb,
    Forall (fun c => keep_byte c = true) (binascii.b2a_loop lc lb bin).
Proof.
  induction bin as [|x r IH]; intros lc lb.
  - cbn [binascii.b2a_loop].
    assert (H3 : 0 <= Z.shiftl (Z.land lc 3) 4 < 64).
    { change 3 with (Z.ones 2). rewrite Z.land_ones, Z.shiftl_mul_pow2 by lia.
      pose proof (Z.mod_pos_bound lc (2 ^ 2) eq_refl).
      change (2 ^ 2) with 4 in *. change (2 ^ 4) with 16. lia. }
    assert (H15 : 0 <= Z.shiftl (Z.land lc 15) 2 < 64).
    { change 15 with (Z.ones 4). rewrite Z.land_ones, Z.shiftl_mul_pow2 by lia.
      pose proof (Z.mod_pos_bound lc (2 ^ 4) eq_refl).
      change (2 ^ 4) with 16 in *. change (2 ^ 2) with 4. lia. }
    destruct (lb =? 2); [|destruct (lb =? 4)]; repeat constructor;
      apply good_char_keep, b2a_char_good; assumption.
  - cbn [binascii.b2a_loop]. pose proof (b2a_step_chars lc lb x) as Hs.
    destruct (binascii.b2a_step lc lb x) as [[out lc'] lb']. cbn [fst] in Hs.
    apply Forall_app. split; [|apply IH].
    eapply Forall_impl; [|exact Hs]. intros c Hc. apply good_char_keep, Hc.
Qed.

Lemma encode_chunks_chars (fuel : nat) :
  forall s,
    Forall (fun c => keep_byte c = true \/ c = byte_of_Z 10)
           (base64.encode_chunks fuel s).
Proof.
  induction fuel as [|fuel IH]; intro s.
  - destruct s; constructor.
  - destruct s as [|x r]; [constructor|].
    set (s := x :: r).
    change (base64.encode_chunks (S fuel) s)
      with (binascii.b2a_base64 (firstn base64.MAXBINSIZE s)
              ++ base64.encode_chunks fuel (skipn base64.MAXBINSIZE s))%list.
    apply Forall_app. split; [|apply IH].
    unfold binascii.b2a_base64. apply Forall_app. split.
    + eapply Forall_impl; [|apply b2a_loop_chars]. intros c Hc. left. exact Hc.
    + constructor; [right; reflexivity | constructor].
Qed.

(** A byte of a base64 text is one character of ASCII, and encoding that
    character gives the byte back. *)
Lemma line_byte_char (x : byte) :
  keep_byte x = true \/ x = byte_of_Z 10 ->
  (byte_val x <? 128) = true
  /\ (ord (chr (byte_val x)) <? 128) = true
  /\ byte_of_Z (ord (chr (byte_val x))) = x
  /\ is_b64_line_char (chr (byte_val x)) = true
  /\ is_newline (chr (byte_val x)) = Byte.eqb x (byte_of_Z 10).
Proof.
  intros [H | ->]; [|repeat split; reflexivity].
  revert H. destruct x; vm_compute; intro H; try discriminate H;
    repeat split; reflexivity.
Qed.

Lemma bytes_decode_line (l : list byte) :
  Forall (fun c => keep_byte c = true \/ c = byte_of_Z 10) l ->
  exists s,
    bytes_decode l = Ok s /\ str_encode s = l
    /\ all_chars is_b64_line_char s = true.
Proof.
  induction 1 as [|x r Hx Hr (s & Hd & He & Ha)].
  - exists EmptyString. repeat split.
  - destruct (line_byte_char x Hx) as (H1 & H2 & H3 & H4 & _).
    exists (String (chr (byte_val x)) s). repeat split.
    + cbn [bytes_decode]. cbv zeta. rewrite H1, Hd. reflexivity.
    + cbn [str_encode]. cbv zeta. rewrite H2, H3, He. reflexivity.
    + cbn [all_chars]. rewrite H4, Ha. reflexivity.
Qed.

(** X1.  Encoding always succeeds and decoding undoes it: for every byte
    string, [encodeb2s] returns a text of alphabet characters, padding and
    newlines, and [decodes2b] of that text is the byte string. *)
Theorem base64_round_trip (b : list byte) :
  exists s,
    _b64.encodeb2s b = Ok s
    /\ all_chars is_b64_line_char s = true
    /\ _b64.decodes2b (Some s) = Ok b.
Proof.
  destruct (bytes_decode_line (base64.encodebytes b)
              (encode_chunks_chars _ _)) as (s & Hd & He & Ha).
  exists s. split; [exact Hd|]. split; [exact Ha|].
  unfold _b64.decodes2b. rewrite He. apply decodebytes_encodebytes.
Qed.

(** ** Whitespace and base64 *)

Lemma space_not_b64 (c : ascii) : isspace c = true -> is_b64 c = false.
Proof.
  destruct c as [[] [] [] [] [] [] [] []]; vm_compute; intro H;
    try discriminate H; reflexivity.
Qed.

Lemma newline_is_space (c : ascii) :
  (ord c =? 10) || (ord c =? 13) = true -> isspace c = true.
Proof.
  destruct c as [[] [] [] [] [] [] [] []]; vm_compute; intro H;
    try discriminate H; reflexivity.
Qed.

Lemma filter_spaces (s : string) :
  all_chars isspace s = true -> str_filter is_b64 s = EmptyString.
Proof.
  induction s as [|c r IH]; [reflexivity|]. cbn [all_chars str_filter].
  intro H. apply andb_true_iff in H. destruct H as [Hc Hr].
  rewrite (space_not_b64 c Hc). apply IH, Hr.
Qed.

Lemma filter_scan (s : string) :
  str_filter is_b64 (WHITESPACE_RE.scan s) = str_filter is_b64 s.
Proof.
  induction s as [|c r IH]; [reflexivity|]. cbn [WHITESPACE_RE.scan].
  destruct ((ord c =? 10) || (ord c =? 13)) eqn:En.
  - cbn [str_filter].
    rewrite (space_not_b64 c (newline_is_space c En)). exact IH.
  - destruct (isspace c && all_chars isspace r) eqn:Es.
    + apply andb_true_iff in Es. destruct Es as [Hc Hr].
      cbn [str_filter]. rewrite (space_not_b64 c Hc), (filter_spaces r Hr).
      reflexivity.
    + cbn [str_filter]. rewrite IH. reflexivity.
Qed.

Lemma filter_drop_spaces (s : string) :
  str_filter is_b64 (drop_while isspace s) = str_filter is_b64 s.
Proof.
  induction s as [|c r IH]; [reflexivity|]. cbn [drop_while].
  destruct (isspace c) eqn:Hc; [|reflexivity].
  cbn [str_filter]. rewrite (space_not_b64 c Hc). exact IH.
Qed.

Lemma filter_sub (s : string) :
  str_filter is_b64 (WHITESPACE_RE.sub s) = str_filter is_b64 s.
Proof.
  destruct s as [|c r]; [reflexivity|]. unfold WHITESPACE_RE.sub.
  destruct (isspace c); rewrite filter_scan; [apply filter_drop_spaces|];
    reflexivity.
Qed.

Lemma decodes2b_filter (s : string) :
  _b64.decodes2b (Some s) = _b64.decodes2b (Some (str_filter is_b64 s)).
Proof.
  unfold _b64.decodes2b, base64.decodebytes, binascii.a2b_base64.
  rewrite (a2b_loop_skips (str_encode s)), filter_str_encode. reflexivity.
Qed.

(** X2.  Whitespace does not matter to the decoder: a text decodes (or
    fails) the same with [WHITESPACE_RE] matches removed, and the same as
    any text with the same alphabet and padding characters in the same
    order. *)
Theorem decoding_ignores_whitespace (s t : string) :
  _b64.decodes2b (Some (WHITESPACE_RE.sub s)) = _b64.decodes2b (Some s)
  /\ (str_filter is_b64 s = str_filter is_b64 t ->
      _b64.decodes2b (Some s) = _b64.decodes2b (Some t)).
Proof.
  split.
  - rewrite (decodes2b_filter (WHITESPACE_RE.sub s)), filter_sub.
    symmetry. apply decodes2b_filter.
  - intro H. rewrite (decodes2b_filter s), (decodes2b_filter t), H.
    reflexivity.
Qed.

(** ** The payload of a [data] element *)

Lemma all_chars_filter (p : ascii -> bool) (s : string) :
  all_chars p (str_filter p s) = true.
Proof.
  induction s as [|c r IH]; [reflexivity|]. cbn [str_filter].
  destruct (p c) eqn:E; [|exact IH]. cbn [all_chars]. rewrite E. exact IH.
Qed.

Lemma line_char_cases (c : ascii) :
  is_b64_line_char c = true ->
  (is_b64 c = true /\ (ord c =? 10) || (ord c =? 13) = false
   /\ isspace c = false)
  \/ (is_b64 c = false /\ (ord c =? 10) || (ord c =? 13) = true).
Proof.
  destruct c as [[] [] [] [] [] [] [] []]; vm_compute; intro H;
    try discriminate H; auto.
Qed.

Lemma scan_line (s : string) :
  all_chars is_b64_line_char s = true ->
  WHITESPACE_RE.scan s = str_filter is_b64 s.
Proof.
  induction s as [|c r IH]; [reflexivity|]. cbn [all_chars]. intro H.
  apply andb_true_iff in H. destruct H as [Hc Hr].
  cbn [WHITESPACE_RE.scan str_filter].
  destruct (line_char_cases c Hc) as [(Hb & Hn & Hs) | (Hb & Hn)];
    rewrite Hb, Hn.
  - rewrite Hs. cbn [andb]. rewrite (IH Hr). reflexivity.
  - apply IH, Hr.
Qed.

Lemma all_chars_drop_while (p q : ascii -> bool) (s : string) :
  all_chars p s = true -> all_chars p (drop_while q s) = true.
Proof.
  induction s as [|c r IH]; [reflexivity|]. intro H. cbn [drop_while].
  destruct (q c); [|exact H]. cbn [all_chars] in H.
  apply andb_true_iff in H. apply IH, H.
Qed.

(** On a base64 text laid out in lines, [WHITESPACE_RE] leaves the
    alphabet and padding characters. *)
Lemma sub_line (s : string) :
  all_chars is_b64_line_char s = true ->
  WHITESPACE_RE.sub s = str_filter is_b64 s.
Proof.
  intro H. destruct s as [|c r]; [reflexivity|]. unfold WHITESPACE_RE.sub.
  destruct (isspace c).
  - rewrite scan_line by (apply all_chars_drop_while; exact H).
    apply filter_drop_spaces.
  - apply scan_line, H.
Qed.

(** The encoder writes four characters for every three bytes begun. *)
Lemma b2a_loop_length (bin : list byte) :
  List.length (binascii.b2a_loop 0 0 bin)
  = (4 * ((List.length bin + 2) / 3))%nat
  /\ (forall p,
        S (List.length (binascii.b2a_loop (Z.land (byte_val p) 3) 2 bin))
        = (4 * ((List.length bin + 3) / 3))%nat)
  /\ (forall p,
        S (S (List.length
                (binascii.b2a_loop (Z.land (byte_val p) 15) 4 bin)))
        = (4 * ((List.length bin + 4) / 3))%nat).
Proof.
  induction bin as [|x r (IH0 & IH1 & IH2)].
  - split; [reflexivity|]. split; intro p.
    + destruct (checked_end p) as [H1 _]. unfold check_end_1 in H1.
      destruct (binascii.b2a_loop (Z.land (byte_val p) 3) 2 [])
        as [|c [|e1 [|e2 [|]]]]; try discriminate H1. reflexivity.
    + destruct (checked_end p) as [_ H2]. unfold check_end_2 in H2.
      destruct (binascii.b2a_loop (Z.land (byte_val p) 15) 4 [])
        as [|c [|e1 [|]]]; try discriminate H2. reflexivity.
  - assert (Hdiv : forall n, ((n + 3) / 3 = S (n / 3))%nat).
    { intro n. replace (n + 3)%nat with (n + 1 * 3)%nat by lia.
      rewrite Nat.div_add by lia. lia. }
    split; [|split]; [|intro p|intro p]; cbn [binascii.b2a_loop List.length].
    + pose proof (checked_first x) as H. unfold check_first in H.
      rewrite (proj2 (byte_range x)) in H.
      destruct (binascii.b2a_step 0 0 x) as [[out lc] lb].
      destruct out as [|c [|]]; try discriminate H.
      split_checks. subst lc lb. cbn [app List.length].
      rewrite (IH1 x). f_equal. f_equal. lia.
    + pose proof (checked_second p x) as H. unfold check_second in H.
      rewrite (proj2 (byte_range x)), (proj2 (byte_range p)) in H.
      destruct (binascii.b2a_step (Z.land (byte_val p) 3) 2 x)
        as [[out lc] lb].
      destruct out as [|c [|]]; try discriminate H.
      split_checks. subst lc lb. cbn [app List.length].
      rewrite (IH2 x). f_equal. f_equal. lia.
    + pose proof (checked_third p x) as H. unfold check_third in H.
      rewrite (proj2 (byte_range x)), (proj2 (byte_range p)) in H.
      destruct (binascii.b2a_step (Z.land (byte_val p) 15) 4 x)
        as [[out lc] lb].
      destruct out as [|c1 [|c2 [|]]]; try discriminate H.
      split_checks. subst lc lb. cbn [app List.length].
      rewrite IH0.
      replace (S (List.length r) + 4)%nat
        with ((List.length r + 2) + 3)%nat by lia.
      rewrite Hdiv. lia.
Qed.

Lemma filter_all {A} (p : A -> bool) (l : list A) :
  Forall (fun x => p x = true) l -> filter p l = l.
Proof.
  induction 1 as [|x r Hx Hr IH]; [reflexivity|].
  cbn [filter]. rewrite Hx, IH. reflexivity.
Qed.

Lemma encode_chunks_length (fuel : nat) :
  forall s,
    (List.length s <= fuel)%nat ->
    List.length (filter keep_byte (base64.encode_chunks fuel s))
    = (4 * ((List.length s + 2) / 3))%nat.
Proof.
  induction fuel as [|fuel IH]; intros s Hlen.
  - destruct s; [reflexivity | cbn in Hlen; lia].
  - destruct s as [|x r]; [reflexivity|].
    set (s := x :: r) in *.
    change (base64.encode_chunks (S fuel) s)
      with (binascii.b2a_base64 (firstn base64.MAXBINSIZE s)
              ++ base64.encode_chunks fuel (skipn base64.MAXBINSIZE s))%list.
    unfold binascii.b2a_base64. rewrite !filter_app, !length_app.
    rewrite (filter_all _ _ (b2a_loop_chars _ 0 0)).
    rewrite (proj1 (b2a_loop_length _)).
    change (List.length (filter keep_byte [byte_of_Z 10])) with 0%nat.
    assert (Hs : (0 < List.length s)%nat) by (subst s; cbn; lia).
    rewrite IH by (rewrite length_skipn; unfold base64.MAXBINSIZE; lia).
    rewrite length_firstn, length_skipn. unfold base64.MAXBINSIZE.
    destruct (Nat.le_gt_cases 57 (List.length s)) as [Hge | Hlt].
    + rewrite Nat.min_l by lia.
      replace (List.length s + 2)%nat
        with ((List.length s - 57 + 2) + 19 * 3)%nat by lia.
      rewrite Nat.div_add by lia. change ((57 + 2) / 3)%nat with 19%nat. lia.
    + rewrite Nat.min_r by lia.
      replace (List.length s - 57)%nat with 0%nat by lia.
      change ((0 + 2) / 3)%nat with 0%nat. lia.
Qed.

Lemma b64_char_low (c : ascii) : is_b64 c = true -> (ord c <? 128) = true.
Proof.
  destruct c as [[] [] [] [] [] [] [] []]; vm_compute; intro H;
    try discriminate H; reflexivity.
Qed.

Lemma str_encode_length (t : string) :
  all_chars is_b64 t = true -> List.length (str_encode t) = String.length t.
Proof.
  induction t as [|c r IH]; [reflexivity|]. cbn [all_chars]. intro H.
  apply andb_true_iff in H. destruct H as [Hc Hr].
  cbn [str_encode]. cbv zeta. rewrite (b64_char_low c Hc).
  cbn [List.length String.length]. rewrite (IH Hr). reflexivity.
Qed.

(** What [serialize] puts into a [data] element. *)
Lemma payload_of_bytes (b : list byte) :
  exists t,
    element_of (VBytes b)
    = Ok (Elem (Some "data") [] None [leaf_element None t])
    /\ all_chars is_b64 t = true
    /\ String.length t = (4 * ((List.length b + 2) / 3))%nat
    /\ _b64.decodes2b (Some t) = Ok b.
Proof.
  destruct (bytes_decode_line (base64.encodebytes b)
              (encode_chunks_chars _ _)) as (s & Hd & He & Ha).
  exists (str_filter is_b64 s). split; [|split; [|split]].
  - change (element_of (VBytes b))
      with (let? s := _b64.encodeb2s b in
            Ok (Elem (Some "data") [] None
                  [leaf_element None (WHITESPACE_RE.sub s)])).
    unfold _b64.encodeb2s. rewrite Hd. cbn [rbind].
    rewrite (sub_line s Ha). reflexivity.
  - apply all_chars_filter.
  - rewrite <- str_encode_length by apply all_chars_filter.
    rewrite <- filter_str_encode, He.
    apply encode_chunks_length. apply Nat.le_refl.
  - rewrite <- decodes2b_filter. unfold _b64.decodes2b. rewrite He.
    apply decodebytes_encodebytes.
Qed.

(** X3.  The [data] element [serialize] returns for a byte string has no
    text of its own and one tagless child; the child carries the base64 of
    the bytes on one line: four alphabet or padding characters for every
    three bytes begun, nothing else, and every text with these characters
    in this order, whatever else is between them, decodes to the bytes. *)
Theorem data_element_payload (b : list byte) :
  exists t,
    data_elem (VBytes b)
    = Ok (Elem (Some "data") [] None [leaf_element None t])
    /\ all_chars is_b64 t = true
    /\ String.length t = (4 * ((List.length b + 2) / 3))%nat
    /\ (forall s, str_filter is_b64 s = t ->
                  _b64.decodes2b (Some s) = Ok b).
Proof.
  destruct (payload_of_bytes b) as (t & He & Ha & Hl & Hd).
  exists t. rewrite data_elem_element_of.
  split; [exact He|]. split; [exact Ha|]. split; [exact Hl|].
  intros s Hs. rewrite (decodes2b_filter s), Hs. exact Hd.
Qed.

(** X4.  No byte string survives the round trip through a tree: [totree]
    succeeds, and [fromtree] on its result raises [AttributeError],
    because [deserialize] reads the text of the [data] element itself,
    which [serialize] leaves empty. *)
Theorem bytes_never_read_back_from_tree (b : list byte) :
  exists tree,
    totree (VBytes b) = Ok tree
    /\ fromtree tree
       = Raise (AttributeError "'NoneType' object has no attribute 'encode'").
Proof.
  destruct (payload_of_bytes b) as (t & He & _).
  exists (Elem (Some "plist") [("version", "1.0")] None
            [Elem (Some "data") [] None [leaf_element None t]]).
  rewrite totree_element_of, He. split; reflexivity.
Qed.

(** ** What [serialize] does to the builder, and when it raises *)

(** X5.  On a builder with no pending text and an open element,
    [serialize] either raises, or returns an element and leaves the
    builder with that element appended to the open one, nothing pending
    and the elements further out untouched; the element it returns, and
    whether it raises, are those of [PListBuilder(data).data_elem]: they do not
    depend on the builder. *)
Theorem serialize_appends_one_child (v : Value) (b : TreeBuilder.t)
    (parent : Element) (rest : list Element) :
  ready b parent rest ->
  match serialize v b with
  | Ok (e, b') =>
      data_elem v = Ok e
      /\ TreeBuilder._data b' = []
      /\ TreeBuilder._elem b' = append_child e parent :: rest
      /\ TreeBuilder._root b' = TreeBuilder._root b
  | Raise x => data_elem v = Raise x
  end.
Proof.
  intro Hready. rewrite (serialize_returns v b parent rest Hready).
  rewrite data_elem_element_of.
  destruct (element_of v) as [e|x]; [|reflexivity].
  repeat split; reflexivity.
Qed.

Lemma serialize_appends_one_child_witness :
  ready (TreeBuilder.start (Some "array") [] TreeBuilder.init)
        (Elem (Some "array") [] None []) []
  /\ match serialize (VList [VInt 1; VBytes [x41]])
             (TreeBuilder.start (Some "array") [] TreeBuilder.init) with
     | Ok (e, b') =>
         data_elem (VList [VInt 1; VBytes [x41]]) = Ok e
         /\ TreeBuilder._data b' = []
         /\ TreeBuilder._elem b'
            = append_child e (Elem (Some "array") [] None []) :: []
         /\ TreeBuilder._root b'
            = TreeBuilder._root
                (TreeBuilder.start (Some "array") [] TreeBuilder.init)
     | Raise x => data_elem (VList [VInt 1; VBytes [x41]]) = Raise x
     end.
Proof.
  split; [split; reflexivity|].
  apply (serialize_appends_one_child (VList [VInt 1; VBytes [x41]])
           (TreeBuilder.start (Some "array") [] TreeBuilder.init)
           (Elem (Some "array") [] None []) []).
  split; reflexivity.
Defined.

Lemma insert_key_raises (x : option string) (l : list (option string)) :
  forall e, insert_key x l = Raise e -> is_TypeError e = true.
Proof.
  induction l as [|y r IH]; intros e H; [discriminate|].
  cbn [insert_key] in H. destruct x as [x|], y as [y|]; cbn [key_lt rbind] in H;
    try (inversion H; reflexivity).
  destruct (String.ltb x y); [discriminate|].
  destruct (insert_key (Some x) r) as [r'|e'] eqn:E; cbn [rbind] in H;
    [discriminate|]. inversion H; subst. apply IH. reflexivity.
Qed.

Lemma insert_key_in (x : option string) (l : list (option string)) :
  forall l', insert_key x l = Ok l' ->
             forall k, In k l' -> k = x \/ In k l.
Proof.
  induction l as [|y r IH]; intros l' H k Hin.
  - inversion H; subst. destruct Hin as [<- | []]. left. reflexivity.
  - cbn [insert_key] in H.
    destruct (key_lt x y) as [lt|e]; cbn [rbind] in H; [|discriminate].
    destruct lt.
    + inversion H; subst. destruct Hin as [<- | Hin]; [left | right]; auto.
    + destruct (insert_key x r) as [r'|e] eqn:E; cbn [rbind] in H;
        [|discriminate]. inversion H; subst.
      destruct Hin as [<- | Hin]; [right; left; reflexivity|].
      destruct (IH r' eq_refl k Hin) as [-> | Hr]; [left | right; right]; auto.
Qed.

Lemma sorted_raises (l : list (option string)) :
  forall e, sorted l = Raise e -> is_TypeError e = true.
Proof.
  induction l as [|x r IH]; intros e H; [discriminate|].
  cbn [sorted] in H. destruct (sorted r) as [r'|e'] eqn:E; cbn [rbind] in H.
  - eapply insert_key_raises. exact H.
  - inversion H; subst. apply IH. reflexivity.
Qed.

Lemma sorted_in (l : list (option string)) :
  forall l', sorted l = Ok l' -> forall k, In k l' -> In k l.
Proof.
  induction l as [|x r IH]; intros l' H k Hin.
  - inversion H; subst. exact Hin.
  - cbn [sorted] in H. destruct (sorted r) as [r'|e'] eqn:E; cbn [rbind] in H;
      [|discriminate].
    destruct (insert_key_in x r' l' H k Hin) as [-> | Hr];
      [left; reflexivity | right; apply (IH r' eq_refl k Hr)].
Qed.

Lemma lookup_present {A} (l : list (option string * A)) (key : option string) :
  In key (map fst l) -> exists a, lookup l key = Some a /\ In a (map snd l).
Proof.
  induction l as [|[k a] r IH]; intro Hin; [contradiction|].
  cbn [lookup map fst snd] in *. destruct (opt_str_eqb k key) eqn:E.
  - exists a. split; [reflexivity | left; reflexivity].
  - destruct Hin as [Heq | Hin].
    + subst. rewrite opt_str_eqb_refl in E. discriminate.
    + destruct (IH Hin) as (a' & Ha & Hin'). exists a'. split; [exact Ha|].
      right. exact Hin'.
Qed.

(** The children of a [dict] element: no key is missing, and what raises
    is the serialization of a value. *)
Lemma dict_children_cases
    (values : list (option string * result Element))
    (tags : list (option string)) :
  (forall k, In k tags -> In k (map fst values)) ->
  match dict_children values tags with
  | Ok _ => True
  | Raise x => In (Raise x) (map snd values)
  end
  /\ (Forall (fun r => is_ok r = true) (map snd values) ->
      is_ok (dict_children values tags) = true).
Proof.
  induction tags as [|key tags IH]; intro Hin; [split; [exact I | reflexivity]|].
  cbn [dict_children].
  destruct (lookup_present values key (Hin key (or_introl eq_refl)))
    as (r & Hr & Hrin).
  rewrite Hr.
  destruct (IH (fun k Hk => Hin k (or_intror Hk))) as [IH1 IH2].
  split.
  - destruct r as [e|x]; cbn [rbind]; [|exact Hrin].
    destruct (dict_children values tags) as [cs|x]; cbn [rbind];
      [exact I | exact IH1].
  - intro Hall. pose proof (IH2 Hall) as Hok.
    rewrite Forall_forall in Hall. specialize (Hall r Hrin).
    destruct r as [e|x]; [|discriminate]. cbn [rbind].
    destruct (dict_children values tags); [reflexivity | discriminate].
Qed.

Lemma elements_of_cases (l : list Value) :
  match elements_of l with
  | Ok _ => True
  | Raise x => In (Raise x) (map element_of l)
  end
  /\ (Forall (fun r => is_ok r = true) (map element_of l) ->
      is_ok (elements_of l) = true).
Proof.
  induction l as [|v r [IH1 IH2]]; [split; [exact I | reflexivity]|].
  cbn [elements_of map]. split.
  - destruct (element_of v) as [e|x]; cbn [rbind]; [|left; reflexivity].
    destruct (elements_of r) as [es|x]; cbn [rbind]; [exact I|].
    right. exact IH1.
  - intro Hall. inversion Hall as [|? ? Hv Hr]; subst.
    destruct (element_of v) as [e|x]; [|discriminate]. cbn [rbind].
    specialize (IH2 Hr). destruct (elements_of r); [reflexivity | discriminate].
Qed.

Lemma tags_of_dict (ordered : bool) (items : list (option string * Value)) :
  match (if ordered then Ok (map fst items) else sorted (map fst items)) with
  | Ok tags => forall k, In k tags -> In k (map fst items)
  | Raise e => is_TypeError e = true
  end.
Proof.
  destruct ordered; [intros k H; exact H|].
  destruct (sorted (map fst items)) as [tags|e] eqn:E.
  - apply sorted_in. exact E.
  - eapply sorted_raises. exact E.
Qed.

Lemma map_fst_values (items : list (option string * Value)) :
  map fst (map (fun kv => (fst kv, element_of (snd kv))) items)
  = map fst items
  /\ map snd (map (fun kv => (fst kv, element_of (snd kv))) items)
     = map (fun kv => element_of (snd kv)) items.
Proof. rewrite !map_map. split; reflexivity. Qed.


Lemma forallb_mapped {A B} (p : B -> bool) (f : A -> B) (l : list A) :
  forallb p (map f l) = forallb (fun x => p (f x)) l.
Proof.
  induction l as [|x r IH]; [reflexivity|]. cbn [map forallb].
  rewrite IH. reflexivity.
Qed.

Lemma sorted_ok (l : list (option string)) :
  (List.length l <=? 1)%nat || forallb is_str_key l = true ->
  is_ok (sorted l) = true.
Proof.
  intro H. apply orb_true_iff in H. destruct H as [H | H].
  - destruct l as [|x [|y r]]; [reflexivity | reflexivity | discriminate H].
  - assert (Hex : exists l', l = map Some l').
    { induction l as [|[x|] r IH]; [exists []; reflexivity | | discriminate H].
      cbn [forallb is_str_key andb] in H. destruct (IH H) as (r' & ->).
      exists (x :: r'). reflexivity. }
    destruct Hex as (l' & ->).
    destruct (sorted_strings l') as (l'' & Hs & _). rewrite Hs. reflexivity.
Qed.

(** [serialize] returns an element for every convertible value. *)
Lemma element_of_convertible (v : Value) :
  convertible v = true -> is_ok (element_of v) = true.
Proof.
  induction v as [ | b | n | f | s | bs | d | l IHl | ordered items IHitems | ]
    using Value_nested_ind; intro H; try reflexivity.
  - destruct b; reflexivity.
  - destruct (payload_of_bytes bs) as (t & He & _). rewrite He. reflexivity.
  - rewrite element_of_list. cbn [convertible] in H.
    assert (Hok : is_ok (elements_of l) = true).
    { apply (proj2 (elements_of_cases l)). rewrite Forall_map.
      rewrite Forall_forall in IHl |- *. intros v Hin. apply IHl; [exact Hin|].
      rewrite forallb_forall in H. apply H, Hin. }
    destruct (elements_of l); [reflexivity | discriminate].
  - rewrite element_of_dict. cbn [convertible] in H.
    apply andb_true_iff in H. destruct H as [Hkeys Hvals].
    pose proof (tags_of_dict ordered items) as Ht.
    assert (Hsorted : is_ok (if ordered then Ok (map fst items)
                             else sorted (map fst items)) = true).
    { destruct ordered; [reflexivity|]. apply sorted_ok.
      rewrite length_map. cbn [orb] in Hkeys.
      rewrite forallb_mapped. exact Hkeys. }
    destruct (if ordered then Ok (map fst items) else sorted (map fst items))
      as [tags|e]; [|discriminate]. cbn [rbind].
    destruct (map_fst_values items) as [Hk Hv]. rewrite <- Hk in Ht.
    assert (Hok : is_ok (dict_children
                           (map (fun kv => (fst kv, element_of (snd kv))) items)
                           tags) = true).
    { apply (proj2 (dict_children_cases _ tags Ht)). rewrite Hv, Forall_map.
      rewrite Forall_forall in IHitems |- *. intros kv Hin.
      apply IHitems; [exact Hin|].
      rewrite forallb_forall in Hvals. apply Hvals, Hin. }
    destruct (dict_children _ tags); [reflexivity | discriminate].
  - discriminate H.
Qed.



(** X7.  [totree] succeeds on every convertible value: its result is a
    [plist] element of version 1.0 with the element of the value as its
    only child, which is what [fromtree] goes on to read; [dumps]
    succeeds with it. *)
Theorem totree_of_convertible (v : Value) :
  convertible v = true ->
  exists e,
    data_elem v = Ok e
    /\ totree v = Ok (Elem (Some "plist") [("version", "1.0")] None [e])
    /\ fromtree (Elem (Some "plist") [("version", "1.0")] None [e])
       = deserialize e
    /\ is_ok (dumps v) = true.
Proof.
  intro H. pose proof (element_of_convertible v H) as Hok.
  destruct (element_of v) as [e|x] eqn:E; [|discriminate].
  exists e. rewrite data_elem_element_of. split; [exact E|].
  assert (Ht : totree v
               = Ok (Elem (Some "plist") [("version", "1.0")] None [e])).
  { rewrite totree_element_of, E. reflexivity. }
  split; [exact Ht|]. split; [reflexivity|].
  unfold dumps. rewrite Ht. reflexivity.
Qed.

Lemma totree_of_convertible_witness :
  convertible (VDict false [(Some "b", VBytes [x41]); (Some "a", VNone)])
  = true
  /\ exists e,
       data_elem (VDict false [(Some "b", VBytes [x41]); (Some "a", VNone)])
       = Ok e
       /\ totree (VDict false [(Some "b", VBytes [x41]); (Some "a", VNone)])
          = Ok (Elem (Some "plist") [("version", "1.0")] None [e])
       /\ fromtree (Elem (Some "plist") [("version", "1.0")] None [e])
          = deserialize e
       /\ is_ok (dumps (VDict false [(Some "b", VBytes [x41]);
                                     (Some "a", VNone)])) = true.
Proof.
  split; [reflexivity|].
  apply (totree_of_convertible
           (VDict false [(Some "b", VBytes [x41]); (Some "a", VNone)])).
  reflexivity.
Defined.

(** ** What [deserialize] returns *)

Lemma deserialize_unfold tag attrib text children :
  deserialize (Elem tag attrib text children)
  = match tag_get TAGS_STATIC tag with
    | Some v => Ok v
    | None =>
        match tag_get TAGS_TEXT tag with
        | Some convert => convert text
        | None =>
            if opt_str_eqb tag (Some "array") then
              let? l := read_children children in Ok (VList l)
            else if opt_str_eqb tag (Some "dict") then
              if negb (Nat.eqb (Nat.modulo (List.length children) 2) 0) then
                Raise IncompleteDictionaryError
              else let? data := read_pairs children [] in
                   Ok (OrderedDict data)
            else Raise (ValueError "Unknown tag")
        end
    end.
Proof. reflexivity. Qed.

Lemma tag_get_in {A} (tags : list (string * A)) (tag : option string) (a : A) :
  tag_get tags tag = Some a -> In a (map snd tags).
Proof.
  destruct tag as [tag|]; [|discriminate]. unfold tag_get.
  destruct (find (fun p => String.eqb (fst p) tag) tags) as [p|] eqn:E;
    [|discriminate].
  intro H. inversion H; subst. apply find_some in E. apply in_map, E.
Qed.

Lemma well_formed_list (l : list Value) :
  well_formed (VList l) <-> Forall well_formed l.
Proof.
  cbn [well_formed]. induction l as [|x r IH].
  - split; constructor.
  - split.
    + intros [Hx Hr]. constructor; [exact Hx | apply IH; exact Hr].
    + intro H. inversion H; subst. split; [assumption | apply IH; assumption].
Qed.

Lemma well_formed_dict (ordered : bool) (items : list (option string * Value)) :
  well_formed (VDict ordered items)
  <-> ordered = true /\ NoDup (map fst items)
      /\ Forall (fun kv => well_formed (snd kv)) items.
Proof.
  cbn [well_formed].
  assert (H : (fix all (l : list (option string * Value)) : Prop :=
                 match l with
                 | [] => True
                 | (_, x) :: r => well_formed x /\ all r
                 end) items
              <-> Forall (fun kv => well_formed (snd kv)) items).
  { induction items as [|[k x] r IH].
    - split; constructor.
    - split.
      + intros [Hx Hr]. constructor; [exact Hx | apply IH; exact Hr].
      + intro H. inversion H; subst.
        split; [assumption | apply IH; assumption]. }
  rewrite H. reflexivity.
Qed.

Lemma setitem_keys (data : list (option string * Value))
    (key : option string) (value : Value) :
  (In key (map fst data) /\ map fst (setitem data key value) = map fst data)
  \/ (~ In key (map fst data)
      /\ map fst (setitem data key value) = (map fst data ++ [key])%list).
Proof.
  induction data as [|[k v] r IH]; [right; split; [intros [] | reflexivity]|].
  cbn [setitem map fst]. destruct (opt_str_eqb k key) eqn:E.
  - apply opt_str_eqb_eq in E. subst. left. split; [left|]; reflexivity.
  - destruct IH as [[Hin Hk] | [Hnin Hk]].
    + left. split; [right; exact Hin|]. cbn [map fst]. rewrite Hk. reflexivity.
    + right. split.
      * intros [Heq | Hin]; [|contradiction]. subst.
        rewrite opt_str_eqb_refl in E. discriminate.
      * cbn [map fst app]. rewrite Hk. reflexivity.
Qed.

Lemma setitem_values (P : Value -> Prop)
    (data : list (option string * Value)) (key : option string)
    (value : Value) :
  Forall (fun kv => P (snd kv)) data -> P value ->
  Forall (fun kv => P (snd kv)) (setitem data key value).
Proof.
  intros Hall Hv. induction Hall as [|[k v] r Hk Hr IH].
  - constructor; [exact Hv | constructor].
  - cbn [setitem]. destruct (opt_str_eqb k key); constructor; assumption.
Qed.

Lemma setitem_nodup (data : list (option string * Value))
    (key : option string) (value : Value) :
  NoDup (map fst data) -> NoDup (map fst (setitem data key value)).
Proof.
  intro Hnd. destruct (setitem_keys data key value) as [[_ ->] | [Hnin ->]];
    [exact Hnd|].
  apply NoDup_app; [exact Hnd | constructor; [intros [] | constructor] |].
  intros k Hk [<- | []]. contradiction.
Qed.

Lemma read_pairs_well_formed (c : list Element) :
  Forall (fun e => forall v, deserialize e = Ok v -> well_formed v) c ->
  forall data items,
    NoDup (map fst data) -> Forall (fun kv => well_formed (snd kv)) data ->
    read_pairs c data = Ok items ->
    NoDup (map fst items) /\ Forall (fun kv => well_formed (snd kv)) items.
Proof.
  induction c as [|x|x y l IH] using list_pairs_ind;
    intros Hc data items Hnd Hwf H.
  - inversion H; subst. split; assumption.
  - inversion H; subst. split; assumption.
  - cbn [read_pairs] in H.
    destruct (negb (opt_str_eqb (tag_of x) (Some "key"))); [discriminate|].
    destruct (deserialize y) as [v|e] eqn:E; [|discriminate].
    cbn [rbind] in H.
    inversion Hc as [|? ? _ Hc']; subst. inversion Hc' as [|? ? Hy Hl]; subst.
    apply (IH Hl _ _ (setitem_nodup _ _ _ Hnd)
              (setitem_values _ _ _ _ Hwf (Hy v E)) H).
Qed.

Lemma deserialize_well_formed (e : Element) :
  forall v, deserialize e = Ok v -> well_formed v.
Proof.
  induction e as [tag attrib text children IH] using Element_nested_ind.
  intros v H. rewrite deserialize_unfold in H.
  destruct (tag_get TAGS_STATIC tag) as [s|] eqn:Es.
  { inversion H; subst. apply tag_get_in in Es.
    cbn in Es. destruct Es as [<- | [<- | [<- | []]]]; exact I. }
  destruct (tag_get TAGS_TEXT tag) as [convert|] eqn:Et.
  { apply tag_get_in in Et. cbn [TAGS_TEXT map snd In] in Et.
    destruct Et as [<- | [<- | [<- | [<- | [<- | []]]]]];
      match type of H with
      | rbind ?r _ = _ => destruct r; [|discriminate H]
      | _ => idtac
      end; inversion H; exact I. }
  destruct (opt_str_eqb tag (Some "array")).
  { destruct (read_children children) as [l|x] eqn:El; [|discriminate].
    inversion H; subst. apply well_formed_list.
    clear H Es Et. revert l El.
    induction IH as [|c cs Hc Hcs IHcs]; intros l El.
    - inversion El. constructor.
    - cbn [read_children] in El.
      destruct (deserialize c) as [v|x] eqn:Ev; [|discriminate].
      destruct (read_children cs) as [vs|x]; [|discriminate].
      inversion El; subst. constructor; [apply Hc; reflexivity|].
      apply IHcs. reflexivity. }
  destruct (opt_str_eqb tag (Some "dict")); [|discriminate].
  destruct (negb (Nat.eqb (Nat.modulo (List.length children) 2) 0));
    [discriminate|].
  destruct (read_pairs children []) as [items|x] eqn:Ep; [|discriminate].
  inversion H; subst. apply well_formed_dict.
  destruct (read_pairs_well_formed children IH [] items) as [Hnd Hwf];
    [constructor | constructor | exact Ep |].
  split; [reflexivity|]. split; assumption.
Qed.

Lemma well_formed_convertible (v : Value) :
  well_formed v -> convertible v = true.
Proof.
  induction v as [ | b | n | f | s | bs | d | l IHl | ordered items IHitems | ]
    using Value_nested_ind; intro H; try reflexivity.
  - apply well_formed_list in H. cbn [convertible]. apply forallb_forall.
    intros v Hin. rewrite Forall_forall in IHl, H.
    apply IHl; [exact Hin | apply H, Hin].
  - apply well_formed_dict in H. destruct H as (-> & _ & Hwf).
    cbn [convertible orb andb]. apply forallb_forall.
    intros kv Hin. rewrite Forall_forall in IHitems, Hwf.
    apply IHitems; [exact Hin | apply Hwf, Hin].
  - contradiction.
Qed.

(** X8.  Whatever [fromtree] and [deserialize] return is well formed:
    every mapping in it, at any depth, is an [OrderedDict] with pairwise
    different keys; and it is convertible: [totree] and [dumps] succeed
    on it. *)
Theorem read_values_are_well_formed (tree : Element) (v : Value) :
  fromtree tree = Ok v \/ deserialize tree = Ok v ->
  well_formed v /\ is_ok (totree v) = true /\ is_ok (dumps v) = true.
Proof.
  intro H.
  assert (Hwf : well_formed v).
  { destruct H as [H | H]; [|apply (deserialize_well_formed tree v H)].
    unfold fromtree in H.
    destruct (negb (opt_str_eqb (tag_of tree) (Some "plist"))
              || negb (Nat.eqb (List.length (children_of tree)) 1));
      [discriminate|].
    destruct (children_of tree) as [|child cs]; [discriminate|].
    apply (deserialize_well_formed child v H). }
  split; [exact Hwf|].
  pose proof (element_of_convertible v (well_formed_convertible v Hwf)) as Hok.
  assert (Ht : is_ok (totree v) = true).
  { rewrite totree_element_of. destruct (element_of v); [reflexivity|].
    discriminate Hok. }
  split; [exact Ht|]. unfold dumps.
  destruct (totree v); [reflexivity | discriminate Ht].
Qed.

Lemma read_values_are_well_formed_witness :
  (fromtree ParsedExample.tree = Ok TestPlist.converted
   \/ deserialize ParsedExample.tree = Ok TestPlist.converted)
  /\ (well_formed TestPlist.converted
      /\ is_ok (totree TestPlist.converted) = true
      /\ is_ok (dumps TestPlist.converted) = true).
Proof.
  assert (H : fromtree ParsedExample.tree = Ok TestPlist.converted)
    by (vm_compute; reflexivity).
  split; [left; exact H|].
  apply (read_values_are_well_formed ParsedExample.tree TestPlist.converted).
  left. exact H.
Defined.

(** ** What [deserialize] reads *)

Lemma read_part_tag (e : Element) : tag_of (read_part e) = tag_of e.
Proof.
  destruct e as [tag attrib text children]. cbn [read_part].
  destruct (is_container tag); reflexivity.
Qed.

Lemma read_part_key_text (e : Element) :
  tag_of e = Some "key" -> text_of (read_part e) = text_of e.
Proof.
  destruct e as [tag attrib text children]. cbn [tag_of]. intros ->.
  reflexivity.
Qed.

Lemma read_children_read_part (children : list Element) :
  Forall (fun e => deserialize (read_part e) = deserialize e) children ->
  read_children (map read_part children) = read_children children.
Proof.
  induction 1 as [|c cs Hc Hcs IH]; [reflexivity|].
  cbn [map read_children]. rewrite Hc, IH. reflexivity.
Qed.

Lemma read_pairs_read_part (children : list Element) :
  Forall (fun e => deserialize (read_part e) = deserialize e) children ->
  forall data,
    read_pairs (map read_part children) data = read_pairs children data.
Proof.
  induction children as [|x|x y l IH] using list_pairs_ind;
    intros Hall data; try reflexivity.
  inversion Hall as [|? ? _ Hall']; subst.
  inversion Hall' as [|? ? Hy Hl]; subst.
  cbn [map read_pairs]. rewrite read_part_tag.
  destruct (opt_str_eqb (tag_of x) (Some "key")) eqn:E; [|reflexivity].
  apply opt_str_eqb_eq in E. cbn [negb].
  rewrite (read_part_key_text x E), Hy.
  destruct (deserialize y) as [v|e]; [|reflexivity]. cbn [rbind].
  apply (IH Hl).
Qed.

Lemma deserialize_read_part (e : Element) :
  deserialize (read_part e) = deserialize e.
Proof.
  induction e as [tag attrib text children IH] using Element_nested_ind.
  cbn [read_part]. unfold is_container.
  destruct (opt_str_eqb tag (Some "array")) eqn:Ea.
  { apply opt_str_eqb_eq in Ea. subst tag. cbn [orb].
    rewrite !deserialize_array, (read_children_read_part children IH).
    reflexivity. }
  destruct (opt_str_eqb tag (Some "dict")) eqn:Ed.
  { apply opt_str_eqb_eq in Ed. subst tag. cbn [orb].
    rewrite !deserialize_dict, length_map.
    rewrite (read_pairs_read_part children IH). reflexivity. }
  cbn [orb]. rewrite !deserialize_unfold, Ea, Ed. reflexivity.
Qed.

(** X9.  [deserialize] never reads an attribute, the text of an [array]
    or [dict], or the children of any other element: an element and the
    part of it made of tags, the children of containers and the text of
    the other elements give the same result, or the same exception. *)
Theorem deserialize_reads_tags_children_text (e : Element) :
  deserialize (read_part e) = deserialize e
  /\ forall attrib text,
       fromtree (Elem (Some "plist") attrib text [read_part e])
       = fromtree (Elem (Some "plist") [] None [e]).
Proof.
  split; [apply deserialize_read_part|].
  intros attrib text. unfold fromtree.
  cbn [tag_of children_of opt_str_eqb List.length]. cbn.
  apply deserialize_read_part.
Qed.

(** ** Keys that come twice *)

Lemma key_value_children_length (pairs : list (Element * Element)) :
  List.length (key_value_children pairs) = (2 * List.length pairs)%nat.
Proof.
  induction pairs as [|[k v] ps IH]; cbn [key_value_children List.length];
    [reflexivity | rewrite IH; lia].
Qed.

Lemma lookup_app {A} (a b : list (option string * A)) (key : option string) :
  lookup (a ++ b) key
  = match lookup a key with
    | Some v => Some v
    | None => lookup b key
    end.
Proof.
  induction a as [|[k v] r IH]; [reflexivity|]. cbn [app lookup].
  destruct (opt_str_eqb k key); [reflexivity | exact IH].
Qed.

Lemma lookup_setitem (data : list (option string * Value))
    (key : option string) (value : Value) (q : option string) :
  lookup (setitem data key value) q
  = if opt_str_eqb key q then Some value else lookup data q.
Proof.
  induction data as [|[k v] r IH]; [reflexivity|]. cbn [setitem].
  destruct (opt_str_eqb k key) eqn:E.
  - apply opt_str_eqb_eq in E. subst k. cbn [lookup].
    destruct (opt_str_eqb key q); reflexivity.
  - cbn [lookup]. rewrite IH.
    destruct (opt_str_eqb k q) eqn:Ek; [|reflexivity].
    destruct (opt_str_eqb key q) eqn:Eq; [|reflexivity].
    apply opt_str_eqb_eq in Ek, Eq. subst.
    rewrite opt_str_eqb_refl in E. discriminate.
Qed.

Lemma read_pairs_lookup (pairs : list (Element * Element))
    (vals : list Value) :
  Forall (fun kv => tag_of (fst kv) = Some "key") pairs ->
  Forall2 (fun kv v => deserialize (snd kv) = Ok v) pairs vals ->
  forall data,
  exists items,
    read_pairs (key_value_children pairs) data = Ok items
    /\ (NoDup (map fst data) -> NoDup (map fst items))
    /\ forall q,
         lookup items q
         = match lookup (rev (read_entries pairs vals)) q with
           | Some v => Some v
           | None => lookup data q
           end.
Proof.
  intros Htags Hvals. induction Hvals as [|[k e] v ps vs Hv Hvs IH];
    intro data.
  - exists data. repeat split; auto.
  - inversion Htags as [|? ? Hk Htags']; subst. cbn [fst snd] in *.
    destruct (IH Htags' (setitem data (text_of k) v)) as (items & Hr & Hnd & Hl).
    exists items. cbn [key_value_children read_pairs].
    rewrite Hk, opt_str_eqb_refl. cbn [negb]. rewrite Hv. cbn [rbind].
    split; [exact Hr|]. split.
    + intro H. apply Hnd, setitem_nodup, H.
    + intro q. rewrite Hl, lookup_setitem.
      unfold read_entries. cbn [map combine rev fst].
      fold (read_entries ps vs). rewrite lookup_app. cbn [lookup].
      destruct (lookup (rev (read_entries ps vs)) q); [reflexivity|].
      destruct (opt_str_eqb (text_of k) q); reflexivity.
Qed.

(** X10.  A [dict] element whose children are [key] elements, each
    followed by a value that deserializes, gives an [OrderedDict] with
    pairwise different keys in which every key has the value of its last
    entry: what is looked up in the result is what is found first when the
    entries are searched from the end. *)
Theorem dict_last_entry_wins (attrib : list (string * string))
    (text : option string) (pairs : list (Element * Element))
    (vals : list Value) :
  Forall (fun kv => tag_of (fst kv) = Some "key") pairs ->
  Forall2 (fun kv v => deserialize (snd kv) = Ok v) pairs vals ->
  exists items,
    deserialize (Elem (Some "dict") attrib text (key_value_children pairs))
    = Ok (OrderedDict items)
    /\ NoDup (map fst items)
    /\ forall q, lookup items q = lookup (rev (read_entries pairs vals)) q.
Proof.
  intros Htags Hvals.
  destruct (read_pairs_lookup pairs vals Htags Hvals []) as (items & Hr & Hnd & Hl).
  exists items. rewrite deserialize_dict, even_length_mod2.
  2:{ rewrite key_value_children_length, Nat.even_mul. reflexivity. }
  rewrite Hr. split; [reflexivity|]. split; [apply Hnd; constructor|].
  intro q. rewrite Hl. destruct (lookup (rev (read_entries pairs vals)) q);
    reflexivity.
Qed.

Lemma dict_last_entry_wins_witness :
  exists items,
    deserialize
      (Elem (Some "dict") [] None
         (key_value_children
            [(ParsedExample.leaf "key" "a", ParsedExample.leaf "integer" "1");
             (ParsedExample.leaf "key" "b", ParsedExample.leaf "integer" "2");
             (ParsedExample.leaf "key" "a", ParsedExample.leaf "integer" "3")]))
    = Ok (OrderedDict items)
    /\ NoDup (map fst items)
    /\ forall q,
         lookup items q
         = lookup
             (rev (read_entries
                     [(ParsedExample.leaf "key" "a",
                       ParsedExample.leaf "integer" "1");
                      (ParsedExample.leaf "key" "b",
                       ParsedExample.leaf "integer" "2");
                      (ParsedExample.leaf "key" "a",
                       ParsedExample.leaf "integer" "3")]
                     [VInt 1; VInt 2; VInt 3])) q.
Proof.
  apply (dict_last_entry_wins [] None
           [(ParsedExample.leaf "key" "a", ParsedExample.leaf "integer" "1");
            (ParsedExample.leaf "key" "b", ParsedExample.leaf "integer" "2");
            (ParsedExample.leaf "key" "a", ParsedExample.leaf "integer" "3")]
           [VInt 1; VInt 2; VInt 3]).
  - repeat constructor.
  - repeat (constructor; [vm_compute; reflexivity|]). constructor.
Defined.

(** ** Dates read from text *)

Lemma digits_exact_more (n : nat) :
  forall s ds r more,
    iso8601.digits_exact n s = Some (ds, r) ->
    iso8601.digits_exact n (s ++ more) = Some (ds, r ++ more).
Proof.
  induction n as [|n IH]; intros s ds r more H.
  - inversion H; subst. reflexivity.
  - destruct s as [|c s]; [discriminate|]. cbn [iso8601.digits_exact] in H.
    cbn [append iso8601.digits_exact].
    destruct (isdigit c); [|discriminate].
    destruct (iso8601.digits_exact n s) as [[ds' r']|] eqn:E; [|discriminate].
    inversion H; subst. rewrite (IH s ds' r more E). reflexivity.
Qed.

(** What the pattern finds as the time zone is found as well when more
    text follows. *)
Lemma match_timezone_more (s t more : string) :
  iso8601.match_timezone s = Some t ->
  iso8601.match_timezone (s ++ more) = Some t.
Proof.
  unfold iso8601.match_timezone. destruct s as [|c s]; [discriminate|].
  cbn [append iso8601.lit iso8601.sign_char].
  destruct (ord c =? 90); [auto|].
  destruct ((ord c =? 45) || (ord c =? 43)); [|discriminate].
  destruct (iso8601.digits_exact 2 s) as [[hh r2]|] eqn:E2; [|discriminate].
  rewrite (digits_exact_more 2 s hh r2 more E2).
  destruct r2 as [|c2 r3]; [discriminate|]. cbn [append iso8601.lit].
  destruct (ord c2 =? 58); [|discriminate].
  destruct (iso8601.digits_exact 2 r3) as [[mm r4]|] eqn:E3; [|discriminate].
  rewrite (digits_exact_more 2 r3 mm r4 more E3). auto.
Qed.

Lemma isoformat_append (d : datetime) (rest : string) :
  isoformat d ++ rest
  = zfill 4 (year d) ++ "-" ++ zfill 2 (month d) ++ "-" ++ zfill 2 (day d)
    ++ "T" ++ zfill 2 (hour d) ++ ":" ++ zfill 2 (minute d) ++ ":"
    ++ zfill 2 (second d)
    ++ (if microsecond d =? 0 then EmptyString
        else "." ++ zfill 6 (microsecond d))
    ++ _format_offset (tz d) ++ rest.
Proof. unfold isoformat. rewrite !append_assoc. reflexivity. Qed.

(** [parse_date] on the text of a date and time followed by [rest], when
    [rest] neither goes on with the seconds or their fraction nor starts
    a time zone other than [z]. *)
Lemma parse_date_text (d : datetime) (rest : string) (z : tzinfo) :
  valid_datetime d ->
  (microsecond d = 0
   \/ iso8601.fraction_micros (zfill 6 (microsecond d))
      = Ok (microsecond d)) ->
  match rest with
  | String c _ => isdigit c = false
  | EmptyString => True
  end ->
  iso8601.lit 46 rest = None ->
  iso8601.parse_timezone (iso8601.match_timezone rest) timezone_utc = Ok z ->
  iso8601.parse_date (Some (isoformat (with_tz d None) ++ rest))
  = Ok (with_tz d (Some z)).
Proof.
  destruct d as [y mo dd h mi s us tzo].
  unfold valid_datetime, with_tz.
  cbn [year month day hour minute second microsecond tz].
  intros (Hy & Hmo & Hdd & Hh & Hmi & Hs & Hus) Hfr Hfirst Hdot Htz.
  destruct (zfill_spec 4 y ltac:(lia)) as (HdY & _ & HiY).
  destruct (zfill_spec 2 mo ltac:(lia)) as (HdM & _ & HiM).
  destruct (zfill_spec 2 dd ltac:(lia)) as (HdD & _ & HiD).
  destruct (zfill_spec 2 h ltac:(lia)) as (HdH & _ & HiH).
  destruct (zfill_spec 2 mi ltac:(lia)) as (HdMI & _ & HiMI).
  destruct (zfill_spec 2 s ltac:(lia)) as (HdS & _ & HiS).
  destruct (zfill_spec 6 us ltac:(lia)) as (HdU & HneU & _).
  assert (Hdim : days_in_month y mo <= 31).
  { unfold days_in_month.
    repeat match goal with |- context [if ?c then _ else _] => destruct c end;
      lia. }
  pose proof (zfill_length_4 y ltac:(lia)) as HlY.
  pose proof (zfill_length_2 mo ltac:(lia)) as HlM.
  pose proof (zfill_length_2 dd ltac:(lia)) as HlD.
  pose proof (zfill_length_2 h ltac:(lia)) as HlH.
  pose proof (zfill_length_2 mi ltac:(lia)) as HlMI.
  pose proof (zfill_length_2 s ltac:(lia)) as HlS.
  destruct (match_second_text (zfill 2 s) (zfill 6 us) rest
              HlS HdS HdU Hfirst Hdot) as [Hsec0 Hsec1].
  rewrite isoformat_append.
  cbn [year month day hour minute second microsecond tz _format_offset].
  unfold iso8601.parse_date.
  rewrite (regex_matches_full _ _ _ _ _ _ HlY HdY HlM HdM HlD HdD HlH HdH
             HlMI HdMI).
  cbv zeta.
  assert (Hnew : datetime_new y mo dd h mi s us (Some z)
                 = Ok (mkdatetime y mo dd h mi s us (Some z))).
  { unfold datetime_new.
    repeat match goal with
           | |- context [(?a <=? ?b) && (?c <=? ?e)] =>
               destruct (Z.leb_spec a b), (Z.leb_spec c e); try lia;
               cbn [andb negb]
           end.
    reflexivity. }
  destruct (Z.eqb_spec us 0) as [Hz0 | Hnz].
  - change (EmptyString ++ EmptyString ++ rest) with rest.
    rewrite Hsec0.
    cbn [fst snd iso8601.g_timezone iso8601.g_fraction iso8601.g_year
         iso8601.g_month iso8601.g_day iso8601.g_hour iso8601.g_minute
         iso8601.g_second].
    rewrite Htz. cbn [rbind].
    rewrite HiY, HiM, HiD, HiH, HiMI, HiS. cbn [rbind].
    subst us. exact Hnew.
  - destruct Hfr as [Hfr | Hfr]; [contradiction|].
    change (EmptyString ++ rest) with rest.
    rewrite (Hsec1 HneU).
    cbn [fst snd iso8601.g_timezone iso8601.g_fraction iso8601.g_year
         iso8601.g_month iso8601.g_day iso8601.g_hour iso8601.g_minute
         iso8601.g_second].
    rewrite Htz. cbn [rbind]. rewrite Hfr. cbn [rbind].
    rewrite HiY, HiM, HiD, HiH, HiMI, HiS. cbn [rbind].
    exact Hnew.
Qed.

Lemma isoformat_with_tz (d : datetime) (rest : string) :
  isoformat d ++ rest
  = isoformat (with_tz d None) ++ _format_offset (tz d) ++ rest.
Proof.
  rewrite !isoformat_append. destruct d as [y mo dd h mi s us tzo].
  reflexivity.
Qed.

(** X11.  [parse_date] reads back what [isoformat] writes, and does not
    look at what comes after it: for an aware date with an offset of whole
    minutes (and microseconds the float conversion reproduces), the text
    of the date followed by any text at all parses to the date. *)
Theorem parse_date_reads_isoformat (d : datetime) (more : string) :
  stable_datetime d ->
  iso8601.parse_date (Some (isoformat d ++ more)) = Ok d.
Proof.
  intros (Hvalid & (z & Htz & Hzm & Hzr) & Hfr).
  destruct (format_offset_parses z Hzm Hzr) as (Htzm & Htzp & Hdot & Hfirst).
  rewrite isoformat_with_tz, Htz.
  assert (Hne : exists c r, _format_offset (Some z) = String c r).
  { destruct (_format_offset (Some z)) as [|c r]; [discriminate Htzm|].
    eauto. }
  destruct Hne as (c & r & Hc).
  rewrite (parse_date_text d (_format_offset (Some z) ++ more) z Hvalid Hfr).
  - destruct d as [y mo dd h mi s us tzo]. cbn [tz] in Htz. subst tzo.
    reflexivity.
  - rewrite Hc in Hfirst |- *. exact Hfirst.
  - rewrite Hc in Hdot |- *. cbn [append iso8601.lit] in Hdot |- *.
    destruct (ord c =? 46); [discriminate Hdot | reflexivity].
  - rewrite (match_timezone_more _ _ more Htzm). exact Htzp.
Qed.

Lemma parse_date_reads_isoformat_witness :
  iso8601.parse_date
    (Some (isoformat (mkdatetime 2007 1 25 12 0 0 500000
                                 (Some (mktz (timedelta (- 3) (- 30)))))
           ++ " or so"))
  = Ok (mkdatetime 2007 1 25 12 0 0 500000
                   (Some (mktz (timedelta (- 3) (- 30))))).
Proof.
  apply (parse_date_reads_isoformat
           (mkdatetime 2007 1 25 12 0 0 500000
                       (Some (mktz (timedelta (- 3) (- 30)))))
           " or so").
  unfold stable_datetime, valid_datetime.
  cbn [year month day hour minute second microsecond tz].
  split.
  - change (days_in_month 2007 1) with 31. lia.
  - split.
    + exists (mktz (timedelta (- 3) (- 30))). split; [reflexivity|].
      split; [reflexivity|]. split; reflexivity.
    + right. vm_compute. reflexivity.
Defined.

(** X12.  A naive date does not come back as it was: the text [isoformat]
    writes for it names no offset, and [parse_date] reads it, like the
    text with [Z] after it, as the same date and time in UTC. *)
Theorem naive_dates_come_back_in_utc (d : datetime) :
  valid_datetime d -> tz d = None ->
  (microsecond d = 0
   \/ iso8601.fraction_micros (zfill 6 (microsecond d))
      = Ok (microsecond d)) ->
  iso8601.parse_date (Some (isoformat d))
  = Ok (with_tz d (Some timezone_utc))
  /\ iso8601.parse_date (Some (isoformat d ++ "Z"))
     = Ok (with_tz d (Some timezone_utc)).
Proof.
  intros Hvalid Htz Hfr.
  assert (Hd : with_tz d None = d).
  { destruct d as [y mo dd h mi s us tzo]. cbn [tz] in Htz. subst tzo.
    reflexivity. }
  split.
  - rewrite <- (append_nil_r (isoformat d)). rewrite <- Hd at 1.
    apply parse_date_text; auto.
  - rewrite <- Hd at 1. apply parse_date_text; auto.
Qed.

Lemma naive_dates_come_back_in_utc_witness :
  iso8601.parse_date
    (Some (isoformat (mkdatetime 2024 2 29 23 59 59 0 None)))
  = Ok (with_tz (mkdatetime 2024 2 29 23 59 59 0 None) (Some timezone_utc))
  /\ iso8601.parse_date
       (Some (isoformat (mkdatetime 2024 2 29 23 59 59 0 None) ++ "Z"))
     = Ok (with_tz (mkdatetime 2024 2 29 23 59 59 0 None)
                   (Some timezone_utc)).
Proof.
  apply (naive_dates_come_back_in_utc (mkdatetime 2024 2 29 23 59 59 0 None)).
  - unfold valid_datetime.
    cbn [year month day hour minute second microsecond].
    change (days_in_month 2024 2) with 29. lia.
  - reflexivity.
  - left. reflexivity.
Defined.

Lemma offset_text_matches (neg : bool) (hh mm : Z) (sep : ascii)
    (more : string) :
  0 <= hh <= 99 -> 0 <= mm <= 99 -> (ord sep =? 10) = false ->
  String.eqb (offset_text neg hh sep mm ++ more) "Z" = false
  /\ iso8601.TIMEZONE_REGEX_match (offset_text neg hh sep mm ++ more)
     = Some (if neg then "-"%char else "+"%char, zfill 2 hh, zfill 2 mm).
Proof.
  intros Hhh Hmm Hsep.
  destruct (zfill_spec 2 hh (proj1 Hhh)) as (HdH & _ & _).
  destruct (zfill_spec 2 mm (proj1 Hmm)) as (HdM & _ & _).
  pose proof (zfill_length_2 hh Hhh) as HlH.
  pose proof (zfill_length_2 mm Hmm) as HlM.
  assert (Htext : offset_text neg hh sep mm ++ more
                  = String (if neg then "-" else "+")%char
                      (zfill 2 hh ++ String sep (zfill 2 mm ++ more))).
  { unfold offset_text. rewrite !append_assoc. destruct neg; reflexivity. }
  rewrite Htext. split; [destruct neg; reflexivity|].
  unfold iso8601.TIMEZONE_REGEX_match.
  assert (Hsign : iso8601.sign_char
                    (String (if neg then "-" else "+")%char
                       (zfill 2 hh ++ String sep (zfill 2 mm ++ more)))
                  = Some ((if neg then "-" else "+")%char,
                          zfill 2 hh ++ String sep (zfill 2 mm ++ more)))
    by (destruct neg; reflexivity).
  rewrite Hsign. rewrite <- HlH at 1. rewrite (digits_exact_app _ _ HdH).
  cbn [iso8601.any_char]. rewrite Hsep.
  rewrite <- HlM at 1. rewrite (digits_exact_app _ _ HdM). reflexivity.
Qed.

(** X13.  [parse_timezone] on an offset text: any character but a newline
    separates hours from minutes, what follows the minutes is not looked
    at, minutes above 59 are taken as they are, and the offset is that
    many hours and minutes east or west; an offset of 24 hours or more is
    refused by [timezone] with a [ValueError]. *)
Theorem timezone_offset_bounds (neg : bool) (hh mm : Z) (sep : ascii)
    (more : string) :
  0 <= hh <= 99 -> 0 <= mm <= 99 -> (ord sep =? 10) = false ->
  iso8601.parse_timezone (Some (offset_text neg hh sep mm ++ more))
                         timezone_utc
  = if hh * 60 + mm <? 24 * 60 then
      Ok (mktz ((if neg then - (hh * 60 + mm) else hh * 60 + mm) * 60000000))
    else
      Raise (ValueError "offset must be a timedelta strictly between -timedelta(hours=24) and timedelta(hours=24)").
Proof.
  intros Hhh Hmm Hsep.
  destruct (offset_text_matches neg hh mm sep more Hhh Hmm Hsep) as [HZ Hm].
  destruct (zfill_spec 2 hh (proj1 Hhh)) as (_ & _ & HiH).
  destruct (zfill_spec 2 mm (proj1 Hmm)) as (_ & _ & HiM).
  unfold iso8601.parse_timezone. rewrite HZ, Hm, HiH, HiM. cbn [rbind].
  unfold timezone, timedelta.
  change ((24 * 3600 + 0 * 60) * 1000000) with 86400000000.
  assert (Hcmp : forall off,
    (off = (hh * 60 + mm) * 60000000 \/ off = - (hh * 60 + mm) * 60000000) ->
    (if (- 86400000000 <? off) && (off <? 86400000000)
     then Ok (mktz off)
     else Raise (ValueError "offset must be a timedelta strictly between -timedelta(hours=24) and timedelta(hours=24)"))
    = if hh * 60 + mm <? 24 * 60 then Ok (mktz off)
      else Raise (ValueError "offset must be a timedelta strictly between -timedelta(hours=24) and timedelta(hours=24)")).
  { intros off Hoff.
    destruct (Z.ltb_spec (hh * 60 + mm) (24 * 60)) as [Hlt | Hge];
      match goal with
      | |- context [(?a <? off) && (off <? ?b)] =>
          destruct (Z.ltb_spec a off), (Z.ltb_spec off b)
      end; try reflexivity; lia. }
  destruct neg.
  - change (ord "-" =? 45) with true. cbv iota.
    replace ((- hh * 3600 + - mm * 60) * 1000000)
      with (- (hh * 60 + mm) * 60000000) by lia.
    apply Hcmp. right. reflexivity.
  - change (ord "+" =? 45) with false. cbv iota.
    replace ((hh * 3600 + mm * 60) * 1000000)
      with ((hh * 60 + mm) * 60000000) by lia.
    apply Hcmp. left. reflexivity.
Qed.

Lemma timezone_offset_bounds_witness :
  iso8601.parse_timezone (Some (offset_text true 5 "h" 75 ++ " west"))
                         timezone_utc
  = if 5 * 60 + 75 <? 24 * 60 then
      Ok (mktz ((if true then - (5 * 60 + 75) else 5 * 60 + 75) * 60000000))
    else
      Raise (ValueError "offset must be a timedelta strictly between -timedelta(hours=24) and timedelta(hours=24)").
Proof.
  apply (timezone_offset_bounds true 5 75 "h" " west"); try lia.
  reflexivity.
Defined.

Lemma py_int_not_ParseError (x : option string) :
  raises_ParseError (py_int x) = false.
Proof.
  destruct x as [s|]; [|reflexivity]. unfold py_int.
  destruct (split_sign (strip_number s)) as [neg body].
  destruct (whole_digitpart false body); reflexivity.
Qed.

Lemma py_float_not_ParseError (x : option string) :
  raises_ParseError (py_float x) = false.
Proof.
  destruct x as [s|]; [|reflexivity]. unfold py_float.
  destruct (split_sign (strip_number s)) as [neg body]. cbv zeta.
  repeat match goal with
         | |- context [if ?c then _ else _] => destruct c
         end; try reflexivity.
  destruct (scan_floatnumber body) as [[m e]|]; reflexivity.
Qed.

Lemma rbind_not_ParseError {A B} (r : result A) (k : A -> result B) :
  raises_ParseError r = false ->
  (forall a, raises_ParseError (k a) = false) ->
  raises_ParseError (rbind r k) = false.
Proof. intros Hr Hk. destruct r as [a|e]; [apply Hk | exact Hr]. Qed.

Lemma parse_timezone_not_ParseError (x : option string) :
  raises_ParseError (iso8601.parse_timezone x timezone_utc) = false.
Proof.
  destruct x as [s|]; [|reflexivity]. unfold iso8601.parse_timezone.
  destruct (String.eqb s "Z"); [reflexivity|].
  destruct (iso8601.TIMEZONE_REGEX_match s) as [[[p h] m]|]; [|reflexivity].
  apply rbind_not_ParseError; [apply py_int_not_ParseError|]. intro hh.
  apply rbind_not_ParseError; [apply py_int_not_ParseError|]. intro mm.
  destruct (ord p =? 45); unfold timezone;
    match goal with
    | |- context [if ?c then _ else _] => destruct c
    end; reflexivity.
Qed.

Lemma fraction_not_ParseError (f : string) :
  raises_ParseError (iso8601.fraction_micros f) = false.
Proof.
  unfold iso8601.fraction_micros.
  apply rbind_not_ParseError; [apply py_float_not_ParseError|]. intro x.
  destruct (float_mul x float_1e6); reflexivity.
Qed.

Lemma datetime_new_not_ParseError (y mo d h mi s us : Z) (z : option tzinfo) :
  raises_ParseError (datetime_new y mo d h mi s us z) = false.
Proof.
  unfold datetime_new.
  repeat match goal with
         | |- context [if ?c then _ else _] => destruct c
         end; reflexivity.
Qed.

Lemma regex_matches_year (s : string) :
  match iso8601.ISO8601_REGEX_match s with
  | Some _ => four_digits_first s = true
  | None => four_digits_first s = false
  end.
Proof.
  unfold iso8601.ISO8601_REGEX_match.
  assert (H : match iso8601.digits_exact 4 s with
              | Some _ => four_digits_first s = true
              | None => four_digits_first s = false
              end).
  { destruct s as [|a [|b [|c [|d r]]]]; cbn [iso8601.digits_exact];
      try reflexivity;
      repeat match goal with
             | |- context [isdigit ?x] => destruct (isdigit x) eqn:?
             end; cbn [four_digits_first]; try reflexivity;
      repeat match goal with
             | H : isdigit _ = _ |- _ => rewrite H
             end; reflexivity. }
  destruct (iso8601.digits_exact 4 s) as [[y r0]|]; [|exact H].
  repeat match goal with
         | |- context [match ?x with _ => _ end] =>
             match x with
             | iso8601.lit _ _ => destruct x
             | iso8601.digits_1_2 _ => destruct x as [[? ?]|]
             | iso8601.match_time _ => destruct x as [[[[[[? ?] ?] ?] ?] ?]|]
             end
         end; exact H.
Qed.

(** X14.  [parse_date] raises [ParseError] exactly when it is given
    [None], or a text that does not start with four digits; whatever goes
    wrong after the year has been found raises something else. *)
Theorem parse_date_ParseError (datestring : option string) :
  raises_ParseError (iso8601.parse_date datestring)
  = match datestring with
    | None => true
    | Some s => negb (four_digits_first s)
    end.
Proof.
  destruct datestring as [s|]; [|reflexivity]. unfold iso8601.parse_date.
  pose proof (regex_matches_year s) as H.
  destruct (iso8601.ISO8601_REGEX_match s) as [g|]; rewrite H;
    [|reflexivity].
  cbn [negb].
  apply rbind_not_ParseError; [apply parse_timezone_not_ParseError|]. intro z.
  apply rbind_not_ParseError.
  { destruct (iso8601.g_fraction g); [apply fraction_not_ParseError|].
    reflexivity. }
  intro us.
  repeat (apply rbind_not_ParseError; [apply py_int_not_ParseError|]; intro).
  apply datetime_new_not_ParseError.
Qed.

(** ** Plain dictionaries *)

Lemma combine_fst_snd {A B} (l : list (A * B)) :
  combine (map fst l) (map snd l) = l.
Proof.
  induction l as [|[a b] r IH]; [reflexivity|]. cbn [map combine fst snd].
  rewrite IH. reflexivity.
Qed.

Lemma Forall2_combine {A B} (P : A -> B -> Prop) (l : list A) (m : list B) :
  Forall2 P l m ->
  map fst (combine l m) = l /\ map snd (combine l m) = m
  /\ Forall (fun t => P (fst t) (snd t)) (combine l m).
Proof.
  induction 1 as [|a b l m Hab Hlm (IH1 & IH2 & IH3)].
  - repeat split; constructor.
  - cbn [combine map fst snd]. rewrite IH1, IH2.
    repeat split. constructor; assumption.
Qed.

Lemma Forall_Forall2_combine {A B} (P : A -> B -> Prop) (l : list (A * B)) :
  Forall (fun t => P (fst t) (snd t)) l -> Forall2 P (map fst l) (map snd l).
Proof.
  induction 1 as [|[a b] r Hab Hr IH]; constructor; assumption.
Qed.

(** X15.  A plain [dict] comes back as an [OrderedDict] with the same
    items in the order of their keys: for pairwise different, non-empty
    [str] keys and values that survive the round trip, [fromtree] on
    [totree] returns the items sorted by key. *)
Theorem plain_dict_comes_back_sorted (items : list (string * Value)) :
  NoDup (map fst items) ->
  Forall (fun kv => fst kv <> EmptyString /\ stable (snd kv)) items ->
  exists tree items',
    totree (VDict false (str_items items)) = Ok tree
    /\ fromtree tree = Ok (OrderedDict (str_items items'))
    /\ Permutation items' items
    /\ Sorted key_le (map fst items').
Proof.
  intros Hnd Hall.
  assert (Hex : exists elems,
             Forall2 (fun kv e => element_of (snd kv) = Ok e
                                  /\ deserialize e = Ok (snd kv))
                     items elems).
  { clear Hnd. induction Hall as [|kv r [_ Hst] Hr (es & Hes)].
    - exists []. constructor.
    - destruct (element_round_trip (snd kv) Hst) as (e & He & Hde).
      exists (e :: es). constructor; [split; assumption | exact Hes]. }
  destruct Hex as (elems & Hboth).
  assert (Hel : Forall2 (fun kv e => element_of (snd kv) = Ok e) items elems).
  { eapply Forall2_impl; [|exact Hboth]. intros kv e [H _]. exact H. }
  destruct (element_of_str_dict false items elems Hnd Hel)
    as (entries & Hperm & Hsorted & Helem).
  destruct (Forall2_combine _ items elems Hboth) as (Hfst & Hsnd & Htriples).
  set (triples := combine items elems) in *.
  assert (Hmap : combine (map fst items) elems
                 = map (fun t : (string * Value) * Element =>
                          (fst (fst t), snd t)) triples).
  { rewrite <- Hfst at 1. rewrite <- Hsnd at 1. rewrite map_map.
    clear. induction triples as [|[[k v] e] r IH]; [reflexivity|].
    cbn [map combine fst snd]. rewrite IH. reflexivity. }
  rewrite Hmap in Hperm.
  destruct (Permutation_map_inv _ _ Hperm) as (triples' & Hentries & Hpt).
  set (items' := map fst triples').
  set (elems' := map snd triples').
  assert (Hentries' : entries = combine (map fst items') elems').
  { rewrite Hentries. unfold items', elems'. rewrite map_map.
    clear. induction triples' as [|[[k v] e] r IH]; [reflexivity|].
    cbn [map combine fst snd]. rewrite IH. reflexivity. }
  assert (Hpi : Permutation items' items).
  { unfold items'. rewrite <- Hfst. symmetry. apply Permutation_map, Hpt. }
  assert (Hde : Forall2 (fun kv e => deserialize e = Ok (snd kv))
                        items' elems').
  { apply (Forall_Forall2_combine
             (fun (kv : string * Value) e => deserialize e = Ok (snd kv))).
    eapply Permutation_Forall; [exact Hpt|].
    eapply Forall_impl; [|exact Htriples]. intros t [_ H]. exact H. }
  assert (Hne : Forall (fun kv : string * Value => fst kv <> EmptyString)
                       items').
  { eapply Permutation_Forall; [symmetry; exact Hpi|].
    eapply Forall_impl; [|exact Hall]. intros kv [H _]. exact H. }
  assert (Hnd' : NoDup (map fst items')).
  { eapply Permutation_NoDup; [|exact Hnd].
    apply Permutation_map. symmetry. exact Hpi. }
  exists (Elem (Some "plist") [("version", "1.0")] None
            [Elem (Some "dict") [] None (key_value_elements entries)]),
         items'.
  split; [rewrite totree_element_of, Helem; reflexivity|].
  split; [|split].
  - unfold fromtree. cbn [tag_of children_of opt_str_eqb List.length].
    cbn [String.eqb Ascii.eqb Bool.eqb negb orb Nat.eqb].
    rewrite deserialize_dict, even_length_mod2.
    2:{ rewrite key_value_elements_length, Nat.even_mul. reflexivity. }
    rewrite Hentries'.
    rewrite (read_pairs_entries items' elems' Hde Hne Hnd' []).
    + reflexivity.
    + intros k _ [].
  - exact Hpi.
  - rewrite Hentries' in Hsorted.
    replace (map fst (combine (map fst items') elems')) with (map fst items')
      in Hsorted; [exact Hsorted|].
    unfold items', elems'. rewrite map_map. clear.
    induction triples' as [|[[k v] e] r IH]; [reflexivity|].
    cbn [map combine fst snd]. rewrite <- IH. reflexivity.
Qed.

Lemma plain_dict_comes_back_sorted_witness :
  exists tree items',
    totree (VDict false (str_items [("b", VInt 1); ("a", VList [])]))
    = Ok tree
    /\ fromtree tree = Ok (OrderedDict (str_items items'))
    /\ Permutation items' [("b", VInt 1); ("a", VList [])]
    /\ Sorted key_le (map fst items').
Proof.
  apply (plain_dict_comes_back_sorted [("b", VInt 1); ("a", VList [])]).
  - constructor; [|constructor; [|constructor]]; simpl; intuition discriminate.
  - constructor; [split; [discriminate | exact I]|].
    constructor; [split; [discriminate | exact I]|]. constructor.
Defined.

(** ** What [WHITESPACE_RE] removes *)

Lemma scan_no_break (s : string) :
  all_chars not_line_break (WHITESPACE_RE.scan s) = true.
Proof.
  induction s as [|c r IH]; [reflexivity|]. cbn [WHITESPACE_RE.scan].
  destruct ((ord c =? 10) || (ord c =? 13)) eqn:En; [exact IH|].
  destruct (isspace c && all_chars isspace r); [reflexivity|].
  cbn [all_chars]. unfold not_line_break at 1, is_line_break.
  rewrite En, IH. reflexivity.
Qed.

Lemma all_space_filter (s : string) :
  all_chars isspace s = true <-> str_filter not_space s = EmptyString.
Proof.
  induction s as [|c r IH]; [split; reflexivity|].
  cbn [all_chars str_filter]. unfold not_space at 1.
  destruct (isspace c); cbn [negb andb]; [exact IH|].
  split; discriminate.
Qed.

Lemma scan_keeps (s : string) :
  str_filter not_space (WHITESPACE_RE.scan s) = str_filter not_space s.
Proof.
  induction s as [|c r IH]; [reflexivity|]. cbn [WHITESPACE_RE.scan].
  destruct ((ord c =? 10) || (ord c =? 13)) eqn:En.
  - cbn [str_filter]. unfold not_space at 2.
    rewrite (newline_is_space c En). exact IH.
  - destruct (isspace c && all_chars isspace r) eqn:Es.
    + apply andb_true_iff in Es. destruct Es as [Hc Hr].
      cbn [str_filter]. unfold not_space at 1. rewrite Hc. cbn [negb].
      symmetry. apply all_space_filter, Hr.
    + cbn [str_filter]. rewrite IH. reflexivity.
Qed.

Lemma drop_spaces_keeps (s : string) :
  str_filter not_space (drop_while isspace s) = str_filter not_space s.
Proof.
  induction s as [|c r IH]; [reflexivity|]. cbn [drop_while].
  destruct (isspace c) eqn:Hc; [|reflexivity].
  cbn [str_filter]. unfold not_space at 2. rewrite Hc. exact IH.
Qed.

Lemma rstrip_empty (s : string) :
  rstrip isspace s = EmptyString <-> all_chars isspace s = true.
Proof.
  induction s as [|c r IH]; [split; reflexivity|].
  cbn [rstrip all_chars].
  destruct (rstrip isspace r) as [|c' r'] eqn:E.
  - assert (Hr : all_chars isspace r = true) by (apply IH; reflexivity).
    rewrite Hr, andb_true_r. destruct (isspace c); split;
      (reflexivity || discriminate).
  - assert (Hr : all_chars isspace r = false).
    { destruct (all_chars isspace r); [|reflexivity].
      destruct IH as [_ IH]. discriminate (IH eq_refl). }
    rewrite Hr, andb_false_r. split; discriminate.
Qed.

Lemma rstrip_cons (c : ascii) (r : string) :
  rstrip isspace (String c r)
  = if isspace c && all_chars isspace r then EmptyString
    else String c (rstrip isspace r).
Proof.
  cbn [rstrip]. destruct (rstrip isspace r) as [|c' r'] eqn:E.
  - rewrite (proj1 (rstrip_empty r) E), andb_true_r.
    destruct (isspace c); reflexivity.
  - assert (Hr : all_chars isspace r = false).
    { destruct (all_chars isspace r) eqn:Ha; [|reflexivity].
      rewrite (proj2 (rstrip_empty r) Ha) in E. discriminate E. }
    rewrite Hr, andb_false_r. reflexivity.
Qed.

(** Without line breaks, the search from a position after the first
    removes the whitespace at the end and nothing else. *)
Lemma scan_rstrip (s : string) :
  all_chars not_line_break s = true ->
  WHITESPACE_RE.scan s = rstrip isspace s.
Proof.
  induction s as [|c r IH]; [reflexivity|]. cbn [all_chars]. intro H.
  apply andb_true_iff in H. destruct H as [Hc Hr].
  unfold not_line_break, is_line_break in Hc. apply negb_true_iff in Hc.
  cbn [WHITESPACE_RE.scan]. rewrite Hc, rstrip_cons, (IH Hr). reflexivity.
Qed.

Lemma rstrip_scan (s : string) :
  rstrip isspace (WHITESPACE_RE.scan s) = WHITESPACE_RE.scan s.
Proof.
  rewrite <- (scan_rstrip (WHITESPACE_RE.scan s) (scan_no_break s)).
  induction s as [|c r IH]; [reflexivity|]. cbn [WHITESPACE_RE.scan].
  destruct ((ord c =? 10) || (ord c =? 13)) eqn:En; [exact IH|].
  destruct (isspace c && all_chars isspace r) eqn:Es; [reflexivity|].
  cbn [WHITESPACE_RE.scan]. rewrite En, IH.
  replace (isspace c && all_chars isspace (WHITESPACE_RE.scan r)) with false;
    [reflexivity|].
  symmetry. apply andb_false_iff. apply andb_false_iff in Es.
  destruct Es as [Hc | Hr]; [left; exact Hc | right].
  destruct (all_chars isspace (WHITESPACE_RE.scan r)) eqn:E; [|reflexivity].
  apply all_space_filter in E. rewrite scan_keeps in E.
  apply all_space_filter in E. congruence.
Qed.

Lemma sub_scan (s : string) :
  WHITESPACE_RE.sub s = WHITESPACE_RE.scan (drop_while isspace s).
Proof.
  destruct s as [|c r]; [reflexivity|]. unfold WHITESPACE_RE.sub.
  cbn [drop_while]. destruct (isspace c); reflexivity.
Qed.

Lemma drop_spaces_twice (s : string) :
  drop_while isspace (WHITESPACE_RE.scan (drop_while isspace s))
  = WHITESPACE_RE.scan (drop_while isspace s).
Proof.
  induction s as [|c r IH]; [reflexivity|]. cbn [drop_while].
  destruct (isspace c) eqn:Hc; [exact IH|].
  cbn [WHITESPACE_RE.scan].
  destruct ((ord c =? 10) || (ord c =? 13)) eqn:En.
  - rewrite (newline_is_space c En) in Hc. discriminate Hc.
  - rewrite Hc. cbn [andb drop_while]. rewrite Hc. reflexivity.
Qed.

(** X16.  What [WHITESPACE_RE.sub('', s)] does: it removes whitespace
    only; the result has no line break and no whitespace at either end,
    and is left as it is when cleaned again; and a text without line
    breaks is stripped at both ends, its inner whitespace kept. *)
Theorem WHITESPACE_RE_strips_and_joins_lines (s : string) :
  all_chars not_line_break (WHITESPACE_RE.sub s) = true
  /\ str_strip (WHITESPACE_RE.sub s) = WHITESPACE_RE.sub s
  /\ str_filter not_space (WHITESPACE_RE.sub s) = str_filter not_space s
  /\ WHITESPACE_RE.sub (WHITESPACE_RE.sub s) = WHITESPACE_RE.sub s
  /\ (all_chars not_line_break s = true -> WHITESPACE_RE.sub s = str_strip s).
Proof.
  rewrite !sub_scan. split; [apply scan_no_break|].
  assert (Hstrip : str_strip (WHITESPACE_RE.scan (drop_while isspace s))
                   = WHITESPACE_RE.scan (drop_while isspace s)).
  { unfold str_strip. rewrite drop_spaces_twice. apply rstrip_scan. }
  split; [exact Hstrip|]. split; [|split].
  - rewrite scan_keeps. apply drop_spaces_keeps.
  - rewrite drop_spaces_twice.
    rewrite (scan_rstrip _ (scan_no_break _)). apply rstrip_scan.
  - intro H. unfold str_strip. apply scan_rstrip.
    apply all_chars_drop_while, H.
Qed.

(** ** The order of a plain dictionary does not matter *)

Lemma ascii_compare_lt_trans (a b c : ascii) :
  Ascii.compare a b = Lt -> Ascii.compare b c = Lt -> Ascii.compare a c = Lt.
Proof.
  unfold Ascii.compare. rewrite !N.compare_lt_iff. apply N.lt_trans.
Qed.

Lemma ascii_compare_eq (a b : ascii) : Ascii.compare a b = Eq -> a = b.
Proof.
  unfold Ascii.compare. intro H. apply N.compare_eq in H.
  rewrite <- (ascii_N_embedding a), <- (ascii_N_embedding b), H. reflexivity.
Qed.

Lemma key_le_trans (a : string) :
  forall b c, key_le a b -> key_le b c -> key_le a c.
Proof.
  unfold key_le, String.leb.
  induction a as [|x a IH]; intros [|y b] [|z c]; cbn [String.compare];
    try reflexivity; try discriminate.
  destruct (Ascii.compare x y) eqn:E1; try discriminate.
  - apply ascii_compare_eq in E1. subst y.
    destruct (Ascii.compare x z) eqn:E2; try discriminate; [|reflexivity].
    apply IH.
  - destruct (Ascii.compare y z) eqn:E2; try discriminate.
    + apply ascii_compare_eq in E2. subst z. rewrite E1. reflexivity.
    + rewrite (ascii_compare_lt_trans x y z E1 E2). reflexivity.
Qed.

Lemma key_le_antisym (a b : string) : key_le a b -> key_le b a -> a = b.
Proof. unfold key_le. apply String.leb_antisym. Qed.

(** Keys have one sorted order. *)
Lemma sorted_unique (l1 : list string) :
  forall l2,
    Sorted key_le l1 -> Sorted key_le l2 -> Permutation l1 l2 -> l1 = l2.
Proof.
  assert (Htrans : Relations_1.Transitive key_le)
    by (intros a b c; apply key_le_trans).
  induction l1 as [|x r1 IH]; intros l2 H1 H2 Hp.
  - apply Permutation_nil in Hp. congruence.
  - destruct l2 as [|y r2];
      [symmetry in Hp; apply Permutation_nil in Hp; discriminate|].
    apply Sorted_StronglySorted in H1, H2; try exact Htrans.
    inversion H1 as [|? ? Hs1 Hf1]; subst.
    inversion H2 as [|? ? Hs2 Hf2]; subst.
    assert (Hxy : x = y).
    { assert (Hy : In y (x :: r1))
        by (eapply Permutation_in; [symmetry; exact Hp | left; reflexivity]).
      assert (Hx : In x (y :: r2))
        by (eapply Permutation_in; [exact Hp | left; reflexivity]).
      destruct Hy as [Hy | Hy]; [exact Hy|].
      destruct Hx as [Hx | Hx]; [symmetry; exact Hx|].
      rewrite Forall_forall in Hf1, Hf2.
      apply key_le_antisym; [apply Hf1, Hy | apply Hf2, Hx]. }
    subst y. f_equal. apply IH.
    + apply StronglySorted_Sorted, Hs1.
    + apply StronglySorted_Sorted, Hs2.
    + eapply Permutation_cons_inv. exact Hp.
Qed.

Lemma lookup_absent {A} (l : list (option string * A)) (key : option string) :
  ~ In key (map fst l) -> lookup l key = None.
Proof.
  induction l as [|[k a] r IH]; intro H; [reflexivity|].
  cbn [lookup map fst] in *. destruct (opt_str_eqb k key) eqn:E.
  - apply opt_str_eqb_eq in E. exfalso. apply H. left. exact E.
  - apply IH. intro Hin. apply H. right. exact Hin.
Qed.

Lemma lookup_permutation {A} (l l' : list (option string * A)) :
  Permutation l l' -> NoDup (map fst l) ->
  forall key, lookup l key = lookup l' key.
Proof.
  induction 1 as [|[k a] l l' Hp IH|[k1 a1] [k2 a2] l|l l' l'' H1 IH1 H2 IH2];
    intros Hnd key.
  - reflexivity.
  - cbn [lookup]. inversion Hnd; subst. rewrite IH by assumption. reflexivity.
  - cbn [lookup]. destruct (opt_str_eqb k1 key) eqn:E1; [|reflexivity].
    destruct (opt_str_eqb k2 key) eqn:E2; [|reflexivity].
    apply opt_str_eqb_eq in E1, E2. subst.
    cbn [map fst] in Hnd. inversion Hnd as [|? ? Hnin _]; subst.
    exfalso. apply Hnin. left. reflexivity.
  - rewrite IH1 by assumption. apply IH2.
    eapply Permutation_NoDup; [|exact Hnd]. apply Permutation_map, H1.
Qed.

Lemma NoDup_map_Some {A} (l : list A) : NoDup l -> NoDup (map Some l).
Proof.
  induction 1 as [|x r Hx Hr IH]; [constructor|]. cbn [map].
  constructor; [|exact IH]. intro Hin. apply in_map_iff in Hin.
  destruct Hin as (y & Hy & Hin). inversion Hy; subst. contradiction.
Qed.

Lemma dict_children_same
    (values values' : list (option string * result Element))
    (tags : list (option string)) :
  (forall key, lookup values key = lookup values' key) ->
  dict_children values tags = dict_children values' tags.
Proof.
  intro H. induction tags as [|key tags IH]; [reflexivity|].
  cbn [dict_children]. rewrite H, IH. reflexivity.
Qed.

(** X17.  What is written for a plain [dict] with [str] keys does not
    depend on the order of its items: two such mappings with the same
    items give the same element, the same tree and the same text, or the
    same exception. *)
Theorem plain_dict_order_does_not_matter
    (items items' : list (string * Value)) :
  NoDup (map fst items) -> Permutation items items' ->
  data_elem (VDict false (str_items items))
  = data_elem (VDict false (str_items items'))
  /\ totree (VDict false (str_items items))
     = totree (VDict false (str_items items'))
  /\ dumps (VDict false (str_items items))
     = dumps (VDict false (str_items items')).
Proof.
  intros Hnd Hperm.
  assert (He : element_of (VDict false (str_items items))
               = element_of (VDict false (str_items items'))).
  { rewrite !element_of_dict. unfold str_items. rewrite !map_map.
    cbn [fst snd].
    rewrite <- (map_map fst Some items), <- (map_map fst Some items').
    destruct (sorted_strings (map fst items)) as (ks & Hs & Hp & Hsorted).
    destruct (sorted_strings (map fst items')) as (ks' & Hs' & Hp' & Hsorted').
    assert (Hks : ks = ks').
    { apply sorted_unique; [assumption | assumption |].
      rewrite Hp, Hp'. apply Permutation_map, Hperm. }
    rewrite Hs, Hs', Hks. cbn [rbind].
    rewrite (dict_children_same
               (map (fun x => (Some (fst x), element_of (snd x))) items)
               (map (fun x => (Some (fst x), element_of (snd x))) items'));
      [reflexivity|].
    apply lookup_permutation; [apply Permutation_map, Hperm|].
    rewrite map_map. cbn [fst]. rewrite <- (map_map fst Some).
    apply NoDup_map_Some, Hnd. }
  assert (Ht : totree (VDict false (str_items items))
               = totree (VDict false (str_items items'))).
  { rewrite !totree_element_of, He. reflexivity. }
  split; [rewrite !data_elem_element_of; exact He|].
  split; [exact Ht|]. unfold dumps. rewrite Ht. reflexivity.
Qed.

Lemma plain_dict_order_does_not_matter_witness :
  data_elem (VDict false (str_items [("b", VInt 1); ("a", VObject)]))
  = data_elem (VDict false (str_items [("a", VObject); ("b", VInt 1)]))
  /\ totree (VDict false (str_items [("b", VInt 1); ("a", VObject)]))
     = totree (VDict false (str_items [("a", VObject); ("b", VInt 1)]))
  /\ dumps (VDict false (str_items [("b", VInt 1); ("a", VObject)]))
     = dumps (VDict false (str_items [("a", VObject); ("b", VInt 1)])).
Proof.
  apply (plain_dict_order_does_not_matter
           [("b", VInt 1); ("a", VObject)] [("a", VObject); ("b", VInt 1)]).
  - constructor; [|constructor; [|constructor]]; simpl; intuition discriminate.
  - apply perm_swap.
Defined.

(** ** Reading what was written *)
















































































(** ** The separator of date and time *)

Lemma regex_matches_separator (Y M D H MI tail : string) (sep : ascii) :
  String.length Y = 4%nat -> all_chars isdigit Y = true ->
  String.length M = 2%nat -> all_chars isdigit M = true ->
  String.length D = 2%nat -> all_chars isdigit D = true ->
  String.length H = 2%nat -> all_chars isdigit H = true ->
  String.length MI = 2%nat -> all_chars isdigit MI = true ->
  (ord sep =? 10) = false ->
  iso8601.ISO8601_REGEX_match
    (Y ++ "-" ++ M ++ "-" ++ D ++ String sep (H ++ ":" ++ MI ++ tail))
  = let ms := iso8601.match_second tail in
    Some (iso8601.mkgroups (Some Y) (Some M) (Some D) (Some (str1 sep))
            (Some H) (Some MI) (fst (fst ms)) (snd (fst ms))
            (iso8601.match_timezone (snd ms))).
Proof.
  intros HlY HdY HlM HdM HlD HdD HlH HdH HlMI HdMI Hsep.
  unfold iso8601.ISO8601_REGEX_match.
  rewrite <- HlY at 1. rewrite (digits_exact_app Y _ HdY).
  change (iso8601.lit 45 ("-" ++ M ++ "-" ++ D
                          ++ String sep (H ++ ":" ++ MI ++ tail)))
    with (Some (M ++ "-" ++ D ++ String sep (H ++ ":" ++ MI ++ tail))).
  cbv beta iota.
  rewrite (digits_1_2_app M _ HlM HdM).
  change (iso8601.lit 45 ("-" ++ D ++ String sep (H ++ ":" ++ MI ++ tail)))
    with (Some (D ++ String sep (H ++ ":" ++ MI ++ tail))).
  cbv beta iota.
  rewrite (digits_1_2_app D _ HlD HdD).
  unfold iso8601.match_time. cbn [iso8601.any_char]. rewrite Hsep.
  rewrite <- HlH at 1. rewrite (digits_exact_app H _ HdH).
  change (iso8601.lit 58 (":" ++ MI ++ tail)) with (Some (MI ++ tail)).
  cbv beta iota.
  rewrite <- HlMI at 1. rewrite (digits_exact_app MI _ HdMI).
  destruct (iso8601.match_second tail) as [[ss f] r5]. reflexivity.
Qed.

(** X19.  Any character but a newline may stand between the date and the
    time: [parse_date] gives the same result, or raises the same
    exception, as with [T] in its place. *)
Theorem date_separator_is_free (Y M D H MI tail : string) (sep : ascii) :
  String.length Y = 4%nat -> all_chars isdigit Y = true ->
  String.length M = 2%nat -> all_chars isdigit M = true ->
  String.length D = 2%nat -> all_chars isdigit D = true ->
  String.length H = 2%nat -> all_chars isdigit H = true ->
  String.length MI = 2%nat -> all_chars isdigit MI = true ->
  (ord sep =? 10) = false ->
  iso8601.parse_date
    (Some (Y ++ "-" ++ M ++ "-" ++ D ++ String sep (H ++ ":" ++ MI ++ tail)))
  = iso8601.parse_date
      (Some (Y ++ "-" ++ M ++ "-" ++ D ++ "T" ++ H ++ ":" ++ MI ++ tail)).
Proof.
  intros HlY HdY HlM HdM HlD HdD HlH HdH HlMI HdMI Hsep.
  unfold iso8601.parse_date.
  rewrite (regex_matches_separator _ _ _ _ _ tail sep HlY HdY HlM HdM HlD HdD
             HlH HdH HlMI HdMI Hsep).
  rewrite (regex_matches_full _ _ _ _ _ tail HlY HdY HlM HdM HlD HdD
             HlH HdH HlMI HdMI).
  reflexivity.
Qed.

Lemma date_separator_is_free_witness :
  iso8601.parse_date
    (Some ("2007" ++ "-" ++ "01" ++ "-" ++ "25"
           ++ String " " ("12" ++ ":" ++ "30" ++ ":45+01:00")))
  = iso8601.parse_date
      (Some ("2007" ++ "-" ++ "01" ++ "-" ++ "25" ++ "T" ++ "12" ++ ":" ++ "30"
             ++ ":45+01:00")).
Proof.
  apply (date_separator_is_free "2007" "01" "25" "12" "30" ":45+01:00" " ");
    reflexivity.
Defined.

(** ** Plain dictionaries in text *)














